(** * Scheduled delivery, send log, log queries, retry and rotation

  A shallow embedding of the bot process ([bot/database.js] and the bot's
  main script), and of the dashboard routes that read the same database
  file (the log listing route and the retry route).

  Conventions of the embedding.
  - TEXT columns are [string]s (byte strings), nullable columns are
    [option]s, INTEGER columns are [Z].
  - SQL comparison of TEXT values is the bytewise order [String.ltb]
    (SQLite's default BINARY collation); timestamps are TEXT.
  - The database is opened with the [sqlite3] driver, whose calls hand
    their result to a callback and return the object they were called on
    ([database.js] and the dashboard routes read rows and [this.lastID]
    in such callbacks).  Code that uses what [stmt.run(...)] or
    [stmt.get(...)] returns therefore holds the statement object: no
    [lastID] is set on it yet and it carries no column of a row.  The
    statement itself still runs; the embedding applies its effect on the
    database where it is issued.
  - Store statements succeed (no I/O failure of the database file); the
    only failing external call is the message send, whose outcome is an
    argument of the functions that perform it.
  - Outside the embedding: a cron pattern that the cron library refuses
    ([cron.schedule] throws), and a date outside the years 0000 to 9999
    ([toISOString] writes another format, or throws).  Statements that
    depend on either carry the restriction as a hypothesis: the time and
    days pass the checks of the slash commands, the cutoff of a rotation
    lies between 1970 and the year 10000.
  - A JavaScript process reads a timestamp of the store as local time.
    The listing and its theorems are those of a process in UTC, except
    where a zone is given ([Clock.Date_getTime_in], [Dashboard.queryLogs_in]). *)

From Stdlib Require Import ZArith Lia List Ascii String Bool.
From Stdlib Require OrderedTypeEx.
From stdpp Require Import base list gmap strings sorting.

Import ListNotations.
Local Open Scope string_scope.
Local Open Scope Z_scope.

(** ** JavaScript text primitives used by the source *)

Module Js.

(** [a || b] on nullable strings: the empty string is falsy. *)
Definition or_null (o : option string) : option string :=
  match o with
  | Some EmptyString => None
  | _ => o
  end.

(** [a || null] on nullable integers: zero is falsy. *)
Definition or_null_int (o : option Z) : option Z :=
  match o with
  | Some 0 => None
  | _ => o
  end.

(** Truthiness of a string value. *)
Definition truthy (s : string) : bool :=
  match s with EmptyString => false | _ => true end.

Definition is_digit (c : ascii) : bool :=
  let n := Z.of_N (N_of_ascii c) in (48 <=? n) && (n <=? 57).

Definition digit_val (c : ascii) : Z := Z.of_N (N_of_ascii c) - 48.

Definition digit_char (d : Z) : ascii := ascii_of_N (Z.to_N (d + 48)).

(** Hexadecimal digit value, for [parseInt] on a [0x] prefix. *)
Definition hex_val (c : ascii) : option Z :=
  let n := Z.of_N (N_of_ascii c) in
  if (48 <=? n) && (n <=? 57) then Some (n - 48)
  else if (97 <=? n) && (n <=? 102) then Some (n - 87)
  else if (65 <=? n) && (n <=? 70) then Some (n - 55)
  else None.

(** ASCII white space (the part of the JavaScript WhiteSpace and
    LineTerminator classes that fits in one byte). *)
Definition is_space (c : ascii) : bool :=
  let n := Z.of_N (N_of_ascii c) in
  (n =? 32) || ((9 <=? n) && (n <=? 13)).

Fixpoint trim_start (s : string) : string :=
  match s with
  | String c s' => if is_space c then trim_start s' else s
  | EmptyString => EmptyString
  end.

Fixpoint rev_string_acc (s acc : string) : string :=
  match s with
  | EmptyString => acc
  | String c s' => rev_string_acc s' (String c acc)
  end.

Definition rev_string (s : string) : string := rev_string_acc s EmptyString.

(** [s.trim()] *)
Definition trim (s : string) : string :=
  rev_string (trim_start (rev_string (trim_start s))).

(** [s.split(c)] for a one-character separator; never the empty list. *)
Fixpoint split (sep : ascii) (s : string) : list string :=
  match s with
  | EmptyString => [EmptyString]
  | String c s' =>
      if Ascii.eqb c sep then EmptyString :: split sep s'
      else match split sep s' with
           | p :: ps => String c p :: ps
           | [] => [String c EmptyString]
           end
  end.

(** Longest prefix of decimal digits, accumulated from the left.  The
    flag tells whether at least one digit was read. *)
Fixpoint parse_digits (seen : bool) (acc : Z) (s : string) : option Z :=
  match s with
  | String c s' =>
      if is_digit c then parse_digits true (acc * 10 + digit_val c) s'
      else if seen then Some acc else None
  | EmptyString => if seen then Some acc else None
  end.

Fixpoint parse_hex_digits (seen : bool) (acc : Z) (s : string) : option Z :=
  match s with
  | String c s' =>
      match hex_val c with
      | Some d => parse_hex_digits true (acc * 16 + d) s'
      | None => if seen then Some acc else None
      end
  | EmptyString => if seen then Some acc else None
  end.

(** After the sign: a [0x]/[0X] prefix switches to radix 16. *)
Definition parse_magnitude (s : string) : option Z :=
  match s with
  | String "0" (String "x" s') => parse_hex_digits false 0 s'
  | String "0" (String "X" s') => parse_hex_digits false 0 s'
  | _ => parse_digits false 0 s
  end.

(** [parseInt(s)] with no radix argument; [None] is NaN.  Integers are
    unbounded here (no rounding to a double), and the white space skipped
    is that of one byte (JavaScript also skips the white space characters
    of several bytes). *)
Definition parseInt (s : string) : option Z :=
  match trim_start s with
  | String "-" s' => Z.opp <$> parse_magnitude s'
  | String "+" s' => parse_magnitude s'
  | s' => parse_magnitude s'
  end.

(** Decimal digits of a non-negative integer, most significant first,
    in front of [rest]. *)
Fixpoint show_digits (fuel : nat) (n : Z) (rest : string) : string :=
  match fuel with
  | O => rest
  | S fuel' =>
      if n <? 10 then String (digit_char n) rest
      else show_digits fuel' (n / 10) (String (digit_char (n mod 10)) rest)
  end.

(** The text of an integer inside a template literal. *)
Definition show_Z (z : Z) : string :=
  if z <? 0 then String "-" (show_digits (S (Z.to_nat (Z.log2 (- z)))) (- z) EmptyString)
  else show_digits (S (Z.to_nat (Z.log2 z))) z EmptyString.

(** The text of a number that may be [undefined], as a template literal
    prints it. *)
Definition show_id (o : option Z) : string :=
  match o with
  | Some z => show_Z z
  | None => "undefined"
  end.

End Js.


(** ** Calendar arithmetic and the two timestamp formats

    SQLite's [CURRENT_TIMESTAMP] writes ["YYYY-MM-DD HH:MM:SS"] (UTC);
    [Date.prototype.toISOString] writes ["YYYY-MM-DDTHH:MM:SS.mmmZ"].
    Instants are integers: seconds since the epoch for the store's clock,
    milliseconds for a JavaScript [Date].  Years stay within 0000..9999 and
    the process's time zone is UTC (a fixed offset would shift every parsed
    value alike). *)

Module Clock.

Definition is_leap (y : Z) : bool :=
  ((y mod 4 =? 0) && negb (y mod 100 =? 0)) || (y mod 400 =? 0).

Definition days_in_month (y m : Z) : Z :=
  if m =? 2 then (if is_leap y then 29 else 28)
  else if (m =? 4) || (m =? 6) || (m =? 9) || (m =? 11) then 30
  else 31.

(** Days of the year that precede the first of month [m]. *)
Definition days_before_month (y m : Z) : Z :=
  let base :=
    if m =? 1 then 0 else if m =? 2 then 31 else if m =? 3 then 59
    else if m =? 4 then 90 else if m =? 5 then 120 else if m =? 6 then 151
    else if m =? 7 then 181 else if m =? 8 then 212 else if m =? 9 then 243
    else if m =? 10 then 273 else if m =? 11 then 304 else 334 in
  if (2 <? m) && is_leap y then base + 1 else base.

(** Days from 1970-01-01 to the first of January of year [y]. *)
Definition days_before_year (y : Z) : Z :=
  365 * (y - 1970) + (y - 1969) / 4 - (y - 1901) / 100 + (y - 1601) / 400.

Definition days_from_civil (y m d : Z) : Z :=
  days_before_year y + days_before_month y m + (d - 1).

(** The civil date of a day number (days since 1970-01-01). *)
Definition civil_from_days (days : Z) : Z * Z * Z :=
  let z := days + 719468 in
  let era := z / 146097 in
  let doe := z - era * 146097 in
  let yoe := (doe - doe / 1460 + doe / 36524 - doe / 146096) / 365 in
  let doy := doe - (365 * yoe + yoe / 4 - yoe / 100) in
  let mp := (5 * doy + 2) / 153 in
  let d := doy - (153 * mp + 2) / 5 + 1 in
  let m := if mp <? 10 then mp + 3 else mp - 9 in
  let y := yoe + era * 400 + (if m <=? 2 then 1 else 0) in
  (y, m, d).

Definition pad2 (n : Z) : string :=
  String (Js.digit_char (n / 10 mod 10)) (String (Js.digit_char (n mod 10)) EmptyString).

Definition pad3 (n : Z) : string :=
  String (Js.digit_char (n / 100 mod 10)) (pad2 n).

Definition pad4 (n : Z) : string :=
  String (Js.digit_char (n / 1000 mod 10)) (pad3 n).

Definition date_text (days : Z) : string :=
  let '(y, m, d) := civil_from_days days in
  pad4 y ++ "-" ++ pad2 m ++ "-" ++ pad2 d.

Definition time_text (sod : Z) : string :=
  pad2 (sod / 3600) ++ ":" ++ pad2 (sod / 60 mod 60) ++ ":" ++ pad2 (sod mod 60).

(** The text SQLite stores for [DEFAULT CURRENT_TIMESTAMP] at epoch second
    [t]. *)
Definition current_timestamp (t : Z) : string :=
  date_text (t / 86400) ++ " " ++ time_text (t mod 86400).

(** [new Date(ms).toISOString()] for an instant of the years 0000 to
    9999 (outside them JavaScript writes a signed year of six digits, and
    it throws on an invalid date; statements about texts made here carry
    the range as a hypothesis). *)
Definition toISOString (ms : Z) : string :=
  let t := ms / 1000 in
  date_text (t / 86400) ++ "T" ++ time_text (t mod 86400) ++ "." ++ pad3 (ms mod 1000) ++ "Z".

Definition num2 (a b : ascii) : Z := 10 * Js.digit_val a + Js.digit_val b.

Definition num4 (a b c d : ascii) : Z :=
  1000 * Js.digit_val a + 100 * Js.digit_val b + 10 * Js.digit_val c + Js.digit_val d.

Definition valid_civil (y m d : Z) : bool :=
  (1 <=? m) && (m <=? 12) && (1 <=? d) && (d <=? days_in_month y m).

Definition valid_clock (h n s : Z) : bool :=
  (h <=? 23) && (n <=? 59) && (s <=? 59).

(** The six numbers of a text of the shape ["YYYY-MM-DD HH:MM:SS"]. *)
Definition stamp_fields (text : string) : option (Z * Z * Z * Z * Z * Z) :=
  match list_ascii_of_string text with
  | [y1; y2; y3; y4; c1; m1; m2; c2; d1; d2; c3; h1; h2; c4; n1; n2; c5; s1; s2] =>
      if forallb Js.is_digit [y1; y2; y3; y4; m1; m2; d1; d2; h1; h2; n1; n2; s1; s2]
         && Ascii.eqb c1 "-" && Ascii.eqb c2 "-" && Ascii.eqb c3 " "
         && Ascii.eqb c4 ":" && Ascii.eqb c5 ":"
      then Some (num4 y1 y2 y3 y4, num2 m1 m2, num2 d1 d2,
                 num2 h1 h2, num2 n1 n2, num2 s1 s2)
      else None
  | _ => None
  end.

Definition valid_fields (f : Z * Z * Z * Z * Z * Z) : bool :=
  let '(y, m, d, h, n, s) := f in valid_civil y m d && valid_clock h n s.

Definition epoch_ms (f : Z * Z * Z * Z * Z * Z) : Z :=
  let '(y, m, d, h, n, s) := f in
  (days_from_civil y m d * 86400 + h * 3600 + n * 60 + s) * 1000.

(** [new Date(text).getTime()] on the store's timestamp format, in a
    process whose time zone is UTC; [None] is NaN (an invalid date).  Only
    the format the store writes is recognised, with a real calendar date
    (the store writes no other). *)
Definition Date_getTime (text : string) : option Z :=
  match stamp_fields text with
  | Some f => if valid_fields f then Some (epoch_ms f) else None
  | None => None
  end.

(** A time zone, as a JavaScript process sees it: the offset from UTC, in
    milliseconds, that holds at a local wall-clock time (given as the
    milliseconds that the wall clock would show in UTC).  A wall-clock time
    that the zone skips or repeats at a change of its clocks is read with
    the offset before the change. *)
Record Zone := { offset_at_local : Z -> Z }.

Definition utc : Zone := {| offset_at_local := fun _ => 0 |}.

(** [new Date(text).getTime()] in a process of time zone [zone]: the text
    of the store names no zone, so it is read as local time. *)
Definition Date_getTime_in (zone : Zone) (text : string) : option Z :=
  match stamp_fields text with
  | Some f =>
      if valid_fields f
      then Some (epoch_ms f - offset_at_local zone (epoch_ms f))
      else None
  | None => None
  end.

(** [d.setDate(d.getDate() - n)] moves a date by whole days (in UTC). *)
Definition minus_days (ms n : Z) : Z := ms - n * 86400000.

End Clock.

(** ** The persistent store ([bot/database.js])

    The tables after [initTables] (table creation followed by the column
    migrations).  Rows are kept in insertion order; every table has the
    counter of its AUTOINCREMENT key. *)

Module Store.

Record Task := {
  task_id : Z;
  task_content : string;
  task_channel_id : string;
  task_user_id : string;
  task_time : string;
  task_days : option string;
  task_created_at : string;
  task_active : Z;
  task_updated_at : option string
}.

Record Reminder := {
  rem_id : Z;
  rem_content : string;
  rem_channel_id : string;
  rem_user_id : string;
  rem_time : string;
  rem_created_at : string;
  rem_active : Z;
  rem_updated_at : option string
}.

Record SendLog := {
  sl_id : Z;
  sl_kind : string;
  sl_source : option string;
  sl_channel_id : option string;
  sl_user_id : option string;
  sl_content : option string;
  sl_status : string;
  sl_error : option string;
  sl_message_id : option string;
  sl_ref_id : option Z;
  sl_sent_at : string;
  sl_retry_count : Z
}.

Record ActivityLog := {
  al_id : Z;
  al_kind : string;
  al_source : option string;
  al_channel_id : option string;
  al_user_id : option string;
  al_status : option string;
  al_error : option string;
  al_message_id : option string;
  al_ref_id : option Z;
  al_action : option string;
  al_emoji : option string;
  al_created_at : string;
  al_metadata : option string
}.

Record RotationMarker := {
  rm_id : Z;
  rm_table_name : string;
  rm_rotated_at : string;
  rm_records_archived : Z
}.

Record Db := {
  tasks : list Task;
  reminders : list Reminder;
  send_logs : list SendLog;
  activity_logs : list ActivityLog;
  log_rotation : list RotationMarker;
  seq_tasks : Z;
  seq_reminders : Z;
  seq_send_logs : Z;
  seq_activity_logs : Z;
  seq_log_rotation : Z
}.

Definition empty_db : Db :=
  {| tasks := []; reminders := []; send_logs := []; activity_logs := [];
     log_rotation := []; seq_tasks := 0; seq_reminders := 0;
     seq_send_logs := 0; seq_activity_logs := 0; seq_log_rotation := 0 |}.

(** The [data] object handed to [logSend]; an absent property is [None]. *)
Record SendData := {
  sd_source : option string;
  sd_channel_id : option string;
  sd_user_id : option string;
  sd_content : option string;
  sd_status : option string;
  sd_error : option string;
  sd_message_id : option string;
  sd_ref_id : option Z;
  sd_retry_count : option Z
}.

Definition no_send_data : SendData :=
  {| sd_source := None; sd_channel_id := None; sd_user_id := None;
     sd_content := None; sd_status := None; sd_error := None;
     sd_message_id := None; sd_ref_id := None; sd_retry_count := None |}.

(** The [data] object handed to [logActivity]; [ad_metadata] is the JSON
    text of the metadata object. *)
Record ActivityData := {
  ad_source : option string;
  ad_channel_id : option string;
  ad_user_id : option string;
  ad_status : option string;
  ad_error : option string;
  ad_message_id : option string;
  ad_ref_id : option Z;
  ad_action : option string;
  ad_emoji : option string;
  ad_metadata : option string
}.

Definition no_activity_data : ActivityData :=
  {| ad_source := None; ad_channel_id := None; ad_user_id := None;
     ad_status := None; ad_error := None; ad_message_id := None;
     ad_ref_id := None; ad_action := None; ad_emoji := None;
     ad_metadata := None |}.

Definition with_send_logs (db : Db) (rows : list SendLog) (seq : Z) : Db :=
  {| tasks := tasks db; reminders := reminders db; send_logs := rows;
     activity_logs := activity_logs db; log_rotation := log_rotation db;
     seq_tasks := seq_tasks db; seq_reminders := seq_reminders db;
     seq_send_logs := seq; seq_activity_logs := seq_activity_logs db;
     seq_log_rotation := seq_log_rotation db |}.

Definition with_activity_logs (db : Db) (rows : list ActivityLog) (seq : Z) : Db :=
  {| tasks := tasks db; reminders := reminders db; send_logs := send_logs db;
     activity_logs := rows; log_rotation := log_rotation db;
     seq_tasks := seq_tasks db; seq_reminders := seq_reminders db;
     seq_send_logs := seq_send_logs db; seq_activity_logs := seq;
     seq_log_rotation := seq_log_rotation db |}.

Definition with_log_rotation (db : Db) (rows : list RotationMarker) (seq : Z) : Db :=
  {| tasks := tasks db; reminders := reminders db; send_logs := send_logs db;
     activity_logs := activity_logs db; log_rotation := rows;
     seq_tasks := seq_tasks db; seq_reminders := seq_reminders db;
     seq_send_logs := seq_send_logs db; seq_activity_logs := seq_activity_logs db;
     seq_log_rotation := seq |}.

Definition with_tasks (db : Db) (rows : list Task) (seq : Z) : Db :=
  {| tasks := rows; reminders := reminders db; send_logs := send_logs db;
     activity_logs := activity_logs db; log_rotation := log_rotation db;
     seq_tasks := seq; seq_reminders := seq_reminders db;
     seq_send_logs := seq_send_logs db; seq_activity_logs := seq_activity_logs db;
     seq_log_rotation := seq_log_rotation db |}.

Definition with_reminders (db : Db) (rows : list Reminder) (seq : Z) : Db :=
  {| tasks := tasks db; reminders := rows; send_logs := send_logs db;
     activity_logs := activity_logs db; log_rotation := log_rotation db;
     seq_tasks := seq_tasks db; seq_reminders := seq;
     seq_send_logs := seq_send_logs db; seq_activity_logs := seq_activity_logs db;
     seq_log_rotation := seq_log_rotation db |}.

(** [logSend(kind, data)]: one INSERT into [send_logs]; [now] is the
    instant (milliseconds) at which the statement runs. *)
Definition logSend (kind : string) (data : SendData) (now : Z) (db : Db) : Db :=
  let id := seq_send_logs db + 1 in
  with_send_logs db
    (send_logs db ++
     [{| sl_id := id;
         sl_kind := kind;
         sl_source := Js.or_null (sd_source data);
         sl_channel_id := Js.or_null (sd_channel_id data);
         sl_user_id := Js.or_null (sd_user_id data);
         sl_content := Js.or_null (sd_content data);
         sl_status := default "success" (Js.or_null (sd_status data));
         sl_error := Js.or_null (sd_error data);
         sl_message_id := Js.or_null (sd_message_id data);
         sl_ref_id := Js.or_null_int (sd_ref_id data);
         sl_sent_at := Clock.current_timestamp (now / 1000);
         sl_retry_count := default 0 (Js.or_null_int (sd_retry_count data)) |}])
    id.

(** [logActivity(kind, data)]: one INSERT into [activity_logs]. *)
Definition logActivity (kind : string) (data : ActivityData) (now : Z) (db : Db) : Db :=
  let id := seq_activity_logs db + 1 in
  with_activity_logs db
    (activity_logs db ++
     [{| al_id := id;
         al_kind := kind;
         al_source := Js.or_null (ad_source data);
         al_channel_id := Js.or_null (ad_channel_id data);
         al_user_id := Js.or_null (ad_user_id data);
         al_status := Some (default "success" (Js.or_null (ad_status data)));
         al_error := Js.or_null (ad_error data);
         al_message_id := Js.or_null (ad_message_id data);
         al_ref_id := Js.or_null_int (ad_ref_id data);
         al_action := Js.or_null (ad_action data);
         al_emoji := Js.or_null (ad_emoji data);
         al_created_at := Clock.current_timestamp (now / 1000);
         al_metadata := ad_metadata data |}])
    id.

(** [sent_at < ?] and [created_at < ?]: comparison of TEXT values. *)
Definition send_older (cutoff : string) (r : SendLog) : bool :=
  String.ltb (sl_sent_at r) cutoff.

Definition activity_older (cutoff : string) (r : ActivityLog) : bool :=
  String.ltb (al_created_at r) cutoff.

(** [rotateLogs(maxAge)]: the value the promise resolves to, and the store
    afterwards, for a cutoff instant of the years 0000 to 9999, where
    [toISOString] writes the text below (on an invalid cutoff date it
    throws and the promise rejects; statements about the rotation carry
    the range of the cutoff as a hypothesis where it matters). *)
Definition rotateLogs (maxAge : Z) (now : Z) (db : Db) : Z * Db :=
  let cutoffString := Clock.toISOString (Clock.minus_days now maxAge) in
  let sendLogsCount :=
    Z.of_nat (length (List.filter (send_older cutoffString) (send_logs db))) in
  let activityLogsCount :=
    Z.of_nat (length (List.filter (activity_older cutoffString) (activity_logs db))) in
  let archived := sendLogsCount + activityLogsCount in
  if archived =? 0 then (0, db)
  else
    let db1 :=
      with_send_logs db
        (List.filter (fun r => negb (send_older cutoffString r)) (send_logs db))
        (seq_send_logs db) in
    let db2 :=
      with_activity_logs db1
        (List.filter (fun r => negb (activity_older cutoffString r)) (activity_logs db1))
        (seq_activity_logs db1) in
    let id := seq_log_rotation db2 + 1 in
    let db3 :=
      with_log_rotation db2
        (log_rotation db2 ++
         [{| rm_id := id;
             rm_table_name := "logs_combined";
             rm_rotated_at := Clock.current_timestamp (now / 1000);
             rm_records_archived := archived |}])
        id in
    (archived, db3).

(** INSERT INTO reminders (content, channel_id, user_id, time) *)
Definition insert_reminder (content channel_id user_id time : string) (now : Z)
    (db : Db) : Db :=
  let id := seq_reminders db + 1 in
  with_reminders db
    (reminders db ++
     [{| rem_id := id; rem_content := content; rem_channel_id := channel_id;
         rem_user_id := user_id; rem_time := time;
         rem_created_at := Clock.current_timestamp (now / 1000);
         rem_active := 1; rem_updated_at := None |}])
    id.

(** INSERT INTO tasks (content, channel_id, user_id, time, days) *)
Definition insert_task (content channel_id user_id time : string)
    (days : option string) (now : Z) (db : Db) : Db :=
  let id := seq_tasks db + 1 in
  with_tasks db
    (tasks db ++
     [{| task_id := id; task_content := content; task_channel_id := channel_id;
         task_user_id := user_id; task_time := time; task_days := days;
         task_created_at := Clock.current_timestamp (now / 1000);
         task_active := 1; task_updated_at := None |}])
    id.

(** SELECT ... FROM reminders WHERE id = ? AND user_id = ? *)
Definition get_reminder_of (id : Z) (user_id : string) (db : Db) : option Reminder :=
  List.find (fun r => (rem_id r =? id) && String.eqb (rem_user_id r) user_id)
    (reminders db).

(** SELECT * FROM reminders WHERE id = ? *)
Definition get_reminder (id : Z) (db : Db) : option Reminder :=
  List.find (fun r => rem_id r =? id) (reminders db).

(** SELECT * FROM tasks WHERE id = ? *)
Definition get_task (id : Z) (db : Db) : option Task :=
  List.find (fun r => task_id r =? id) (tasks db).

(** DELETE FROM reminders WHERE id = ? *)
Definition delete_reminder (id : Z) (db : Db) : Db :=
  with_reminders db
    (List.filter (fun r => negb (rem_id r =? id)) (reminders db))
    (seq_reminders db).

(** SELECT * FROM send_logs WHERE id = ? AND status = "failed" *)
Definition get_failed_send_log (id : Z) (db : Db) : option SendLog :=
  List.find (fun r => (sl_id r =? id) && String.eqb (sl_status r) "failed")
    (send_logs db).

End Store.

(** ** The bot process: scheduler registry, delivery, HTTP API and slash
    commands *)

Module Bot.

Import Store.

Inductive Kind := KReminder | KTask.

(** A task object made by [cron.schedule]: the data its callback closes
    over (the [id] it was scheduled with is a number or [undefined]), the
    [time] and [days] texts its cron pattern is built from
    ([minutes hours * * *], or [minutes hours * * days]), and whether it is
    running. *)
Record CronJob := {
  job_kind : Kind;
  job_ref : option Z;
  job_content : string;
  job_channel : string;
  job_user : string;
  job_time : string;
  job_days : option string;
  job_running : bool
}.

(** What [channel.send] does: resolve with a message, or reject. *)
Inductive SendOutcome :=
| Delivered (message_id : string)
| Rejected (error_message : string).

(** The texts of [interaction.editReply]. *)
Inductive Reply :=
| InvalidTimeFormat
| InvalidDaysFormat
| TaskAdded (content time : string) (days : option string)
| ReminderAdded (content time : string)
| ReminderNotFound
| ReminderDeleted (content : option string) (id : Z).

(** Effects whose order matters to a caller, in the order the handler causes
    them ([EvRowDeleted]: the DELETE statement for the row is issued). *)
Inductive Event :=
| EvReply (r : Reply)
| EvRowDeleted (k : Kind) (id : Z)
| EvJobStarted (handle : nat)
| EvJobStopped (handle : nat).

(** The process state: the database, the [cronJobs] map from key to task
    object (a handle into [jobs], the task objects ever created), the
    channel cache of the client, the shared secret, and the effects so
    far. *)
Record State := {
  db : Db;
  cronJobs : gmap string nat;
  jobs : list CronJob;
  channels : list string;
  LOGS_TOKEN : option string;
  effects : list Event
}.

Definition with_db (b : State) (d : Db) : State :=
  {| db := d; cronJobs := cronJobs b; jobs := jobs b; channels := channels b;
     LOGS_TOKEN := LOGS_TOKEN b; effects := effects b |}.

Definition with_cronJobs (b : State) (m : gmap string nat) : State :=
  {| db := db b; cronJobs := m; jobs := jobs b; channels := channels b;
     LOGS_TOKEN := LOGS_TOKEN b; effects := effects b |}.

Definition with_jobs (b : State) (js : list CronJob) : State :=
  {| db := db b; cronJobs := cronJobs b; jobs := js; channels := channels b;
     LOGS_TOKEN := LOGS_TOKEN b; effects := effects b |}.

Definition emit (e : Event) (b : State) : State :=
  {| db := db b; cronJobs := cronJobs b; jobs := jobs b; channels := channels b;
     LOGS_TOKEN := LOGS_TOKEN b; effects := effects b ++ [e] |}.

Definition set_running (r : bool) (j : CronJob) : CronJob :=
  {| job_kind := job_kind j; job_ref := job_ref j; job_content := job_content j;
     job_channel := job_channel j; job_user := job_user j; job_time := job_time j;
     job_days := job_days j; job_running := r |}.

(** What a handler holds after [stmt.run(...)] or [stmt.get(...)] returned:
    the statement object the call was made on.  Its [lastID] is set when
    the statement has run, after the handler's synchronous code, and the
    row that [get] finds goes to a callback, not to the object. *)
Inductive Statement := statement.

(** [result.lastID] read right after [run] returned. *)
Definition lastID (s : Statement) : option Z := None.

(** [reminder.content] read on the object that [get] returned. *)
Definition column (name : string) (s : Statement) : option string := None.

(** An object is truthy. *)
Definition is_truthy (s : Statement) : bool := true.

(** [stmt.run(...)]: the statement takes effect on the database; the
    caller gets the statement object. *)
Definition stmt_run (statement_effect : Db -> Db) (b : State) : Statement * State :=
  (statement, with_db b (statement_effect (db b))).

(** [stmt.get(...)] without a callback: the query changes nothing and its
    row reaches nobody; the caller gets the statement object. *)
Definition stmt_get {A : Type} (query : Db -> option A) (b : State) : Statement :=
  statement.

(** [cron.schedule(pattern, callback, { scheduled: false })] for a pattern
    that the cron library accepts.  The callers build the pattern from
    [Number] of the two parts of [time] (a floating-point value for an
    arbitrary text) and [parseInt] of the parts of [days]; a time and days
    that pass the checks of the slash commands give an accepted pattern.
    On a pattern it refuses the library throws before a task object is
    made; that path is outside this embedding, and statements about
    registration carry the acceptance as a hypothesis. *)
Definition cron_schedule (j : CronJob) (b : State) : nat * State :=
  (length (jobs b), with_jobs b (jobs b ++ [set_running false j])).

(** [job.start()] *)
Definition job_start (h : nat) (b : State) : State :=
  emit (EvJobStarted h) (with_jobs b (alter (set_running true) h (jobs b))).

(** [job.stop()] *)
Definition job_stop (h : nat) (b : State) : State :=
  emit (EvJobStopped h) (with_jobs b (alter (set_running false) h (jobs b))).

Definition reminder_key (id : option Z) : string := "reminder_" ++ Js.show_id id.
Definition task_key (id : option Z) : string := "task_" ++ Js.show_id id.

Definition job_key (k : Kind) (id : option Z) : string :=
  match k with KReminder => reminder_key id | KTask => task_key id end.

Definition kind_name (k : Kind) : string :=
  match k with KReminder => "reminder" | KTask => "task" end.

Definition reminder_text (content : string) : string := "⏰ **Reminder:** " ++ content.
Definition task_text (content : string) : string := "📝 **Task:** " ++ content.

Definition job_text (j : CronJob) : string :=
  match job_kind j with
  | KReminder => reminder_text (job_content j)
  | KTask => task_text (job_content j)
  end.

(** [client.channels.cache.get(id)] finds a channel. *)
Definition channel_cached (id : string) (b : State) : bool :=
  existsb (String.eqb id) (channels b).

(** [scheduleReminder(id, content, channelId, userId, time)] *)
Definition scheduleReminder (id : option Z) (content channelId userId time : string)
    (b : State) : State :=
  let '(job, b1) :=
    cron_schedule
      {| job_kind := KReminder; job_ref := id; job_content := content;
         job_channel := channelId; job_user := userId; job_time := time;
         job_days := None; job_running := false |} b in
  let b2 := with_cronJobs b1 (<[reminder_key id := job]> (cronJobs b1)) in
  job_start job b2.

(** [scheduleTask(id, content, channelId, userId, time, days)]; a falsy
    [days] gives the daily pattern. *)
Definition scheduleTask (id : option Z) (content channelId userId time : string)
    (days : option string) (b : State) : State :=
  let '(job, b1) :=
    cron_schedule
      {| job_kind := KTask; job_ref := id; job_content := content;
         job_channel := channelId; job_user := userId; job_time := time;
         job_days := Js.or_null days; job_running := false |} b in
  let b2 := with_cronJobs b1 (<[task_key id := job]> (cronJobs b1)) in
  job_start job b2.

(** The callback given to [cron.schedule], run at a scheduled instant;
    [out] is what [channel.send] does if it is called. *)
Definition run_callback (j : CronJob) (out : SendOutcome) (now : Z) (b : State) : State :=
  if channel_cached (job_channel j) b then
    match out with
    | Delivered message_id =>
        with_db b
          (logSend (kind_name (job_kind j))
             {| sd_source := Some "cron";
                sd_channel_id := Some (job_channel j);
                sd_user_id := Some (job_user j);
                sd_content := Some (job_text j);
                sd_status := Some "sent";
                sd_error := None;
                sd_message_id := Some message_id;
                sd_ref_id := job_ref j;
                sd_retry_count := None |} now (db b))
    | Rejected error_message =>
        with_db b
          (logSend (kind_name (job_kind j))
             {| sd_source := Some "cron";
                sd_channel_id := Some (job_channel j);
                sd_user_id := Some (job_user j);
                sd_content := Some (job_text j);
                sd_status := Some "failed";
                sd_error := Some error_message;
                sd_message_id := None;
                sd_ref_id := job_ref j;
                sd_retry_count := None |} now (db b))
    end
  else b.

(** The task object [h] reaches a scheduled instant: a running task runs
    its callback, a stopped one does nothing. *)
Definition fire (h : nat) (out : SendOutcome) (now : Z) (b : State) : State :=
  match jobs b !! h with
  | Some j => if job_running j then run_callback j out now b else b
  | None => b
  end.

(** [loadScheduledItems()]: every reminder row, then every task row. *)
Definition loadScheduledItems (b : State) : State :=
  let b1 :=
    fold_left
      (fun acc r =>
         scheduleReminder (Some (rem_id r)) (rem_content r) (rem_channel_id r)
           (rem_user_id r) (rem_time r) acc)
      (reminders (db b)) b in
  fold_left
    (fun acc t =>
       scheduleTask (Some (task_id t)) (task_content t) (task_channel_id t)
         (task_user_id t) (task_time t) (task_days t) acc)
    (tasks (db b)) b1.


(** *** HTTP API of the bot *)

Inductive Body :=
| ErrorBody (error : string)
| AddedBody (message : string) (id : option Z)
| SentBody (message : string) (message_id : string).

Record Response := { http_status : Z; http_body : Body }.

(** [authenticateLogsToken]: the header must equal the configured secret
    (an absent header and an absent secret are both [undefined]). *)
Definition token_ok (token : option string) (b : State) : bool :=
  match token, LOGS_TOKEN b with
  | Some t, Some e => String.eqb t e
  | None, None => true
  | _, _ => false
  end.

Definition unauthorized : Response :=
  {| http_status := 401; http_body := ErrorBody "Unauthorized" |}.

(** POST /add-reminder, for a [time] whose pattern the cron library
    accepts.  On a refused pattern [scheduleReminder] throws after the
    INSERT is issued and the handler's [catch] answers 500: there the
    definition is right about the [reminders] and [tasks] tables, and not
    about the answer, the registry and the activity log. *)
Definition add_reminder (token : option string)
    (content channel_id user_id time : string) (now : Z) (b : State)
    : Response * State :=
  if negb (token_ok token b) then (unauthorized, b)
  else
    let '(result, b0) :=
      stmt_run (insert_reminder content channel_id user_id time now) b in
    let b1 := scheduleReminder (lastID result) content channel_id user_id time b0 in
    let b2 :=
      with_db b1
        (logActivity "activity:reminder_added"
           {| ad_source := Some "http_api"; ad_channel_id := Some channel_id;
              ad_user_id := Some user_id; ad_status := None; ad_error := None;
              ad_message_id := None; ad_ref_id := lastID result;
              ad_action := None; ad_emoji := None; ad_metadata := None |}
           now (db b1)) in
    ({| http_status := 200; http_body := AddedBody "Reminder added" (lastID result) |}, b2).

(** POST /add-task, for a [time] and [days] whose pattern the cron library
    accepts.  On a refused pattern [scheduleTask] throws after the INSERT
    is issued and the handler's [catch] answers 500: there the definition
    is right about the [reminders] and [tasks] tables, and not about the
    answer, the registry and the activity log. *)
Definition add_task (token : option string)
    (content channel_id user_id time : string) (days : option string)
    (now : Z) (b : State) : Response * State :=
  if negb (token_ok token b) then (unauthorized, b)
  else
    let '(result, b0) :=
      stmt_run (insert_task content channel_id user_id time (Js.or_null days) now) b in
    let b1 := scheduleTask (lastID result) content channel_id user_id time days b0 in
    let b2 :=
      with_db b1
        (logActivity "activity:task_added"
           {| ad_source := Some "http_api"; ad_channel_id := Some channel_id;
              ad_user_id := Some user_id; ad_status := None; ad_error := None;
              ad_message_id := None; ad_ref_id := lastID result;
              ad_action := None; ad_emoji := None; ad_metadata := None |}
           now (db b1)) in
    ({| http_status := 200; http_body := AddedBody "Task added" (lastID result) |}, b2).

(** POST /send-once *)
Definition send_once (token : option string) (content channel_id : string)
    (out : SendOutcome) (now : Z) (b : State) : Response * State :=
  if negb (token_ok token b) then (unauthorized, b)
  else if negb (channel_cached channel_id b) then
    ({| http_status := 404; http_body := ErrorBody "Channel not found" |}, b)
  else
    match out with
    | Delivered message_id =>
        ({| http_status := 200; http_body := SentBody "Message sent" message_id |},
         with_db b
           (logSend "send_once"
              {| sd_source := Some "http_api";
                 sd_channel_id := Some channel_id;
                 sd_user_id := None;
                 sd_content := Some content;
                 sd_status := Some "sent";
                 sd_error := None;
                 sd_message_id := Some message_id;
                 sd_ref_id := None;
                 sd_retry_count := None |} now (db b)))
    | Rejected error_message =>
        ({| http_status := 500; http_body := ErrorBody error_message |},
         with_db b
           (logSend "send_once"
              {| sd_source := Some "http_api";
                 sd_channel_id := Some channel_id;
                 sd_user_id := None;
                 sd_content := Some content;
                 sd_status := Some "failed";
                 sd_error := Some error_message;
                 sd_message_id := None;
                 sd_ref_id := None;
                 sd_retry_count := None |} now (db b)))
    end.

(** *** Slash commands *)

(** The caller and channel of an interaction. *)
Record Interaction := { ia_user : string; ia_channel : string }.

Definition in_range (c lo hi : ascii) : bool :=
  let n := Z.of_N (N_of_ascii c) in
  (Z.of_N (N_of_ascii lo) <=? n) && (n <=? Z.of_N (N_of_ascii hi)).

(** [/^([01]?[0-9]|2[0-3]):[0-5][0-9]$/.test(time)] *)
Definition timeRegex_test (time : string) : bool :=
  match list_ascii_of_string time with
  | [h; c; m1; m2] =>
      Js.is_digit h && Ascii.eqb c ":" && in_range m1 "0" "5" && Js.is_digit m2
  | [h1; h2; c; m1; m2] =>
      ((in_range h1 "0" "1" && Js.is_digit h2)
       || (Ascii.eqb h1 "2" && in_range h2 "0" "3"))
      && Ascii.eqb c ":" && in_range m1 "0" "5" && Js.is_digit m2
  | _ => false
  end.

(** The test applied to every day token:
    [!isNaN(num) && num >= 0 && num <= 6] with [num = parseInt(day)]. *)
Definition valid_day (day : string) : bool :=
  match Js.parseInt day with
  | Some num => (0 <=? num) && (num <=? 6)
  | None => false
  end.

(** [days.split(',').map(d => d.trim()).every(...)] *)
Definition validDays (days : string) : bool :=
  forallb valid_day (List.map Js.trim (Js.split "," days)).

(** [handleAddTask(interaction)] with its three options. *)
Definition handleAddTask (ia : Interaction) (content time : string)
    (days : option string) (now : Z) (b : State) : State :=
  if negb (timeRegex_test time) then emit (EvReply InvalidTimeFormat) b
  else if match Js.or_null days with
          | Some d => negb (validDays d)
          | None => false
          end
  then emit (EvReply InvalidDaysFormat) b
  else
    let '(result, b0) :=
      stmt_run
        (insert_task content (ia_channel ia) (ia_user ia) time (Js.or_null days) now)
        b in
    let b1 :=
      scheduleTask (lastID result) content (ia_channel ia) (ia_user ia) time days
        b0 in
    let b2 :=
      with_db b1
        (logActivity "activity:task_added"
           {| ad_source := Some "discord_slash";
              ad_channel_id := Some (ia_channel ia);
              ad_user_id := Some (ia_user ia); ad_status := Some "success";
              ad_error := None; ad_message_id := None;
              ad_ref_id := lastID result; ad_action := Some "add_task";
              ad_emoji := None; ad_metadata := None |}
           now (db b1)) in
    emit (EvReply (TaskAdded content time (Js.or_null days))) b2.

(** [handleAddReminder(interaction)] with its two options. *)
Definition handleAddReminder (ia : Interaction) (content time : string)
    (now : Z) (b : State) : State :=
  if negb (timeRegex_test time) then emit (EvReply InvalidTimeFormat) b
  else
    let '(result, b0) :=
      stmt_run (insert_reminder content (ia_channel ia) (ia_user ia) time now) b in
    let b1 :=
      scheduleReminder (lastID result) content (ia_channel ia) (ia_user ia) time
        b0 in
    let b2 :=
      with_db b1
        (logActivity "activity:reminder_added"
           {| ad_source := Some "discord_slash";
              ad_channel_id := Some (ia_channel ia);
              ad_user_id := Some (ia_user ia); ad_status := Some "success";
              ad_error := None; ad_message_id := None;
              ad_ref_id := lastID result; ad_action := Some "add_reminder";
              ad_emoji := None; ad_metadata := None |}
           now (db b1)) in
    emit (EvReply (ReminderAdded content time)) b2.

(** [handleDeleteReminder(interaction)] with its [id] option.  The value
    tested by [if (!reminder)] is what [checkStmt.get(...)] returned. *)
Definition handleDeleteReminder (ia : Interaction) (reminderId : Z) (now : Z)
    (b : State) : State :=
  let reminder := stmt_get (get_reminder_of reminderId (ia_user ia)) b in
  if negb (is_truthy reminder) then emit (EvReply ReminderNotFound) b
  else
    let '(_, b0) := stmt_run (delete_reminder reminderId) b in
    let b1 := emit (EvRowDeleted KReminder reminderId) b0 in
    let cronJobKey := reminder_key (Some reminderId) in
    let b2 :=
      match cronJobs b1 !! cronJobKey with
      | Some h =>
          let b' := job_stop h b1 in
          with_cronJobs b' (delete cronJobKey (cronJobs b'))
      | None => b1
      end in
    let b3 :=
      with_db b2
        (logActivity "activity:reminder_deleted"
           {| ad_source := Some "discord_slash";
              ad_channel_id := Some (ia_channel ia);
              ad_user_id := Some (ia_user ia); ad_status := Some "success";
              ad_error := None; ad_message_id := None;
              ad_ref_id := Some reminderId;
              ad_action := Some "delete_reminder";
              ad_emoji := None; ad_metadata := None |}
           now (db b2)) in
    emit (EvReply (ReminderDeleted (column "content" reminder) reminderId)) b3.

End Bot.

(** ** The dashboard routes over the same database file *)

Module Dashboard.

Import Store.

(** *** SQL text matching *)

Definition lower (c : ascii) : ascii :=
  let n := N_of_ascii c in
  if ((65 <=? n) && (n <=? 90))%N then ascii_of_N (n + 32) else c.

(** SQLite's [LIKE]: [%] matches any run of characters, [_] any one
    character, letters match without regard to ASCII case.  Texts are
    matched byte by byte: a character is one byte (where a character
    takes several bytes, SQLite's [_] matches all of them). *)
Fixpoint like_chars (p s : list ascii) {struct p} : bool :=
  match p with
  | [] => match s with [] => true | _ :: _ => false end
  | c :: p' =>
      if Ascii.eqb c "%" then
        (fix any (t : list ascii) : bool :=
           like_chars p' t
           || match t with [] => false | _ :: t' => any t' end) s
      else
        match s with
        | [] => false
        | d :: s' =>
            (Ascii.eqb c "_" || Ascii.eqb (lower c) (lower d)) && like_chars p' s'
        end
  end.

(** [column LIKE ?] with the parameter [%needle%]. *)
Definition like (needle text : string) : bool :=
  like_chars (list_ascii_of_string ("%" ++ needle ++ "%")) (list_ascii_of_string text).

(** The same on a nullable column: NULL never satisfies a condition. *)
Definition like_null (needle : string) (text : option string) : bool :=
  match text with Some t => like needle t | None => false end.

Definition eq_null (text : option string) (value : string) : bool :=
  match text with Some t => String.eqb t value | None => false end.

(** *** GET /api/logs *)

(** A row of either query, as the route returns it. *)
Record LogRow := {
  id : Z;
  kind : string;
  source : option string;
  channel_id : option string;
  user_id : option string;
  content : option string;
  status : option string;
  error : option string;
  message_id : option string;
  ref_id : option Z;
  timestamp : string;
  log_type : string
}.

Definition of_send_log (r : SendLog) : LogRow :=
  {| id := sl_id r; kind := sl_kind r; source := sl_source r;
     channel_id := sl_channel_id r; user_id := sl_user_id r;
     content := sl_content r; status := Some (sl_status r);
     error := sl_error r; message_id := sl_message_id r;
     ref_id := sl_ref_id r; timestamp := sl_sent_at r; log_type := "send" |}.

Definition of_activity_log (r : ActivityLog) : LogRow :=
  {| id := al_id r; kind := al_kind r; source := al_source r;
     channel_id := al_channel_id r; user_id := al_user_id r;
     content := Some ""; status := al_status r;
     error := al_error r; message_id := al_message_id r;
     ref_id := al_ref_id r; timestamp := al_created_at r; log_type := "activity" |}.

(** The WHERE conditions built from the filters of the request; an empty
    filter adds no condition. *)
Definition send_conditions (kind status channel_id q : string) (r : SendLog) : bool :=
  (if Js.truthy kind then like kind (sl_kind r) else true)
  && (if Js.truthy status then String.eqb (sl_status r) status else true)
  && (if Js.truthy channel_id then eq_null (sl_channel_id r) channel_id else true)
  && (if Js.truthy q
      then like_null q (sl_content r) || like q (sl_kind r) || like_null q (sl_error r)
      else true).

Definition activity_conditions (kind status channel_id q : string) (r : ActivityLog) : bool :=
  (if Js.truthy kind then like kind (al_kind r) else true)
  && (if Js.truthy status then eq_null (al_status r) status else true)
  && (if Js.truthy channel_id then eq_null (al_channel_id r) channel_id else true)
  && (if Js.truthy q
      then like q (al_kind r) || like_null q (al_error r)
      else true).

(** [const [timestamp, id] = cursor.split('_')] followed by
    [parseInt(id)]; a missing second part parses to NaN. *)
Definition cursor_parts (cursor : string) : string * option Z :=
  match Js.split "_" cursor with
  | t :: i :: _ => (t, Js.parseInt i)
  | [t] => (t, None)
  | [] => (EmptyString, None)
  end.

(** [((ts < ?) OR (ts = ? AND id < ?))] when a cursor is given; a NaN
    parameter is bound as NULL, which no id is below. *)
Definition cursor_condition (cursor : string) (ts : string) (row_id : Z) : bool :=
  if Js.truthy cursor then
    let '(timestamp, id) := cursor_parts cursor in
    String.ltb ts timestamp
    || (String.eqb ts timestamp
        && match id with Some n => row_id <? n | None => false end)
  else true.

(** Insertion of [x], which came before every element of [l], in front of
    the first element it does not have to follow. *)
Fixpoint insert_by {A : Type} (before : A -> A -> bool) (x : A) (l : list A) : list A :=
  match l with
  | [] => [x]
  | y :: l' => if before x y then x :: l else y :: insert_by before x l'
  end.

(** A stable sort. *)
Fixpoint sort_by {A : Type} (before : A -> A -> bool) (l : list A) : list A :=
  match l with
  | [] => []
  | x :: l' => insert_by before x (sort_by before l')
  end.

(** [ORDER BY ts DESC, id DESC] *)
Definition order_desc (a b : LogRow) : bool :=
  String.ltb (timestamp b) (timestamp a)
  || (String.eqb (timestamp a) (timestamp b) && (id b <=? id a)).

Definition query_send_logs (kind status channel_id q cursor : string) (db : Db)
    : list LogRow :=
  sort_by order_desc
    (List.map of_send_log
       (List.filter
          (fun r => send_conditions kind status channel_id q r
                    && cursor_condition cursor (sl_sent_at r) (sl_id r))
          (send_logs db))).

Definition query_activity_logs (kind status channel_id q cursor : string) (db : Db)
    : list LogRow :=
  sort_by order_desc
    (List.map of_activity_log
       (List.filter
          (fun r => activity_conditions kind status channel_id q r
                    && cursor_condition cursor (al_created_at r) (al_id r))
          (activity_logs db))).

(** The comparator given to [allLogs.sort]; [None] is NaN. *)
Definition compare_logs (a b : LogRow) : option Z :=
  match Clock.Date_getTime (timestamp a), Clock.Date_getTime (timestamp b) with
  | Some timestampA, Some timestampB =>
      if negb (timestampB =? timestampA) then Some (timestampB - timestampA)
      else Some (id b - id a)
  | _, _ => None
  end.

(** [Array.prototype.sort] keeps [a] before [b] when the comparator is not
    positive; a NaN result counts as zero. *)
Definition js_before (a b : LogRow) : bool :=
  match compare_logs a b with
  | Some v => v <=? 0
  | None => true
  end.

(** [l.slice(0, e)]; a NaN end is 0, a negative end counts from the back. *)
Definition slice0 {A : Type} (l : list A) (e : option Z) : list A :=
  match e with
  | None => []
  | Some e =>
      if e <? 0 then take (Z.to_nat (Z.max (Z.of_nat (length l) + e) 0)) l
      else take (Z.to_nat e) l
  end.

Record Page := {
  logs : list LogRow;
  hasMore : bool;
  nextCursor : option string
}.

Definition cursor_of (r : LogRow) : string :=
  timestamp r ++ "_" ++ Js.show_Z (id r).

(** The body of the route after the request parameters are read; [limit]
    is the result of [parseInt]. *)
Definition queryLogs (kind status channel_id q cursor : string) (limit : option Z)
    (db : Db) : Page :=
  let sendLogs := query_send_logs kind status channel_id q cursor db in
  let activityLogs := query_activity_logs kind status channel_id q cursor db in
  let allLogs := sort_by js_before (sendLogs ++ activityLogs) in
  let logs0 := slice0 allLogs ((fun l => l + 1) <$> limit) in
  let hasMore :=
    match limit with
    | Some l => l <? Z.of_nat (length logs0)
    | None => false
    end in
  let logs := if hasMore then removelast logs0 else logs0 in
  let nextCursor :=
    if hasMore then cursor_of <$> last logs else None in
  {| logs := logs; hasMore := hasMore; nextCursor := nextCursor |}.

(** [GET(request)]: absent or empty parameters fall back to [''], the limit
    to ['50']. *)
Definition GET (kind status channel_id q cursor limit : option string) (db : Db) : Page :=
  queryLogs (default "" kind) (default "" status) (default "" channel_id)
    (default "" q) (default "" cursor)
    (Js.parseInt (default "50" (Js.or_null limit))) db.

(** The client's paging loop: the first request carries no cursor, and as
    long as a page says [hasMore] the next request carries its
    [nextCursor].  [None] when [fuel] requests were not enough. *)
Fixpoint follow (fuel : nat) (kind status channel_id q : string)
    (cursor : option string) (limit : option Z) (db : Db) : option (list Page) :=
  match fuel with
  | O => None
  | S fuel' =>
      let page := queryLogs kind status channel_id q (default "" cursor) limit db in
      if hasMore page
      then cons page <$> follow fuel' kind status channel_id q (nextCursor page) limit db
      else Some [page]
  end.

(** *** The listing in a process of any time zone

    The route sorts by [new Date(a.timestamp).getTime()], which reads the
    stored text as local time.  The definitions above are those of a
    process in UTC; the following ones take the zone of the process. *)

Definition compare_logs_in (zone : Clock.Zone) (a b : LogRow) : option Z :=
  match Clock.Date_getTime_in zone (timestamp a),
        Clock.Date_getTime_in zone (timestamp b) with
  | Some timestampA, Some timestampB =>
      if negb (timestampB =? timestampA) then Some (timestampB - timestampA)
      else Some (id b - id a)
  | _, _ => None
  end.

Definition js_before_in (zone : Clock.Zone) (a b : LogRow) : bool :=
  match compare_logs_in zone a b with
  | Some v => v <=? 0
  | None => true
  end.

Definition queryLogs_in (zone : Clock.Zone) (kind status channel_id q cursor : string)
    (limit : option Z) (db : Db) : Page :=
  let sendLogs := query_send_logs kind status channel_id q cursor db in
  let activityLogs := query_activity_logs kind status channel_id q cursor db in
  let allLogs := sort_by (js_before_in zone) (sendLogs ++ activityLogs) in
  let logs0 := slice0 allLogs ((fun l => l + 1) <$> limit) in
  let hasMore :=
    match limit with
    | Some l => l <? Z.of_nat (length logs0)
    | None => false
    end in
  let logs := if hasMore then removelast logs0 else logs0 in
  let nextCursor :=
    if hasMore then cursor_of <$> last logs else None in
  {| logs := logs; hasMore := hasMore; nextCursor := nextCursor |}.

Fixpoint follow_in (zone : Clock.Zone) (fuel : nat) (kind status channel_id q : string)
    (cursor : option string) (limit : option Z) (db : Db) : option (list Page) :=
  match fuel with
  | O => None
  | S fuel' =>
      let page := queryLogs_in zone kind status channel_id q (default "" cursor) limit db in
      if hasMore page
      then cons page
             <$> follow_in zone fuel' kind status channel_id q (nextCursor page) limit db
      else Some [page]
  end.

End Dashboard.

(** ** The retry route of the dashboard: POST /api/logs/{id}/retry *)

Module Retry.

Import Store.

Inductive Body :=
| ErrorBody (error : string)
| RetryBody (message : string) (result : Bot.Body).

Record Response := { http_status : Z; http_body : Body }.

Definition error_response (code : Z) (text : string) : Response :=
  {| http_status := code; http_body := ErrorBody text |}.

(** The check on the [x-logs-token] header: a missing header is [null],
    which differs from every configured or missing secret. *)
Definition token_ok (token LOGS_TOKEN : option string) : bool :=
  match token, LOGS_TOKEN with
  | Some t, Some e => String.eqb t e
  | _, _ => false
  end.

(** The call [fetch(BOT_HTTP_BASE + '/send-once', ...)] with its payload,
    and what the route answers from the bot's response.  [reachable] tells
    whether the request gets to the bot at all. *)
Definition call_bot (LOGS_TOKEN : option string) (content channel_id : string)
    (reachable : bool) (out : Bot.SendOutcome) (now : Z) (b : Bot.State)
    : Response * Bot.State :=
  if reachable then
    let '(botResponse, b') := Bot.send_once LOGS_TOKEN content channel_id out now b in
    if (200 <=? Bot.http_status botResponse) && (Bot.http_status botResponse <=? 299)
    then ({| http_status := 200;
             http_body := RetryBody "Retry sent successfully" (Bot.http_body botResponse) |},
          b')
    else (error_response 500 "Failed to retry log entry", b')
  else (error_response 500 "Failed to retry log entry", b).

(** [POST(request, { params })]: [token] is the request header,
    [LOGS_TOKEN] the secret configured for the dashboard, [id] the path
    parameter. *)
Definition POST (token LOGS_TOKEN : option string) (id : string)
    (reachable : bool) (out : Bot.SendOutcome) (now : Z) (b : Bot.State)
    : Response * Bot.State :=
  if negb (token_ok token LOGS_TOKEN) then (error_response 401 "Unauthorized", b)
  else
    match Js.parseInt id with
    | None => (error_response 400 "Invalid log ID", b)
    | Some logId =>
        match get_failed_send_log logId (Bot.db b) with
        | None => (error_response 404 "Failed log entry not found", b)
        | Some log =>
            if String.eqb (sl_kind log) "reminder" then
              match Js.or_null_int (sl_ref_id log) with
              | None => (error_response 400 "Cannot retry: missing reference ID", b)
              | Some ref =>
                  match get_reminder ref (Bot.db b) with
                  | None => (error_response 404 "Original reminder not found", b)
                  | Some reminder =>
                      call_bot LOGS_TOKEN (Bot.reminder_text (rem_content reminder))
                        (rem_channel_id reminder) reachable out now b
                  end
              end
            else if String.eqb (sl_kind log) "task" then
              match Js.or_null_int (sl_ref_id log) with
              | None => (error_response 400 "Cannot retry: missing reference ID", b)
              | Some ref =>
                  match get_task ref (Bot.db b) with
                  | None => (error_response 404 "Original task not found", b)
                  | Some task =>
                      call_bot LOGS_TOKEN (Bot.task_text (task_content task))
                        (task_channel_id task) reachable out now b
                  end
              end
            else (error_response 400 "Cannot retry this type of log entry", b)
        end
    end.

End Retry.

(** ** Column migrations ([runMigrations], [populateUpdatedAtFields])

    Here the schema itself changes, so tables are generic: a list of column
    names and rows mapping column names to values.  Names are compared as
    written (the schema of this program is in lower case throughout). *)

Module Migration.

Inductive Value :=
| VNull
| VInt (n : Z)
| VText (s : string).

Record Table := {
  columns : list string;
  rows : list (gmap string Value)
}.

(** An error reported by the database, with its message. *)
Record SqlError := { message : string }.

(** [s.includes(needle)] *)
Fixpoint includes (needle s : string) : bool :=
  String.prefix needle s
  || match s with
     | EmptyString => false
     | String _ s' => includes needle s'
     end.

Definition has_column (c : string) (t : Table) : bool :=
  existsb (String.eqb c) (columns t).

(** ALTER TABLE [t] ADD COLUMN [c] ... DEFAULT [dflt]: existing rows read
    the default in the new column. *)
Definition add_column (t c : string) (dflt : Value) (s : gmap string Table)
    : SqlError + gmap string Table :=
  match s !! t with
  | None => inl {| message := "SQLITE_ERROR: no such table: " ++ t |}
  | Some tb =>
      if has_column c tb
      then inl {| message := "SQLITE_ERROR: duplicate column name: " ++ c |}
      else inr (<[t := {| columns := columns tb ++ [c];
                          rows := (fun r => <[c := dflt]> r) <$> rows tb |}]> s)
  end.

Definition is_null (v : option Value) : bool :=
  match v with
  | Some VNull | None => true
  | Some _ => false
  end.

(** UPDATE [t] SET [c] = [v] WHERE [c] IS NULL; a failing statement (no
    such table or column) changes nothing. *)
Definition update_where_null (t c : string) (v : Value) (s : gmap string Table)
    : gmap string Table :=
  match s !! t with
  | None => s
  | Some tb =>
      if has_column c tb
      then <[t := {| columns := columns tb;
                     rows := (fun r => if is_null (r !! c) then <[c := v]> r else r)
                             <$> rows tb |}]> s
      else s
  end.

(** One entry of the [migrations] array: its name and its ALTER TABLE
    statement. *)
Record Entry := {
  name : string;
  table : string;
  column : string;
  default_value : Value
}.

Definition migrations : list Entry :=
  [ {| name := "add_active_to_tasks"; table := "tasks";
       column := "active"; default_value := VInt 1 |};
    {| name := "add_updated_at_to_tasks"; table := "tasks";
       column := "updated_at"; default_value := VNull |};
    {| name := "add_active_to_reminders"; table := "reminders";
       column := "active"; default_value := VInt 1 |};
    {| name := "add_updated_at_to_reminders"; table := "reminders";
       column := "updated_at"; default_value := VNull |};
    {| name := "add_retry_count_to_send_logs"; table := "send_logs";
       column := "retry_count"; default_value := VInt 0 |};
    {| name := "add_metadata_to_activity_logs"; table := "activity_logs";
       column := "metadata"; default_value := VNull |} ].

(** [executeMigrations(migrations, index, resolve, reject)] from [index]
    on: [None] when [resolve] is called, the error when [reject] is. *)
Fixpoint executeMigrations (ms : list Entry) (s : gmap string Table)
    : option SqlError * gmap string Table :=
  match ms with
  | [] => (None, s)
  | migration :: rest =>
      match add_column (table migration) (column migration)
              (default_value migration) s with
      | inl err =>
          if includes "duplicate column name" (message err)
          then executeMigrations rest s
          else (Some err, s)
      | inr s' => executeMigrations rest s'
      end
  end.

(** [populateUpdatedAtFields()]; [now] is the ISO text of the current
    instant. *)
Definition populateUpdatedAtFields (now : string) (s : gmap string Table)
    : gmap string Table :=
  update_where_null "reminders" "updated_at" (VText now)
    (update_where_null "tasks" "updated_at" (VText now) s).

(** [runMigrations()] *)
Definition runMigrations (now : string) (s : gmap string Table)
    : option SqlError * gmap string Table :=
  match executeMigrations migrations s with
  | (None, s') => (None, populateUpdatedAtFields now s')
  | (Some err, s') => (Some err, s')
  end.

End Migration.

(** ** The bot process: statistics and the rotation endpoint *)

Module Maintenance.

Import Store Bot.

(** The object [getStats()] resolves to.  On the tables of [Store] the
    [tasks] table has columns, so the first query finds a row and the
    counts of tasks and reminders are those of [active = 1]. *)
Record Stats := {
  activeTasks : Z;
  activeReminders : Z;
  sendLogs : Z;
  activityLogs : Z;
  failedSends : Z
}.

Definition count {A : Type} (p : A -> bool) (l : list A) : Z :=
  Z.of_nat (length (List.filter p l)).

Definition getStats (db : Db) : Stats :=
  {| activeTasks := count (fun r => task_active r =? 1) (tasks db);
     activeReminders := count (fun r => rem_active r =? 1) (reminders db);
     sendLogs := count (fun _ => true) (send_logs db);
     activityLogs := count (fun _ => true) (activity_logs db);
     failedSends := count (fun r => String.eqb (sl_status r) "failed") (send_logs db) |}.

Inductive Body :=
| ErrorBody (error : string)
| RotatedBody (message : string) (archivedRecords maxAge : Z).

Record Response := { http_status : Z; http_body : Body }.

Definition quote : string := String "034" EmptyString.

(** [JSON.stringify({ maxAge, archivedRecords })] for two integers. *)
Definition rotation_metadata (maxAge archivedRecords : Z) : string :=
  "{" ++ quote ++ "maxAge" ++ quote ++ ":" ++ Js.show_Z maxAge ++ ","
  ++ quote ++ "archivedRecords" ++ quote ++ ":" ++ Js.show_Z archivedRecords ++ "}".

(** POST /rotate-logs; [maxAge] is the property of the request body, an
    integer when it is present, 30 when it is absent.  The rotation is
    taken to resolve (see [Store.rotateLogs]); when it rejects, the
    handler's [catch] answers 500 and logs the failure. *)
Definition rotate_logs (token : option string) (maxAge : option Z) (now : Z)
    (b : State) : Response * State :=
  if negb (token_ok token b)
  then ({| http_status := 401; http_body := ErrorBody "Unauthorized" |}, b)
  else
    let maxAge := default 30 maxAge in
    let '(archivedRecords, db1) := rotateLogs maxAge now (db b) in
    let db2 :=
      logActivity "activity:logs_rotated"
        {| ad_source := Some "http_api"; ad_channel_id := None;
           ad_user_id := None; ad_status := Some "success"; ad_error := None;
           ad_message_id := None; ad_ref_id := None; ad_action := None;
           ad_emoji := None;
           ad_metadata := Some (rotation_metadata maxAge archivedRecords) |}
        now db1 in
    ({| http_status := 200;
        http_body := RotatedBody "Log rotation completed" archivedRecords maxAge |},
     with_db b db2).

End Maintenance.

(** ** Slash commands that list reminders and delete messages *)

Module Commands.

Import Store Bot.

(** The texts of [interaction.editReply] in these two handlers. *)
Inductive Reply :=
| NoActiveReminders
| RemindersList (content : string)
| CountOutOfRange
| NoBotMessages
| MessagesDeleted (deleted : Z)
| DeleteMessagesFailed.

Definition nl : string := String "010" EmptyString.

Section ListReminders.

(** [new Date(text).toLocaleDateString()]: the text it gives depends on the
    locale of the process. *)
Variable toLocaleDateString : string -> string.

(** SELECT id, content, time, created_at FROM reminders WHERE user_id = ?
    ORDER BY time ASC.  [time] is TEXT, rows with the same [time] are kept
    in table order here (the statement does not fix their order). *)
Definition user_reminders (user_id : string) (db : Db) : list Reminder :=
  Dashboard.sort_by (fun a b => negb (String.ltb (rem_time b) (rem_time a)))
    (List.filter (fun r => String.eqb (rem_user_id r) user_id) (reminders db)).

(** The three lines the loop adds for one reminder. *)
Definition reminder_lines (reminder : Reminder) : string :=
  "**ID " ++ Js.show_Z (rem_id reminder) ++ ":** " ++ rem_content reminder ++ nl
  ++ "⏰ Time: " ++ rem_time reminder ++ " daily" ++ nl
  ++ "📅 Created: " ++ toLocaleDateString (rem_created_at reminder) ++ nl ++ nl.

Definition list_response (rows : list Reminder) : string :=
  fold_left (fun response reminder => response ++ reminder_lines reminder) rows
    ("📋 **Your Active Reminders:**" ++ nl ++ nl)
  ++ "Use `/delete-reminder id:<ID>` to delete a reminder.".

(** [handleListReminders(interaction)] *)
Definition handleListReminders (ia : Interaction) (now : Z) (b : State)
    : Reply * State :=
  let reminders := user_reminders (ia_user ia) (db b) in
  match reminders with
  | [] => (NoActiveReminders, b)
  | _ :: _ =>
      (RemindersList (list_response reminders),
       with_db b
         (logActivity "activity:reminders_listed"
            {| ad_source := Some "discord_slash";
               ad_channel_id := Some (ia_channel ia);
               ad_user_id := Some (ia_user ia); ad_status := Some "success";
               ad_error := None; ad_message_id := None; ad_ref_id := None;
               ad_action := Some "list_reminders"; ad_emoji := None;
               ad_metadata := None |}
            now (db b)))
  end.

End ListReminders.

(** A message of the channel as [messages.fetch] returns it; [msg_deletes]
    tells whether [message.delete()] resolves. *)
Record Message := {
  msg_id : string;
  msg_author : string;
  msg_deletes : bool
}.

(** [handleDeleteMessages(interaction)]: [count] is the integer option of
    the command ([None] when it is not given), [bot_user] is
    [client.user.id], [fetched] is what [channel.messages.fetch] gives: the
    messages in the order of the collection, or the message of the error it
    throws.  The result holds the reply, the ids of the messages that were
    deleted, and the state. *)
Definition handleDeleteMessages (ia : Interaction) (bot_user : string)
    (count : option Z) (fetched : string + list Message) (now : Z) (b : State)
    : Reply * list string * State :=
  let count := default 10 (Js.or_null_int count) in
  if (count <? 1) || (50 <? count) then (CountOutOfRange, [], b)
  else
    match fetched with
    | inr messages =>
        let botMessages :=
          List.filter (fun msg => String.eqb (msg_author msg) bot_user) messages in
        let messagesToDelete := Dashboard.slice0 botMessages (Some count) in
        match messagesToDelete with
        | [] => (NoBotMessages, [], b)
        | _ :: _ =>
            let deleted := List.filter msg_deletes messagesToDelete in
            (MessagesDeleted (Z.of_nat (length deleted)),
             List.map msg_id deleted,
             with_db b
               (logActivity "activity:messages_deleted"
                  {| ad_source := Some "discord_slash";
                     ad_channel_id := Some (ia_channel ia);
                     ad_user_id := Some (ia_user ia); ad_status := Some "success";
                     ad_error := None; ad_message_id := None; ad_ref_id := None;
                     ad_action := Some "delete_messages";
                     ad_emoji := Some "🗑️"; ad_metadata := None |}
                  now (db b)))
        end
    | inl error_message =>
        (DeleteMessagesFailed, [],
         with_db b
           (logActivity "activity:delete_messages_failed"
              {| ad_source := Some "discord_slash";
                 ad_channel_id := Some (ia_channel ia);
                 ad_user_id := Some (ia_user ia); ad_status := Some "failed";
                 ad_error := Some error_message; ad_message_id := None;
                 ad_ref_id := None; ad_action := Some "delete_messages";
                 ad_emoji := None; ad_metadata := None |}
              now (db b)))
    end.

End Commands.

(** ** Further dashboard routes over the same database file *)

(** *** POST /api/logs: one activity-log entry from the request body *)

Module LogsCreate.

Import Store.

(** The properties read from the JSON body; an absent one is [None]. *)
Record LogBody := {
  kind : option string;
  source : option string;
  channel_id : option string;
  user_id : option string;
  status : option string;
  error : option string;
  message_id : option string;
  ref_id : option Z;
  action : option string;
  emoji : option string
}.

Inductive Body :=
| ErrorBody (error : string)
| CreatedBody (message : string) (id : Z).

Record Response := { http_status : Z; http_body : Body }.

(** [POST(request)]: [body] is [None] when the request holds no JSON.  The
    column [kind] is NOT NULL: a body without [kind] makes the INSERT
    fail. *)
Definition POST (token LOGS_TOKEN : option string) (body : option LogBody)
    (now : Z) (db : Db) : Response * Db :=
  if negb (Retry.token_ok token LOGS_TOKEN)
  then ({| http_status := 401; http_body := ErrorBody "Unauthorized" |}, db)
  else
    match body with
    | None => ({| http_status := 500; http_body := ErrorBody "Failed to create log" |}, db)
    | Some body =>
        match kind body with
        | None =>
            ({| http_status := 500; http_body := ErrorBody "Failed to create log" |}, db)
        | Some kind =>
            let lastID := seq_activity_logs db + 1 in
            ({| http_status := 200; http_body := CreatedBody "Log created" lastID |},
             with_activity_logs db
               (activity_logs db ++
                [{| al_id := lastID;
                    al_kind := kind;
                    al_source := Js.or_null (source body);
                    al_channel_id := Js.or_null (channel_id body);
                    al_user_id := Js.or_null (user_id body);
                    al_status := Some (default "success" (Js.or_null (status body)));
                    al_error := Js.or_null (error body);
                    al_message_id := Js.or_null (message_id body);
                    al_ref_id := Js.or_null_int (ref_id body);
                    al_action := Js.or_null (action body);
                    al_emoji := Js.or_null (emoji body);
                    al_created_at := Clock.current_timestamp (now / 1000);
                    al_metadata := None |}])
               lastID)
        end
    end.

End LogsCreate.

(** *** DELETE /api/logs/clear *)

Module Clear.

Import Store.

Inductive Body :=
| ErrorBody (error : string)
| MessageBody (message : string).

Record Response := { http_status : Z; http_body : Body }.

(** [DELETE(request)]: both log tables are emptied and their rows in
    [sqlite_sequence] are removed, so that numbering starts again. *)
Definition DELETE (token LOGS_TOKEN : option string) (db : Db) : Response * Db :=
  if negb (Retry.token_ok token LOGS_TOKEN)
  then ({| http_status := 401; http_body := ErrorBody "Unauthorized" |}, db)
  else
    let db1 := with_send_logs db [] (seq_send_logs db) in
    let db2 := with_activity_logs db1 [] (seq_activity_logs db1) in
    let db3 :=
      with_activity_logs (with_send_logs db2 (send_logs db2) 0) (activity_logs db2) 0 in
    ({| http_status := 200; http_body := MessageBody "All logs cleared successfully" |},
     db3).

End Clear.

(** *** POST /api/logs/rotate: the call is passed on to the bot *)

Module RotateRoute.

Inductive Body :=
| ErrorBody (error : string)
| RotatedBody (message : string) (archivedRecords : Z).

Record Response := { http_status : Z; http_body : Body }.

(** [POST(request)]: [maxAge] is the property of the request body (30 when
    absent), [reachable] tells whether the request gets to the bot.  The
    bot is called with the secret configured for the dashboard. *)
Definition POST (token LOGS_TOKEN : option string) (maxAge : option Z)
    (reachable : bool) (now : Z) (b : Bot.State) : Response * Bot.State :=
  if negb (Retry.token_ok token LOGS_TOKEN)
  then ({| http_status := 401; http_body := ErrorBody "Unauthorized" |}, b)
  else
    let maxAge := default 30 maxAge in
    if reachable then
      let '(botResponse, b') := Maintenance.rotate_logs LOGS_TOKEN (Some maxAge) now b in
      match Maintenance.http_body botResponse with
      | Maintenance.RotatedBody _ archivedRecords _ =>
          ({| http_status := 200;
              http_body := RotatedBody "Log rotation completed" archivedRecords |}, b')
      | Maintenance.ErrorBody _ =>
          ({| http_status := 500; http_body := ErrorBody "Failed to rotate logs" |}, b')
      end
    else ({| http_status := 500; http_body := ErrorBody "Failed to rotate logs" |}, b).

End RotateRoute.

(** *** GET /api/discord/channels *)

Module Channels.

(** A channel object of the Discord API, with the properties the route
    reads. *)
Record Channel := {
  id : string;
  name : string;
  type : Z;
  position : Z
}.

Record TextChannel := {
  tc_id : string;
  tc_name : string;
  tc_position : Z
}.

Inductive Body :=
| ErrorBody (error : string)
| ChannelsBody (channels : list TextChannel).

Record Response := { http_status : Z; http_body : Body }.

(** [GET(request)]: [api] is the channel list the Discord API answers
    with, [None] when the call fails or its status is not ok. *)
Definition GET (BOT_TOKEN GUILD_ID : option string) (api : option (list Channel))
    : Response :=
  match Js.or_null BOT_TOKEN, Js.or_null GUILD_ID with
  | Some botToken, Some guildId =>
      match api with
      | None => {| http_status := 500; http_body := ErrorBody "Failed to fetch channels" |}
      | Some channels =>
          let textChannels :=
            Dashboard.sort_by (fun a b => tc_position a <=? tc_position b)
              (List.map
                 (fun channel =>
                    {| tc_id := id channel; tc_name := name channel;
                       tc_position := position channel |})
                 (List.filter (fun channel => type channel =? 0) channels)) in
          {| http_status := 200; http_body := ChannelsBody textChannels |}
      end
  | _, _ =>
      {| http_status := 500; http_body := ErrorBody "Missing bot token or guild ID" |}
  end.

End Channels.

(** *** GET /api/stats: the counts that are fixed by their statements *)

Module Statistics.

Import Store.

(** SELECT COUNT(...) FROM activity_logs WHERE created_at > ?, with the
    ISO text of the instant one day before [now]. *)
Definition recentActivity (now : Z) (db : Db) : Z :=
  let yesterdayString := Clock.toISOString (Clock.minus_days now 1) in
  Maintenance.count (fun r => String.ltb yesterdayString (al_created_at r))
    (activity_logs db).

(** SELECT COUNT(...) as total, SUM(CASE WHEN status = "success" THEN 1
    ELSE 0 END) as successful FROM send_logs; the sum over no rows is
    NULL. *)
Definition totalAttempts (db : Db) : Z :=
  Maintenance.count (fun _ => true) (send_logs db).

Definition successfulAttempts (db : Db) : option Z :=
  match send_logs db with
  | [] => None
  | rows => Some (Maintenance.count (fun r => String.eqb (sl_status r) "success") rows)
  end.

End Statistics.

(** ** Setting up the schema ([initTables])

    Tables as in [Migration], and the indexes by their names.  Only the
    statements of [initTables] are modelled: tables and indexes created if
    they do not exist yet, and the column migrations between them. *)

Module Schema.

Import Migration.

Record Index := {
  idx_table : string;
  idx_columns : list string
}.

Record Database := {
  tables : gmap string Table;
  indexes : gmap string Index
}.

Inductive Query :=
| CreateTable (name : string) (cols : list string)
| CreateIndex (name table : string) (cols : list string).

(** CREATE TABLE IF NOT EXISTS [name] (...): nothing happens when the table
    exists; a new table has no rows.  Tables and indexes share their
    names. *)
Definition create_table (name : string) (cols : list string) (s : Database)
    : SqlError + Database :=
  match tables s !! name with
  | Some _ => inr s
  | None =>
      match indexes s !! name with
      | Some _ =>
          inl {| message := "SQLITE_ERROR: there is already an index named " ++ name |}
      | None =>
          inr {| tables := <[name := {| columns := cols; rows := [] |}]> (tables s);
                 indexes := indexes s |}
      end
  end.

(** CREATE INDEX IF NOT EXISTS [name] ON [table] ([cols]): the table and
    its columns must exist; nothing happens when the index exists. *)
Definition create_index (name table : string) (cols : list string) (s : Database)
    : SqlError + Database :=
  match tables s !! table with
  | None => inl {| message := "SQLITE_ERROR: no such table: main." ++ table |}
  | Some tb =>
      match tables s !! name with
      | Some _ =>
          inl {| message := "SQLITE_ERROR: there is already a table named " ++ name |}
      | None =>
          match indexes s !! name with
          | Some _ => inr s
          | None =>
              match List.find (fun c => negb (has_column c tb)) cols with
              | Some c =>
                  inl {| message :=
                           "SQLITE_ERROR: no such column: " ++ c |}
              | None =>
                  inr {| tables := tables s;
                         indexes := <[name := {| idx_table := table; idx_columns := cols |}]>
                                      (indexes s) |}
              end
          end
      end
  end.

Definition run_query (query : Query) (s : Database) : SqlError + Database :=
  match query with
  | CreateTable name cols => create_table name cols s
  | CreateIndex name table cols => create_index name table cols s
  end.

(** The CREATE TABLE statements of [initTables], by their column names. *)
Definition tableQueries : list Query :=
  [ CreateTable "tasks"
      ["id"; "content"; "channel_id"; "user_id"; "time"; "days"; "created_at"];
    CreateTable "reminders"
      ["id"; "content"; "channel_id"; "user_id"; "time"; "created_at"];
    CreateTable "send_logs"
      ["id"; "kind"; "source"; "channel_id"; "user_id"; "content"; "status"; "error";
       "message_id"; "ref_id"; "sent_at"];
    CreateTable "activity_logs"
      ["id"; "kind"; "source"; "channel_id"; "user_id"; "status"; "error";
       "message_id"; "ref_id"; "action"; "emoji"; "created_at"];
    CreateTable "completions"
      ["id"; "task_id"; "reminder_id"; "user_id"; "completed_at"];
    CreateTable "log_rotation"
      ["id"; "table_name"; "rotated_at"; "records_archived"] ].

(** [getIndexQueries()] *)
Definition getIndexQueries : list Query :=
  [ CreateIndex "idx_send_logs_time" "send_logs" ["sent_at"; "id"];
    CreateIndex "idx_activity_logs_time" "activity_logs" ["created_at"; "id"];
    CreateIndex "idx_tasks_time" "tasks" ["time"];
    CreateIndex "idx_reminders_time" "reminders" ["time"];
    CreateIndex "idx_send_logs_status" "send_logs" ["status"];
    CreateIndex "idx_send_logs_kind" "send_logs" ["kind"];
    CreateIndex "idx_send_logs_channel" "send_logs" ["channel_id"];
    CreateIndex "idx_activity_logs_status" "activity_logs" ["status"];
    CreateIndex "idx_activity_logs_kind" "activity_logs" ["kind"];
    CreateIndex "idx_activity_logs_channel" "activity_logs" ["channel_id"];
    CreateIndex "idx_tasks_user" "tasks" ["user_id"];
    CreateIndex "idx_reminders_user" "reminders" ["user_id"];
    CreateIndex "idx_send_logs_user" "send_logs" ["user_id"];
    CreateIndex "idx_activity_logs_user" "activity_logs" ["user_id"];
    CreateIndex "idx_send_logs_status_time" "send_logs" ["status"; "sent_at"];
    CreateIndex "idx_activity_logs_kind_time" "activity_logs" ["kind"; "created_at"] ].

(** [executeQueriesSequentially(queries)]: [None] when the promise
    resolves, the error of the first failing statement when it rejects;
    the statements before it have taken effect. *)
Fixpoint executeQueriesSequentially (queries : list Query) (s : Database)
    : option SqlError * Database :=
  match queries with
  | [] => (None, s)
  | query :: rest =>
      match run_query query s with
      | inl err => (Some err, s)
      | inr s' => executeQueriesSequentially rest s'
      end
  end.

(** [initTables()]: the tables, then the migrations, then the indexes;
    [now] is the ISO text of the instant at which the migrations run. *)
Definition initTables (now : string) (s : Database) : option SqlError * Database :=
  match executeQueriesSequentially tableQueries s with
  | (Some err, s1) => (Some err, s1)
  | (None, s1) =>
      match runMigrations now (tables s1) with
      | (Some err, tables2) => (Some err, {| tables := tables2; indexes := indexes s1 |})
      | (None, tables2) =>
          executeQueriesSequentially getIndexQueries
            {| tables := tables2; indexes := indexes s1 |}
      end
  end.

End Schema.

(** ** The enhanced logging class ([EnhancedLogging])

    Its two tables, with the rows in the order of their ids.  The
    statements are taken to succeed (the tables exist and the values given
    for NOT NULL columns are strings). *)

Module Enhanced.

Record LogChannel := {
  lc_id : Z;
  lc_guild_id : string;
  lc_category : string;
  lc_channel_id : string;
  lc_enabled : Z;
  lc_created_at : string;
  lc_updated_at : string
}.

Record EnhancedLog := {
  el_id : Z;
  el_category : string;
  el_subcategory : string;
  el_level : string;
  el_title : string;
  el_description : option string;
  el_guild_id : option string;
  el_channel_id : option string;
  el_user_id : option string;
  el_reference_id : option Z;
  el_metadata : option string;
  el_dashboard_sent : Z;
  el_discord_sent : Z;
  el_discord_message_id : option string;
  el_created_at : string
}.

Record Tables := {
  log_channels : list LogChannel;
  seq_log_channels : Z;
  enhanced_logs : list EnhancedLog
}.

(** The rows that stand in the way of a new row under
    UNIQUE(guild_id, category). *)
Definition conflicts (guildId category : string) (r : LogChannel) : bool :=
  String.eqb (lc_guild_id r) guildId && String.eqb (lc_category r) category.

(** [setLogChannel(guildId, category, channelId, enabled = true)]: INSERT
    OR REPLACE removes the rows in conflict and adds the new row under a
    new id; [now] is the instant (milliseconds) of the call. *)
Definition setLogChannel (guildId category channelId : string) (enabled : option bool)
    (now : Z) (t : Tables) : Tables :=
  let id := seq_log_channels t + 1 in
  {| log_channels :=
       List.filter (fun r => negb (conflicts guildId category r)) (log_channels t)
       ++ [{| lc_id := id;
              lc_guild_id := guildId;
              lc_category := category;
              lc_channel_id := channelId;
              lc_enabled := if default true enabled then 1 else 0;
              lc_created_at := Clock.current_timestamp (now / 1000);
              lc_updated_at := Clock.toISOString now |}];
     seq_log_channels := id;
     enhanced_logs := enhanced_logs t |}.

(** A row of [getLogChannels]: SELECT category, channel_id, enabled. *)
Record ChannelSetting := {
  category : string;
  channel_id : string;
  enabled : Z
}.

(** [getLogChannels(guildId)]; the statement has no ORDER BY, so the order
    of the rows is the database's choice (SQLite answers through the index
    on guild and category); they are given here in the order of the table,
    and no statement below depends on their order. *)
Definition getLogChannels (guildId : string) (t : Tables) : list ChannelSetting :=
  List.map
    (fun r => {| category := lc_category r; channel_id := lc_channel_id r;
                 enabled := lc_enabled r |})
    (List.filter (fun r => String.eqb (lc_guild_id r) guildId) (log_channels t)).

(** The [filters] object of [getEnhancedLogs]; [None] is a property that
    is not there. *)
Record Filters := {
  f_category : option string;
  f_guild_id : option string;
  f_level : option string;
  f_since : option string;
  f_limit : option Z
}.

(** A condition that is part of the statement only when its filter is
    truthy. *)
Definition when_given (filter : option string) (test : string -> bool) : bool :=
  match Js.or_null filter with
  | Some v => test v
  | None => true
  end.

(** The WHERE clause [getEnhancedLogs] builds. *)
Definition conditions (filters : Filters) (r : EnhancedLog) : bool :=
  when_given (f_category filters) (fun v => String.eqb (el_category r) v)
  && when_given (f_guild_id filters)
       (fun v => match el_guild_id r with
                 | Some g => String.eqb g v
                 | None => false
                 end)
  && when_given (f_level filters) (fun v => String.eqb (el_level r) v)
  && when_given (f_since filters) (fun v => negb (String.ltb (el_created_at r) v)).

(** ORDER BY created_at DESC *)
Definition newest_first (a b : EnhancedLog) : bool :=
  negb (String.ltb (el_created_at a) (el_created_at b)).

(** LIMIT [n]: a negative [n] sets no limit. *)
Definition sql_limit {A : Type} (n : Z) (l : list A) : list A :=
  if n <? 0 then l else take (Z.to_nat n) l.

(** [getEnhancedLogs(filters = {})] *)
Definition getEnhancedLogs (filters : Filters) (t : Tables) : list EnhancedLog :=
  sql_limit (default 100 (Js.or_null_int (f_limit filters)))
    (Dashboard.sort_by newest_first
       (List.filter (conditions filters) (enhanced_logs t))).

End Enhanced.

(** ** Concrete states used by the examples below *)

Module Examples.

Import Store Bot.

(** A bot with no rows, no triggers and one known channel. *)
Definition fresh_state : State :=
  {| db := empty_db; cronJobs := ∅; jobs := []; channels := ["chan-1"];
     LOGS_TOKEN := Some "secret"; effects := [] |}.

(** A state with one running reminder trigger whose channel is not in the
    client's cache. *)
Definition unresolved_state : State :=
  scheduleReminder (Some 1) "stand-up" "chan-9" "user-1" "09:00" fresh_state.

(** A state with one running reminder trigger whose channel resolves. *)
Definition resolved_state : State :=
  scheduleReminder (Some 1) "stand-up" "chan-1" "user-1" "09:00" fresh_state.

(** One send-log entry written on 2024-01-01 at 12:00:00 UTC. *)
Definition noon_entry_db : Db :=
  logSend "reminder"
    {| sd_source := Some "cron"; sd_channel_id := Some "chan-1";
       sd_user_id := Some "user-1"; sd_content := Some "stand-up";
       sd_status := Some "sent"; sd_error := None;
       sd_message_id := Some "msg-1"; sd_ref_id := Some 1;
       sd_retry_count := None |}
    1704110400000 empty_db.

(** A bot started on a store that holds one reminder row. *)
Definition started_state : State :=
  loadScheduledItems
    (with_db fresh_state
       (insert_reminder "stand-up" "chan-1" "user-1" "09:00" 1704100000000
          empty_db)).

(** The delivery of that reminder then failed: the store holds the
    reminder row and one failed send-log entry that refers to it. *)
Definition failed_delivery_state : State :=
  fire 0 (Rejected "Missing Permissions") 1704110400000 started_state.

(** Two send-log entries written an hour apart. *)
Definition two_entries_db : Db :=
  logSend "task"
    {| sd_source := Some "cron"; sd_channel_id := Some "chan-1";
       sd_user_id := Some "user-1"; sd_content := Some "review";
       sd_status := Some "failed"; sd_error := Some "Missing Access";
       sd_message_id := None; sd_ref_id := Some 4;
       sd_retry_count := None |}
    1704114000000 noon_entry_db.

(** The same reminder id registered twice. *)
Definition registered_twice_state : State :=
  scheduleReminder (Some 1) "stand-up" "chan-1" "user-1" "09:00" resolved_state.

(** The caller of the slash commands in the examples. *)
Definition alice : Interaction := {| ia_user := "user-1"; ia_channel := "chan-1" |}.

(** Another caller. *)
Definition bob : Interaction := {| ia_user := "user-2"; ia_channel := "chan-1" |}.

(** One reminder added by [alice] through the slash command. *)
Definition one_reminder_state : State :=
  handleAddReminder alice "stand-up" "09:00" 1704100000000 fresh_state.

(** Two send-log entries and one activity-log entry, an hour apart each. *)
Definition three_rows_db : Db :=
  logActivity "activity:reminder_added"
    {| ad_source := Some "http_api"; ad_channel_id := Some "chan-1";
       ad_user_id := Some "user-1"; ad_status := None; ad_error := None;
       ad_message_id := None; ad_ref_id := Some 1; ad_action := None;
       ad_emoji := None; ad_metadata := None |}
    1704117600000 two_entries_db.

(** A schema from before the column migrations: a [tasks] table with one
    row and no [active] or [updated_at] column, and no other table. *)
Definition old_schema : gmap string Migration.Table :=
  {[ "tasks" :=
       {| Migration.columns := ["id"; "content"];
          Migration.rows :=
            [ {[ "id" := Migration.VInt 1;
                 "content" := Migration.VText "stand-up" ]} ] |} ]}.

(** A second reminder added by [alice] through the slash command. *)
Definition two_reminders_state : State :=
  handleAddReminder alice "retro" "16:00" 1704103600000 one_reminder_state.

(** A database from before the column migrations: a [tasks] table with
    its original columns and one row, and nothing else. *)
Definition legacy_database : Schema.Database :=
  {| Schema.tables :=
       {[ "tasks" :=
            {| Migration.columns :=
                 ["id"; "content"; "channel_id"; "user_id"; "time"; "days"; "created_at"];
               Migration.rows :=
                 [ {[ "id" := Migration.VInt 1;
                      "content" := Migration.VText "stand-up";
                      "channel_id" := Migration.VText "chan-1";
                      "user_id" := Migration.VText "user-1";
                      "time" := Migration.VText "09:00";
                      "days" := Migration.VNull;
                      "created_at" := Migration.VText "2024-01-01 08:00:00" ]} ] |} ]};
     Schema.indexes := ∅ |}.

(** Log channels of two guilds. *)
Definition two_guilds : Enhanced.Tables :=
  Enhanced.setLogChannel "guild-2" "tasks" "chan-7" (Some false) 1704103300000
    (Enhanced.setLogChannel "guild-1" "tasks" "chan-1" None 1704103200000
       {| Enhanced.log_channels := []; Enhanced.seq_log_channels := 0;
          Enhanced.enhanced_logs := [] |}).

(** A zone whose clocks go from UTC-5 to UTC-4 at 02:00 local time on
    10 March 2024, as those of America/New_York do: a wall-clock time
    before 03:00 of that day is five hours behind UTC (the skipped hour
    from 02:00 included), a later one four hours. *)
Definition eastern_march_2024 : Clock.Zone :=
  {| Clock.offset_at_local :=
       fun wall => if wall <? 1710039600000 then -18000000 else -14400000 |}.

(** Two send-log entries, written at 02:30:00 and at 03:00:00 UTC on
    10 March 2024. *)
Definition spring_forward_db : Db :=
  logSend "send_once"
    {| sd_source := Some "http_api"; sd_channel_id := Some "chan-1";
       sd_user_id := None; sd_content := Some "second";
       sd_status := Some "sent"; sd_error := None;
       sd_message_id := Some "msg-2"; sd_ref_id := None;
       sd_retry_count := None |}
    1710039600000
    (logSend "send_once"
       {| sd_source := Some "http_api"; sd_channel_id := Some "chan-1";
          sd_user_id := None; sd_content := Some "first";
          sd_status := Some "sent"; sd_error := None;
          sd_message_id := Some "msg-1"; sd_ref_id := None;
          sd_retry_count := None |}
       1710037800000 empty_db).

(** The four tables the migrations alter, with their original columns: a
    task that was never updated, and a reminder row that carries a value
    in a column [updated_at] that is already there. *)
Definition original_schema : gmap string Migration.Table :=
  {[ "tasks" :=
       {| Migration.columns :=
            ["id"; "content"; "channel_id"; "user_id"; "time"; "days"; "created_at"];
          Migration.rows :=
            [ {[ "id" := Migration.VInt 1;
                 "content" := Migration.VText "stand-up";
                 "time" := Migration.VText "09:00" ]} ] |};
     "reminders" :=
       {| Migration.columns :=
            ["id"; "content"; "channel_id"; "user_id"; "time"; "created_at";
             "updated_at"];
          Migration.rows :=
            [ {[ "id" := Migration.VInt 1;
                 "content" := Migration.VText "retro";
                 "updated_at" := Migration.VText "2023-12-24T08:00:00.000Z" ]};
              {[ "id" := Migration.VInt 2;
                 "content" := Migration.VText "review";
                 "updated_at" := Migration.VNull ]} ] |};
     "send_logs" :=
       {| Migration.columns := ["id"; "kind"; "status"; "sent_at"];
          Migration.rows := [] |};
     "activity_logs" :=
       {| Migration.columns := ["id"; "kind"; "created_at"];
          Migration.rows := [] |} ]}.

End Examples.

(** ** Notions used to state the properties *)

Module Props.

Import Store Bot.

Fixpoint all_digits (s : string) : bool :=
  match s with
  | EmptyString => true
  | String c s' => Js.is_digit c && all_digits s'
  end.

(** The value read from a digit string, continuing from [acc]. *)
Fixpoint digits_value (acc : Z) (s : string) : Z :=
  match s with
  | EmptyString => acc
  | String c s' => digits_value (acc * 10 + Js.digit_val c) s'
  end.

(** Lexicographic combination of comparisons. *)
Definition lex (c k : comparison) : comparison :=
  match c with
  | Eq => k
  | Lt => Lt
  | Gt => Gt
  end.

(** Comparison of the six numbers of two timestamps, most significant
    first. *)
Definition fields_compare (f g : Z * Z * Z * Z * Z * Z) : comparison :=
  let '(y, m, d, h, n, s) := f in
  let '(y', m', d', h', n', s') := g in
  lex (y ?= y') (lex (m ?= m') (lex (d ?= d') (lex (h ?= h') (lex (n ?= n') (s ?= s'))))).

(** The texts that [stamp_fields] reads. *)
Definition stamp_text (y1 y2 y3 y4 m1 m2 d1 d2 h1 h2 n1 n2 s1 s2 : ascii) : string :=
  String y1 (String y2 (String y3 (String y4 (String "-"
  (String m1 (String m2 (String "-" (String d1 (String d2 (String " "
  (String h1 (String h2 (String ":" (String n1 (String n2 (String ":"
  (String s1 (String s2 EmptyString)))))))))))))))))).

(** [c] does not occur in [s]. *)
Fixpoint no_char (c : ascii) (s : string) : bool :=
  match s with
  | EmptyString => true
  | String d s' => negb (Ascii.eqb d c) && no_char c s'
  end.

(** The text [rotateLogs] compares the stored timestamps with. *)
Definition cutoff_text (maxAge now : Z) : string :=
  Clock.toISOString (Clock.minus_days now maxAge).

Definition same_kind (a b : Kind) : bool :=
  match a, b with
  | KReminder, KReminder | KTask, KTask => true
  | _, _ => false
  end.

(** The running task objects made for [(k, id)]. *)
Definition live_triggers (k : Kind) (id : option Z) (b : State) : list nat :=
  List.filter
    (fun h => match jobs b !! h with
              | Some j => job_running j
                          && same_kind (job_kind j) k
                          && bool_decide (job_ref j = id)
              | None => false
              end)
    (seq 0 (length (jobs b))).

(** Registration of a trigger for [(k, id)], by the function of its kind. *)
Definition register (k : Kind) (id : option Z) (content channelId userId time : string)
    (days : option string) (b : State) : State :=
  match k with
  | KReminder => scheduleReminder id content channelId userId time b
  | KTask => scheduleTask id content channelId userId time days b
  end.

(** The time and the days of a registration pass the checks that the slash
    commands make before they register.  Such a time gives the minutes and
    hours of a cron pattern and such days its week days, a pattern that
    the cron library accepts: [cron.schedule] returns a task object. *)
Definition schedulable (k : Kind) (time : string) (days : option string) : bool :=
  timeRegex_test time
  && match k, Js.or_null days with
     | KTask, Some d => validDays d
     | _, _ => true
     end.

(** The merged, filtered and sorted rows of a request, before the limit is
    applied ([allLogs] after the sort). *)
Definition merged (kind status channel_id q cursor : string) (d : Db)
    : list Dashboard.LogRow :=
  Dashboard.sort_by Dashboard.js_before
    (Dashboard.query_send_logs kind status channel_id q cursor d
     ++ Dashboard.query_activity_logs kind status channel_id q cursor d)%list.

(** A migration entry is skipped in schema [s]: its statement fails with a
    message that [executeMigrations] ignores. *)
Definition skipped (m : Migration.Entry) (s : gmap string Migration.Table) : Prop :=
  match Migration.add_column (Migration.table m) (Migration.column m)
          (Migration.default_value m) s with
  | inl err => Migration.includes "duplicate column name" (Migration.message err) = true
  | inr _ => False
  end.

(** Every row of table [t] (if it exists and has column [c]) holds a
    non-null value in column [c]. *)
Definition filled (t c : string) (s : gmap string Migration.Table) : Prop :=
  forall tb, s !! t = Some tb -> Migration.has_column c tb = true ->
             Forall (fun r => Migration.is_null (r !! c) = false) (Migration.rows tb).

(** The instant of a row, as the sort of the route reads it (0 for an
    invalid date). *)
Definition instant (r : Dashboard.LogRow) : Z :=
  default 0 (Clock.Date_getTime (Dashboard.timestamp r)).

(** [a] comes strictly before [b] in descending (timestamp, id) order. *)
Definition descending (a b : Dashboard.LogRow) : Prop :=
  instant b < instant a
  \/ (instant b = instant a /\ Dashboard.id b < Dashboard.id a).

(** All log rows of the store, in the shape the route returns. *)
Definition all_rows (d : Db) : list Dashboard.LogRow :=
  (List.map Dashboard.of_send_log (send_logs d)
   ++ List.map Dashboard.of_activity_log (activity_logs d))%list.

End Props.

(** ** Further notions used to state properties *)

Module Facts.

Import Store Bot.

(** The keys of a table are distinct and lie between 1 and the table's
    counter. *)
Definition keys_fresh {A : Type} (key : A -> Z) (rows : list A) (counter : Z) : Prop :=
  NoDup (List.map key rows) /\ Forall (fun r => 1 <= key r <= counter) rows
  /\ 0 <= counter.

Definition ids_fresh (d : Db) : Prop :=
  keys_fresh task_id (tasks d) (seq_tasks d)
  /\ keys_fresh rem_id (reminders d) (seq_reminders d)
  /\ keys_fresh sl_id (send_logs d) (seq_send_logs d)
  /\ keys_fresh al_id (activity_logs d) (seq_activity_logs d)
  /\ keys_fresh rm_id (log_rotation d) (seq_log_rotation d).

(** The UTC day (days since 1970-01-01) of an instant in milliseconds. *)
Definition day_of (ms : Z) : Z := ms / 86400000.

(** The end of the range of instants whose year has four digits. *)
Definition year_10000 : Z := 253402300800000.

(** One call of a scheduling function, as [loadScheduledItems] makes it
    for a row. *)
Record Registration := {
  reg_kind : Kind;
  reg_id : Z;
  reg_content : string;
  reg_channel : string;
  reg_user : string;
  reg_time : string;
  reg_days : option string
}.

Definition registration_of_reminder (r : Reminder) : Registration :=
  {| reg_kind := KReminder; reg_id := rem_id r; reg_content := rem_content r;
     reg_channel := rem_channel_id r; reg_user := rem_user_id r;
     reg_time := rem_time r; reg_days := None |}.

Definition registration_of_task (t : Task) : Registration :=
  {| reg_kind := KTask; reg_id := task_id t; reg_content := task_content t;
     reg_channel := task_channel_id t; reg_user := task_user_id t;
     reg_time := task_time t; reg_days := task_days t |}.

(** The calls [loadScheduledItems] makes on a store, in their order. *)
Definition registrations (d : Db) : list Registration :=
  (List.map registration_of_reminder (reminders d)
   ++ List.map registration_of_task (tasks d))%list.

Definition apply_registration (b : State) (r : Registration) : State :=
  Props.register (reg_kind r) (Some (reg_id r)) (reg_content r) (reg_channel r)
    (reg_user r) (reg_time r) (reg_days r) b.

(** The task object a registration creates, once started. *)
Definition job_of (r : Registration) : CronJob :=
  {| job_kind := reg_kind r; job_ref := Some (reg_id r);
     job_content := reg_content r; job_channel := reg_channel r;
     job_user := reg_user r; job_time := reg_time r;
     job_days := match reg_kind r with
                 | KReminder => None
                 | KTask => Js.or_null (reg_days r)
                 end;
     job_running := true |}.

(** The log rows that pass the filters and the cursor of a request. *)
Definition matching_rows (kind status channel_id q cursor : string) (d : Db)
    : list Dashboard.LogRow :=
  (List.map Dashboard.of_send_log
     (List.filter
        (fun r => Dashboard.send_conditions kind status channel_id q r
                  && Dashboard.cursor_condition cursor (sl_sent_at r) (sl_id r))
        (send_logs d))
   ++ List.map Dashboard.of_activity_log
        (List.filter
           (fun r => Dashboard.activity_conditions kind status channel_id q r
                     && Dashboard.cursor_condition cursor (al_created_at r) (al_id r))
           (activity_logs d)))%list.

(** A statement of the schema set-up that has nothing left to do in [s]. *)
Definition settled (q : Schema.Query) (s : Schema.Database) : Prop :=
  Schema.run_query q s = inr s.

(** Row [r'] still reads every non-null value that row [r] read in the
    columns of [tb]. *)
Definition row_kept (tb : Migration.Table) (r r' : gmap string Migration.Value) : Prop :=
  forall c v,
    Migration.has_column c tb = true ->
    r !! c = Some v -> v <> Migration.VNull -> r' !! c = Some v.

(** Table [tb'] has the columns of [tb] and its rows, in their order, with
    their non-null values. *)
Definition table_kept (tb tb' : Migration.Table) : Prop :=
  (forall c, Migration.has_column c tb = true -> Migration.has_column c tb' = true)
  /\ Forall2 (row_kept tb) (Migration.rows tb) (Migration.rows tb').

Definition tables_kept (s s' : gmap string Migration.Table) : Prop :=
  forall t tb, s !! t = Some tb -> exists tb', s' !! t = Some tb' /\ table_kept tb tb'.

(** Database [s'] has every table and index of [s]. *)
Definition database_kept (s s' : Schema.Database) : Prop :=
  tables_kept (Schema.tables s) (Schema.tables s')
  /\ (forall i x, Schema.indexes s !! i = Some x -> Schema.indexes s' !! i = Some x).

Definition is_index_query (q : Schema.Query) : bool :=
  match q with Schema.CreateIndex _ _ _ => true | Schema.CreateTable _ _ => false end.

Definition query_name (q : Schema.Query) : string :=
  match q with Schema.CreateTable name _ => name | Schema.CreateIndex name _ _ => name end.

(** The columns of UNIQUE(guild_id, category). *)
Definition channel_key (r : Enhanced.LogChannel) : string * string :=
  (Enhanced.lc_guild_id r, Enhanced.lc_category r).

(** The table of log channels respects its constraints: one row for a
    guild and category, ids distinct and not above the counter. *)
Definition log_channels_valid (t : Enhanced.Tables) : Prop :=
  NoDup (List.map channel_key (Enhanced.log_channels t))
  /\ keys_fresh Enhanced.lc_id (Enhanced.log_channels t) (Enhanced.seq_log_channels t).

(** [a] is not older than [b]. *)
Definition not_older (a b : Enhanced.EnhancedLog) : Prop :=
  Enhanced.newest_first a b = true.

(** A column is added to a table that does not have it; the rows that are
    there read the default in it. *)
Definition add_if_absent (c : string) (v : Migration.Value) (tb : Migration.Table)
    : Migration.Table :=
  if Migration.has_column c tb then tb
  else {| Migration.columns := Migration.columns tb ++ [c];
          Migration.rows := (fun r => <[c := v]> r) <$> Migration.rows tb |}.

(** The table [t], after the entries of [ms] that alter it. *)
Definition apply_entries (t : string) (ms : list Migration.Entry) (tb : Migration.Table)
    : Migration.Table :=
  fold_left
    (fun tb m => if String.eqb (Migration.table m) t
                 then add_if_absent (Migration.column m) (Migration.default_value m) tb
                 else tb)
    ms tb.

(** What the row [r] of a [tasks] or [reminders] table with the columns of
    [tb] has become in [r'] when the migration step has run at [now]:
    [updated_at] holds the value it held, or [now] where it was null or
    the column was new; a new [active] column holds 1; every other column
    of [tb] holds what it held. *)
Definition backfilled (now : string) (tb : Migration.Table)
    (r r' : gmap string Migration.Value) : Prop :=
  r' !! "updated_at"
  = (if Migration.has_column "updated_at" tb
        && negb (Migration.is_null (r !! "updated_at"))
     then r !! "updated_at"
     else Some (Migration.VText now))
  /\ (Migration.has_column "active" tb = false ->
      r' !! "active" = Some (Migration.VInt 1))
  /\ (forall c, Migration.has_column c tb = true -> c <> "updated_at" ->
                r' !! c = r !! c).

End Facts.
(** * Facts about the text primitives *)

Local Open Scope list_scope.
Local Arguments String.append : simpl nomatch.

Example parseInt_ex1 : Js.parseInt " 42abc" = Some 42.
Proof. reflexivity. Qed.
Example parseInt_ex2 : Js.parseInt "abc" = None.
Proof. reflexivity. Qed.
Example parseInt_ex3 : Js.parseInt "-7" = Some (-7).
Proof. reflexivity. Qed.
Example parseInt_ex4 : Js.parseInt "0x1f" = Some 31.
Proof. reflexivity. Qed.
Example show_Z_ex1 : Js.show_Z 1203 = "1203".
Proof. reflexivity. Qed.
Example show_Z_ex2 : Js.show_Z 0 = "0".
Proof. reflexivity. Qed.
Example show_Z_ex3 : Js.show_Z (-45) = "-45".
Proof. reflexivity. Qed.
Example split_ex1 : Js.split "_" "2024-01-01 10:00:00_17" = ["2024-01-01 10:00:00"; "17"].
Proof. reflexivity. Qed.
Example split_ex2 : Js.split "," "" = [""].
Proof. reflexivity. Qed.
Example trim_ex1 : Js.trim "  a b  " = "a b".
Proof. reflexivity. Qed.

Example current_timestamp_ex1 : Clock.current_timestamp 0 = "1970-01-01 00:00:00".
Proof. reflexivity. Qed.
Example current_timestamp_ex2 : Clock.current_timestamp 1704110400 = "2024-01-01 12:00:00".
Proof. vm_compute. reflexivity. Qed.
Example current_timestamp_ex3 : Clock.current_timestamp 1709251199 = "2024-02-29 23:59:59".
Proof. vm_compute. reflexivity. Qed.
Example toISOString_ex1 : Clock.toISOString 1704103200123 = "2024-01-01T10:00:00.123Z".
Proof. vm_compute. reflexivity. Qed.
Example Date_getTime_ex1 : Clock.Date_getTime "2024-01-01 12:00:00" = Some 1704110400000.
Proof. vm_compute. reflexivity. Qed.
Example Date_getTime_ex2 : Clock.Date_getTime "2024-02-30 12:00:00" = None.
Proof. vm_compute. reflexivity. Qed.
Example Date_getTime_ex3 : Clock.Date_getTime "2023-12-31 23:59:59" = Some 1704067199000.
Proof. vm_compute. reflexivity. Qed.

Example like_ex1 : Dashboard.like "remind" "activity:REMINDER_added" = true.
Proof. vm_compute. reflexivity. Qed.
Example like_ex2 : Dashboard.like "a_c" "xxabcxx" = true.
Proof. vm_compute. reflexivity. Qed.
Example like_ex3 : Dashboard.like "task" "reminder" = false.
Proof. vm_compute. reflexivity. Qed.
Example timeRegex_ex1 : Bot.timeRegex_test "9:05" = true.
Proof. reflexivity. Qed.
Example timeRegex_ex2 : Bot.timeRegex_test "23:59" = true.
Proof. reflexivity. Qed.
Example timeRegex_ex3 : Bot.timeRegex_test "24:00" = false.
Proof. reflexivity. Qed.
Example timeRegex_ex4 : Bot.timeRegex_test "12:60" = false.
Proof. reflexivity. Qed.
Example validDays_ex1 : Bot.validDays "1, 2,3" = true.
Proof. reflexivity. Qed.
Example validDays_ex2 : Bot.validDays "1,7" = false.
Proof. reflexivity. Qed.
Example validDays_ex3 : Bot.validDays "1,,2" = false.
Proof. reflexivity. Qed.
Example queryLogs_ex1 :
  List.map Dashboard.id
    (Dashboard.logs (Dashboard.queryLogs "" "" "" "" "" (Some 2) Examples.three_rows_db))
  = [1; 2]
  /\ List.map Dashboard.log_type
       (Dashboard.logs (Dashboard.queryLogs "" "" "" "" "" (Some 2) Examples.three_rows_db))
     = ["activity"; "send"]
  /\ Dashboard.nextCursor
       (Dashboard.queryLogs "" "" "" "" "" (Some 2) Examples.three_rows_db)
     = Some "2024-01-01 13:00:00_2".
Proof. repeat split; vm_compute; reflexivity. Qed.
Example queryLogs_ex2 :
  List.map Dashboard.id
    (Dashboard.logs
       (Dashboard.queryLogs "" "failed" "" "" "" (Some 50) Examples.three_rows_db))
  = [2].
Proof. vm_compute. reflexivity. Qed.
Example GET_ex1 :
  Dashboard.hasMore
    (Dashboard.GET None None None None None (Some "1") Examples.three_rows_db) = true.
Proof. vm_compute. reflexivity. Qed.
Example runMigrations_ex1 :
  fst (Migration.runMigrations "2024-01-01T10:00:00.000Z" Examples.old_schema)
  = Some {| Migration.message := "SQLITE_ERROR: no such table: reminders" |}
  /\ Migration.columns
       <$> snd (Migration.runMigrations "2024-01-01T10:00:00.000Z" Examples.old_schema)
           !! "tasks"
     = Some ["id"; "content"; "active"; "updated_at"].
Proof. split; vm_compute; reflexivity. Qed.

(** ** Decimal text of integers and [parseInt] *)

Section Decimal.

Import Js Props.

Lemma digit_char_is_digit (d : Z) :
  0 <= d <= 9 -> is_digit (digit_char d) = true /\ digit_val (digit_char d) = d.
Proof.
  intros H.
  assert (E : d = 0 \/ d = 1 \/ d = 2 \/ d = 3 \/ d = 4 \/ d = 5 \/ d = 6
              \/ d = 7 \/ d = 8 \/ d = 9) by lia.
  repeat (destruct E as [->|E]; [split; reflexivity|]). subst. split; reflexivity.
Qed.

Lemma all_digits_app (s t : string) :
  all_digits (s ++ t)%string = all_digits s && all_digits t.
Proof.
  induction s as [|c s IH]; simpl; [reflexivity|].
  rewrite IH. apply andb_assoc.
Qed.

Lemma digits_value_app (acc : Z) (s t : string) :
  digits_value acc (s ++ t)%string = digits_value (digits_value acc s) t.
Proof.
  revert acc. induction s as [|c s IH]; intros acc; simpl; [reflexivity|apply IH].
Qed.

Lemma append_assoc (s t u : string) : ((s ++ t) ++ u = s ++ (t ++ u))%string.
Proof. induction s as [|c s IH]; simpl; [reflexivity|]. f_equal. exact IH. Qed.

Lemma append_empty_r (s : string) : (s ++ "")%string = s.
Proof. induction s as [|c s IH]; simpl; [reflexivity|]. f_equal. exact IH. Qed.

Lemma parse_digits_app (seen : bool) (acc : Z) (ds rest : string) :
  all_digits ds = true ->
  parse_digits seen acc (ds ++ rest)%string
  = parse_digits (seen || negb (String.eqb ds "")) (digits_value acc ds) rest.
Proof.
  revert seen acc. induction ds as [|c ds IH]; intros seen acc Hd; simpl.
  - rewrite orb_false_r. reflexivity.
  - simpl in Hd. apply andb_true_iff in Hd as [Hc Hds].
    rewrite Hc, IH by exact Hds. rewrite orb_true_r.
    destruct (negb (ds =? "")%string); reflexivity.
Qed.

(** What [show_digits] writes: a non-empty run of digits whose value is
    the number, in front of [rest]. *)
Lemma show_digits_spec (fuel : nat) :
  forall (n : Z) (rest : string),
    (1 <= fuel)%nat ->
    0 <= n < 10 ^ Z.of_nat fuel ->
    exists ds,
      show_digits fuel n rest = (ds ++ rest)%string
      /\ all_digits ds = true
      /\ ds <> EmptyString
      /\ (forall acc, exists k, 0 <= k /\ digits_value acc ds = acc * 10 ^ k + n).
Proof.
  induction fuel as [|fuel IH]; intros n rest Hf Hn.
  - lia.
  - simpl. destruct (Z.ltb_spec n 10) as [Hlt|Hge].
    + exists (String (digit_char n) EmptyString).
      destruct (digit_char_is_digit n) as [Hd Hv]; [lia|].
      repeat split.
      * simpl. rewrite Hd. reflexivity.
      * discriminate.
      * intros acc. exists 1. simpl. rewrite Hv. lia.
    + assert (Hq : 0 <= n / 10 < 10 ^ Z.of_nat fuel).
      { split; [apply Z.div_pos; lia|].
        apply Z.div_lt_upper_bound; [lia|].
        rewrite Nat2Z.inj_succ, Z.pow_succ_r in Hn by lia. lia. }
      assert (Hf' : (1 <= fuel)%nat).
      { destruct fuel; [|lia]. change (10 ^ Z.of_nat 0) with 1 in Hq.
        assert (n / 10 = 0) by lia. pose proof (Z.div_mod n 10).
        pose proof (Z.mod_pos_bound n 10). lia. }
      destruct (IH (n / 10) (String (digit_char (n mod 10)) rest) Hf' Hq)
        as (ds & Hs & Hd & Hne & Hv).
      assert (Hm : 0 <= n mod 10 <= 9) by (pose proof (Z.mod_pos_bound n 10); lia).
      destruct (digit_char_is_digit (n mod 10) Hm) as [Hd' Hv'].
      exists (ds ++ String (digit_char (n mod 10)) EmptyString)%string.
      repeat split.
      * rewrite Hs, append_assoc. reflexivity.
      * rewrite all_digits_app, Hd. simpl. rewrite Hd'. reflexivity.
      * destruct ds; discriminate.
      * intros acc. destruct (Hv acc) as (k & Hk & E).
        exists (k + 1). split; [lia|].
        rewrite digits_value_app, E. simpl. rewrite Hv'.
        rewrite Z.pow_add_r by lia.
        pose proof (Z.div_mod n 10). lia.
Qed.

Lemma show_fuel_enough (n : Z) :
  0 <= n -> n < 10 ^ Z.of_nat (S (Z.to_nat (Z.log2 n))).
Proof.
  intros Hn. destruct (Z.eq_dec n 0) as [->|Hnz]; [reflexivity|].
  assert (Hpos : 0 < n) by lia.
  pose proof (Z.log2_spec n Hpos) as [_ Hup].
  pose proof (Z.log2_nonneg n) as Hl.
  rewrite Nat2Z.inj_succ, Z2Nat.id by exact Hl.
  eapply Z.lt_le_trans; [exact Hup|].
  apply Z.pow_le_mono_l. lia.
Qed.

(** The text of a non-negative integer. *)
Lemma show_Z_nonneg (z : Z) :
  0 <= z ->
  exists ds, show_Z z = ds /\ all_digits ds = true /\ ds <> EmptyString
             /\ digits_value 0 ds = z.
Proof.
  intros Hz. unfold show_Z. destruct (Z.ltb_spec z 0); [lia|].
  destruct (show_digits_spec (S (Z.to_nat (Z.log2 z))) z EmptyString
              ltac:(lia) (conj Hz (show_fuel_enough z Hz)))
    as (ds & Hs & Hd & Hne & Hv).
  exists ds. rewrite Hs, append_empty_r. repeat split; try assumption.
  destruct (Hv 0) as (k & _ & Hk). lia.
Qed.

Lemma show_Z_neg (z : Z) :
  z < 0 ->
  exists ds, show_Z z = String "-" ds /\ all_digits ds = true /\ ds <> EmptyString
             /\ digits_value 0 ds = - z.
Proof.
  intros Hz. unfold show_Z. destruct (Z.ltb_spec z 0); [|lia].
  assert (Hn : 0 <= - z) by lia.
  destruct (show_digits_spec (S (Z.to_nat (Z.log2 (- z)))) (- z) EmptyString
              ltac:(lia) (conj Hn (show_fuel_enough _ Hn)))
    as (ds & Hs & Hd & Hne & Hv).
  exists ds. rewrite Hs, append_empty_r. repeat split; try assumption.
  destruct (Hv 0) as (k & _ & Hk). lia.
Qed.

Lemma digit_not_space (c : ascii) : is_digit c = true -> is_space c = false.
Proof.
  unfold is_digit, is_space. cbv zeta.
  destruct (Z.leb_spec 48 (Z.of_N (N_of_ascii c))); [|discriminate].
  intros _.
  destruct (Z.eqb_spec (Z.of_N (N_of_ascii c)) 32); [lia|].
  destruct (Z.leb_spec (Z.of_N (N_of_ascii c)) 13); [lia|].
  rewrite andb_false_r. reflexivity.
Qed.

Lemma parse_magnitude_digits (ds : string) :
  all_digits ds = true -> ds <> EmptyString ->
  parse_magnitude ds = Some (digits_value 0 ds).
Proof.
  intros Hd Hne.
  assert (E : parse_magnitude ds = parse_digits false 0 ds).
  { destruct ds as [|c [|c' ds]]; [reflexivity| |].
    { destruct c as [[] [] [] [] [] [] [] []]; reflexivity. }
    simpl in Hd. apply andb_true_iff in Hd as [_ Hd].
    apply andb_true_iff in Hd as [Hc' _].
    unfold parse_magnitude.
    destruct (Ascii.eqb_spec c "0") as [->|Hc0].
    - destruct (Ascii.eqb_spec c' "x") as [->|Hx]; [discriminate|].
      destruct (Ascii.eqb_spec c' "X") as [->|HX]; [discriminate|].
      destruct c' as [[] [] [] [] [] [] [] []]; try reflexivity; congruence.
    - destruct c as [[] [] [] [] [] [] [] []]; try reflexivity; congruence. }
  rewrite E.
  rewrite <- (append_empty_r ds) at 1. rewrite parse_digits_app by exact Hd.
  destruct ds; [contradiction|]. reflexivity.
Qed.

(** Reading back the text of an integer. *)
Lemma parseInt_show_Z (z : Z) : parseInt (show_Z z) = Some z.
Proof.
  destruct (Z.lt_ge_cases z 0) as [Hneg|Hpos].
  - destruct (show_Z_neg z Hneg) as (ds & -> & Hd & Hne & Hv).
    change (parseInt (String "-" ds)) with (Z.opp <$> parse_magnitude ds).
    rewrite (parse_magnitude_digits ds Hd Hne). simpl. f_equal. lia.
  - destruct (show_Z_nonneg z Hpos) as (ds & -> & Hd & Hne & Hv).
    destruct ds as [|c ds]; [contradiction|].
    pose proof Hd as Hd0. simpl in Hd0. apply andb_true_iff in Hd0 as [Hc _].
    unfold parseInt. simpl trim_start. rewrite (digit_not_space c Hc).
    assert (E : match String c ds with
                | String "-" s' => Z.opp <$> parse_magnitude s'
                | String "+" s' => parse_magnitude s'
                | s' => parse_magnitude s'
                end = parse_magnitude (String c ds)).
    { destruct c as [[] [] [] [] [] [] [] []]; try reflexivity; discriminate. }
    rewrite E, (parse_magnitude_digits _ Hd Hne).
    f_equal. exact Hv.
Qed.

Lemma show_Z_inj (a b : Z) : show_Z a = show_Z b -> a = b.
Proof.
  intros E. pose proof (parseInt_show_Z a) as Ha. rewrite E, parseInt_show_Z in Ha.
  congruence.
Qed.

End Decimal.

(** * Delivery and the send log *)

Section Delivery.

Import Store Bot Examples.

Lemma logSend_appends (kind : string) (data : SendData) (now : Z) (d : Db) :
  exists e, send_logs (logSend kind data now d) = send_logs d ++ [e]
            /\ sl_id e = seq_send_logs d + 1
            /\ sl_kind e = kind
            /\ sl_status e = default "success" (Js.or_null (sd_status data))
            /\ sl_error e = Js.or_null (sd_error data)
            /\ sl_message_id e = Js.or_null (sd_message_id data)
            /\ sl_ref_id e = Js.or_null_int (sd_ref_id data)
            /\ sl_retry_count e = default 0 (Js.or_null_int (sd_retry_count data))
            /\ sl_content e = Js.or_null (sd_content data)
            /\ sl_channel_id e = Js.or_null (sd_channel_id data).
Proof. eexists. repeat split; reflexivity. Qed.

Lemma logSend_other_tables (kind : string) (data : SendData) (now : Z) (d : Db) :
  tasks (logSend kind data now d) = tasks d
  /\ reminders (logSend kind data now d) = reminders d
  /\ activity_logs (logSend kind data now d) = activity_logs d
  /\ log_rotation (logSend kind data now d) = log_rotation d.
Proof. repeat split. Qed.

(** The status written for a delivered message is the text ["sent"]. *)
Lemma delivered_status_text (j : CronJob) (message_id : string) (now : Z) (b : State) :
  channel_cached (job_channel j) b = true ->
  exists e,
    send_logs (db (run_callback j (Delivered message_id) now b))
    = send_logs (db b) ++ [e]
    /\ sl_status e = "sent".
Proof.
  intros H. unfold run_callback. rewrite H. eexists. split; reflexivity.
Qed.

(** C1, as stated, fails: a running trigger fires while its channel is not
    in the cache, the send would succeed, and no send-log entry appears. *)
Lemma fire_unresolved_channel_logs_nothing :
  job_running <$> jobs unresolved_state !! 0%nat = Some true
  /\ send_logs (db (fire 0 (Delivered "msg-1") 1704110400000 unresolved_state))
     = send_logs (db unresolved_state)
  /\ send_logs (db (snd (send_once (Some "secret") "hello" "chan-9"
                           (Delivered "msg-1") 1704110400000 unresolved_state)))
     = send_logs (db unresolved_state).
Proof.
  repeat split; reflexivity.
Qed.

(** C1, amended: when the target channel resolves, a firing trigger and an
    authorised POST /send-once each append exactly one send-log entry: with
    the message reference when the send succeeds, with [status = failed]
    and the error text when it fails.  When the channel does not resolve,
    nothing is appended (and /send-once answers 404). *)
Theorem delivery_appends_one_entry_when_channel_resolves
    (b : State) (now : Z) (out : SendOutcome) (h : nat) (j : CronJob)
    (token : option string) (content channel_id : string) :
  jobs b !! h = Some j ->
  job_running j = true ->
  token_ok token b = true ->
  (if channel_cached (job_channel j) b then
     exists e,
       send_logs (db (fire h out now b)) = send_logs (db b) ++ [e]
       /\ sl_kind e = kind_name (job_kind j)
       /\ sl_ref_id e = Js.or_null_int (job_ref j)
       /\ match out with
          | Delivered message_id =>
              sl_message_id e = Js.or_null (Some message_id) /\ sl_error e = None
          | Rejected error_message =>
              sl_status e = "failed" /\ sl_error e = Js.or_null (Some error_message)
          end
   else send_logs (db (fire h out now b)) = send_logs (db b))
  /\
  (if channel_cached channel_id b then
     exists e,
       send_logs (db (snd (send_once token content channel_id out now b)))
       = send_logs (db b) ++ [e]
       /\ sl_kind e = "send_once"
       /\ match out with
          | Delivered message_id =>
              sl_message_id e = Js.or_null (Some message_id) /\ sl_error e = None
          | Rejected error_message =>
              sl_status e = "failed" /\ sl_error e = Js.or_null (Some error_message)
          end
   else send_once token content channel_id out now b
        = ({| http_status := 404; http_body := ErrorBody "Channel not found" |}, b)).
Proof.
  intros Hj Hrun Htok. split.
  - unfold fire. rewrite Hj, Hrun. unfold run_callback.
    destruct (channel_cached (job_channel j) b); [|reflexivity].
    destruct out; eexists; repeat split; reflexivity.
  - unfold send_once. rewrite Htok. simpl.
    destruct (channel_cached channel_id b); [|reflexivity].
    destruct out; eexists; repeat split; reflexivity.
Qed.

Lemma delivery_appends_one_entry_witness :
  (exists e,
     send_logs (db (fire 0 (Rejected "Missing Permissions") 1704110400000 resolved_state))
     = send_logs (db resolved_state) ++ [e]
     /\ sl_status e = "failed" /\ sl_error e = Some "Missing Permissions")
  /\ length (send_logs (db (snd (send_once (Some "secret") "hello" "chan-1"
                                   (Delivered "msg-1") 1704110400000 resolved_state))))
     = 1%nat.
Proof.
  destruct (delivery_appends_one_entry_when_channel_resolves resolved_state
              1704110400000 (Rejected "Missing Permissions") 0
              (set_running true
                 {| job_kind := KReminder; job_ref := Some 1; job_content := "stand-up";
                    job_channel := "chan-1"; job_user := "user-1";
                    job_time := "09:00"; job_days := None; job_running := false |})
              (Some "secret") "hello" "chan-1"
              eq_refl eq_refl eq_refl) as [Hfire _].
  split.
  - destruct Hfire as (e & He & _ & _ & Hs & Herr). exists e. auto.
  - reflexivity.
Defined.

End Delivery.

(** * Rotation *)

Section Rotation.

Import Store Examples Props.

(** With nothing below the cutoff text, rotation returns 0 and leaves the
    store as it is. *)
Lemma rotateLogs_nothing_to_rotate (maxAge now : Z) (d : Db) :
  List.filter (send_older (cutoff_text maxAge now)) (send_logs d) = [] ->
  List.filter (activity_older (cutoff_text maxAge now)) (activity_logs d) = [] ->
  rotateLogs maxAge now d = (0, d).
Proof.
  intros Hs Ha. unfold rotateLogs. fold (cutoff_text maxAge now).
  rewrite Hs, Ha. reflexivity.
Qed.

(** Otherwise it removes from both tables exactly the rows whose text is
    below the cutoff text, adds one marker carrying their number, and
    returns that number. *)
Lemma rotateLogs_removes_below_cutoff_text (maxAge now : Z) (d : Db) :
  let cutoff := cutoff_text maxAge now in
  let n := Z.of_nat (length (List.filter (send_older cutoff) (send_logs d)))
           + Z.of_nat (length (List.filter (activity_older cutoff) (activity_logs d))) in
  n <> 0 ->
  let '(archived, d') := rotateLogs maxAge now d in
  archived = n
  /\ send_logs d' = List.filter (fun r => negb (send_older cutoff r)) (send_logs d)
  /\ activity_logs d'
     = List.filter (fun r => negb (activity_older cutoff r)) (activity_logs d)
  /\ (exists m, log_rotation d' = log_rotation d ++ [m]
                /\ rm_records_archived m = n
                /\ rm_table_name m = "logs_combined")
  /\ tasks d' = tasks d /\ reminders d' = reminders d.
Proof.
  intros cutoff n Hn. unfold rotateLogs. fold (cutoff_text maxAge now).
  fold cutoff. fold n. destruct (Z.eqb_spec n 0) as [E|_]; [contradiction|].
  repeat split. eexists. repeat split.
Qed.

(** C6 at the failing input: the only send-log entry was written on
    2024-01-01 at 12:00:00; rotation runs on 2024-01-31 at 10:00:00 with
    [maxAge = 30], so the cutoff is 2024-01-01 at 10:00:00, two hours
    before the entry.  The entry is counted and deleted all the same: its
    stored text is below the cutoff text. *)
Theorem rotateLogs_deletes_entry_newer_than_cutoff :
  let now := 1706695200000 in
  let cutoff := Clock.minus_days now 30 in
  (exists e, send_logs noon_entry_db = [e]
             /\ sl_sent_at e = "2024-01-01 12:00:00"
             /\ Clock.Date_getTime (sl_sent_at e) = Some 1704110400000)
  /\ cutoff = 1704103200000
  /\ Clock.toISOString cutoff = "2024-01-01T10:00:00.000Z"
  /\ fst (rotateLogs 30 now noon_entry_db) = 1
  /\ send_logs (snd (rotateLogs 30 now noon_entry_db)) = [].
Proof.
  cbv zeta. split; [eexists; repeat split; vm_compute; reflexivity|].
  repeat split; vm_compute; reflexivity.
Qed.

End Rotation.

(** * Retry *)

Section RetryFacts.

Import Store Examples.

Lemma call_bot_failure_or_append (tok : option string) (content channel_id : string)
    (reachable : bool) (out : Bot.SendOutcome) (now : Z) (b : Bot.State) :
  Retry.http_status (fst (Retry.call_bot tok content channel_id reachable out now b)) = 200 ->
  exists e,
    send_logs (Bot.db (snd (Retry.call_bot tok content channel_id reachable out now b)))
    = send_logs (Bot.db b) ++ [e]
    /\ sl_kind e = "send_once" /\ sl_ref_id e = None /\ sl_retry_count e = 0
    /\ sl_status e = "sent"
    /\ tasks (Bot.db (snd (Retry.call_bot tok content channel_id reachable out now b)))
       = tasks (Bot.db b)
    /\ reminders (Bot.db (snd (Retry.call_bot tok content channel_id reachable out now b)))
       = reminders (Bot.db b)
    /\ activity_logs (Bot.db (snd (Retry.call_bot tok content channel_id reachable out now b)))
       = activity_logs (Bot.db b).
Proof.
  unfold Retry.call_bot, Bot.send_once.
  destruct reachable; [|discriminate].
  destruct (Bot.token_ok tok b); [|discriminate]. simpl negb. cbv iota.
  destruct (Bot.channel_cached channel_id b); [|discriminate]. simpl negb. cbv iota.
  destruct out; [|discriminate].
  intros _. eexists. repeat split; reflexivity.
Qed.

(** Every way the route can answer 200 goes through one call of the bot's
    /send-once. *)
Lemma POST_success_appends (token LOGS_TOKEN : option string) (id : string)
    (reachable : bool) (out : Bot.SendOutcome) (now : Z) (b : Bot.State) :
  Retry.http_status (fst (Retry.POST token LOGS_TOKEN id reachable out now b)) = 200 ->
  exists e,
    send_logs (Bot.db (snd (Retry.POST token LOGS_TOKEN id reachable out now b)))
    = send_logs (Bot.db b) ++ [e]
    /\ sl_kind e = "send_once" /\ sl_ref_id e = None /\ sl_retry_count e = 0
    /\ sl_status e = "sent"
    /\ tasks (Bot.db (snd (Retry.POST token LOGS_TOKEN id reachable out now b)))
       = tasks (Bot.db b)
    /\ reminders (Bot.db (snd (Retry.POST token LOGS_TOKEN id reachable out now b)))
       = reminders (Bot.db b)
    /\ activity_logs (Bot.db (snd (Retry.POST token LOGS_TOKEN id reachable out now b)))
       = activity_logs (Bot.db b).
Proof.
  unfold Retry.POST.
  destruct (Retry.token_ok token LOGS_TOKEN); [|discriminate]. simpl negb. cbv iota.
  destruct (Js.parseInt id) as [logId|]; [|discriminate].
  destruct (get_failed_send_log logId (Bot.db b)) as [log|]; [|discriminate].
  destruct (String.eqb (sl_kind log) "reminder").
  - destruct (Js.or_null_int (sl_ref_id log)) as [ref|]; [|discriminate].
    destruct (get_reminder ref (Bot.db b)); [|discriminate].
    apply call_bot_failure_or_append.
  - destruct (String.eqb (sl_kind log) "task"); [|discriminate].
    destruct (Js.or_null_int (sl_ref_id log)) as [ref|]; [|discriminate].
    destruct (get_task ref (Bot.db b)); [|discriminate].
    apply call_bot_failure_or_append.
Qed.

Lemma get_failed_send_log_none (logId : Z) (d : Db) :
  get_failed_send_log logId d = None <->
  (forall r, In r (send_logs d) -> sl_id r = logId -> sl_status r <> "failed").
Proof.
  unfold get_failed_send_log. split.
  - intros H r Hin Hid Hst.
    pose proof (find_none _ _ H r Hin) as Hf. cbv beta in Hf.
    rewrite Hid, Z.eqb_refl, Hst in Hf. discriminate.
  - intros H. destruct (find _ _) as [r|] eqn:E; [|reflexivity].
    apply find_some in E as [Hin Hc].
    apply andb_true_iff in Hc as [Hid Hst].
    apply Z.eqb_eq in Hid. apply String.eqb_eq in Hst.
    exfalso. exact (H r Hin Hid Hst).
Qed.

Lemma get_failed_send_log_some (logId : Z) (d : Db) (log : SendLog) :
  get_failed_send_log logId d = Some log ->
  In log (send_logs d) /\ sl_id log = logId /\ sl_status log = "failed".
Proof.
  unfold get_failed_send_log. intros E.
  apply find_some in E as [Hin Hc].
  apply andb_true_iff in Hc as [Hid Hst].
  apply Z.eqb_eq in Hid. apply String.eqb_eq in Hst. auto.
Qed.

(** C5: for an authorised request with a numeric id, the route answers
    404 unless a send-log entry with that id and [status = failed] exists;
    400 when the entry's kind is neither task nor reminder or its ref_id
    is null; 404 when the reminder or task its (non-zero) ref_id names is
    gone; none of
    these answers changes the state.  An answer of 200 comes with exactly
    one appended send-log entry, all earlier entries being as they were. *)
Theorem retry_failures_write_nothing_and_success_appends_one
    (token LOGS_TOKEN : option string) (id : string) (logId : Z)
    (reachable : bool) (out : Bot.SendOutcome) (now : Z) (b : Bot.State) :
  Retry.token_ok token LOGS_TOKEN = true ->
  Js.parseInt id = Some logId ->
  let resp := fst (Retry.POST token LOGS_TOKEN id reachable out now b) in
  let b' := snd (Retry.POST token LOGS_TOKEN id reachable out now b) in
  ((forall r, In r (send_logs (Bot.db b)) -> sl_id r = logId -> sl_status r <> "failed") ->
   Retry.http_status resp = 404 /\ b' = b)
  /\ (forall log, get_failed_send_log logId (Bot.db b) = Some log ->
      In log (send_logs (Bot.db b)) /\ sl_id log = logId /\ sl_status log = "failed"
      /\ ((sl_kind log <> "reminder" /\ sl_kind log <> "task") \/ sl_ref_id log = None ->
          Retry.http_status resp = 400 /\ b' = b)
      /\ (forall ref, sl_kind log = "reminder" -> sl_ref_id log = Some ref ->
          ref <> 0 -> get_reminder ref (Bot.db b) = None ->
          Retry.http_status resp = 404 /\ b' = b)
      /\ (forall ref, sl_kind log = "task" -> sl_ref_id log = Some ref ->
          ref <> 0 -> get_task ref (Bot.db b) = None ->
          Retry.http_status resp = 404 /\ b' = b))
  /\ (Retry.http_status resp = 200 ->
      exists e, send_logs (Bot.db b') = send_logs (Bot.db b) ++ [e]
                /\ tasks (Bot.db b') = tasks (Bot.db b)
                /\ reminders (Bot.db b') = reminders (Bot.db b)
                /\ activity_logs (Bot.db b') = activity_logs (Bot.db b)).
Proof.
  intros Htok Hid resp b'. split; [|split].
  - intros Hnone. apply get_failed_send_log_none in Hnone.
    subst resp b'. unfold Retry.POST. rewrite Htok, Hid, Hnone. split; reflexivity.
  - intros log Hlog.
    destruct (get_failed_send_log_some _ _ _ Hlog) as (Hin & Hlid & Hst).
    split; [exact Hin|]. split; [exact Hlid|]. split; [exact Hst|].
    subst resp b'. unfold Retry.POST. rewrite Htok, Hid, Hlog. simpl negb. cbv iota.
    split; [|split].
    + intros [[Hr Ht]|Hnull].
      * apply String.eqb_neq in Hr. apply String.eqb_neq in Ht.
        rewrite Hr, Ht. split; reflexivity.
      * rewrite Hnull. simpl.
        destruct (String.eqb (sl_kind log) "reminder"); [split; reflexivity|].
        destruct (String.eqb (sl_kind log) "task"); split; reflexivity.
    + intros ref Hk Hr Hnz Hnone. rewrite Hk, Hr. simpl String.eqb. cbv iota.
      destruct ref; [contradiction| |]; simpl; rewrite Hnone; split; reflexivity.
    + intros ref Hk Hr Hnz Hnone. rewrite Hk, Hr. simpl String.eqb. cbv iota.
      destruct ref; [contradiction| |]; simpl; rewrite Hnone; split; reflexivity.
  - intros H200. subst resp b'.
    destruct (POST_success_appends _ _ _ _ _ _ _ H200)
      as (e & He & _ & _ & _ & _ & Ht & Hr & Ha).
    exists e. auto.
Qed.

Lemma retry_witness :
  exists e,
    send_logs (Bot.db (snd (Retry.POST (Some "secret") (Some "secret") "1" true
                              (Bot.Delivered "msg-2") 1704120000000
                              failed_delivery_state)))
    = send_logs (Bot.db failed_delivery_state) ++ [e].
Proof.
  destruct (retry_failures_write_nothing_and_success_appends_one
              (Some "secret") (Some "secret") "1" 1 true (Bot.Delivered "msg-2")
              1704120000000 failed_delivery_state eq_refl eq_refl)
    as (_ & _ & Hok).
  destruct (Hok eq_refl) as (e & He & _). exists e. exact He.
Defined.

(** C10: the entry recorded by a successful retry has kind [send_once], a
    null ref_id and retry_count 0, whatever the failed entry was. *)
Theorem retry_entry_is_send_once_without_reference
    (token LOGS_TOKEN : option string) (id : string)
    (reachable : bool) (out : Bot.SendOutcome) (now : Z) (b : Bot.State) :
  Retry.http_status (fst (Retry.POST token LOGS_TOKEN id reachable out now b)) = 200 ->
  exists e,
    send_logs (Bot.db (snd (Retry.POST token LOGS_TOKEN id reachable out now b)))
    = send_logs (Bot.db b) ++ [e]
    /\ sl_kind e = "send_once" /\ sl_ref_id e = None /\ sl_retry_count e = 0.
Proof.
  intros H200.
  destruct (POST_success_appends _ _ _ _ _ _ _ H200) as (e & He & Hk & Hr & Hc & _).
  exists e. auto.
Qed.

Lemma retry_entry_witness :
  (exists log, get_failed_send_log 1 (Bot.db failed_delivery_state) = Some log
               /\ sl_kind log = "reminder" /\ sl_ref_id log = Some 1)
  /\ exists e,
       send_logs (Bot.db (snd (Retry.POST (Some "secret") (Some "secret") "1" true
                                 (Bot.Delivered "msg-2") 1704120000000
                                 failed_delivery_state)))
       = send_logs (Bot.db failed_delivery_state) ++ [e]
       /\ sl_kind e = "send_once" /\ sl_ref_id e = None /\ sl_retry_count e = 0.
Proof.
  split.
  - eexists. repeat split; reflexivity.
  - exact (retry_entry_is_send_once_without_reference
             (Some "secret") (Some "secret") "1" true (Bot.Delivered "msg-2")
             1704120000000 failed_delivery_state eq_refl).
Defined.

End RetryFacts.

(** * One page of the log listing *)

Section PageFacts.

Import Store Dashboard Examples Props.

Lemma slice0_length_gt {A : Type} (l : list A) (n : Z) :
  n < Z.of_nat (length (slice0 l (Some (n + 1)))) <-> n < Z.of_nat (length l).
Proof.
  unfold slice0. destruct (Z.ltb_spec (n + 1) 0).
  - rewrite length_take. lia.
  - rewrite length_take. lia.
Qed.

Lemma slice0_take {A : Type} (l : list A) (n : Z) :
  0 <= n -> slice0 l (Some n) = take (Z.to_nat n) l.
Proof.
  intros Hn. unfold slice0. destruct (Z.ltb_spec n 0); [lia|reflexivity].
Qed.

Lemma removelast_take_S {A : Type} (l : list A) (n : nat) :
  (n < length l)%nat -> removelast (take (S n) l) = take n l.
Proof. intros Hn. apply removelast_firstn. exact Hn. Qed.

Lemma last_take_S {A : Type} (l : list A) (n : nat) :
  (n < length l)%nat -> last (take (S n) l) = l !! n.
Proof.
  intros Hn. rewrite last_lookup, length_take.
  replace (Init.Nat.pred (S n `min` length l)) with n by lia.
  apply lookup_take_lt. lia.
Qed.

(** The shape of a page in terms of the merged rows. *)
Lemma queryLogs_shape (kind status channel_id q cursor : string) (l : Z) (d : Db) :
  let all := merged kind status channel_id q cursor d in
  let p := queryLogs kind status channel_id q cursor (Some l) d in
  (hasMore p = true <-> l < Z.of_nat (length all))
  /\ (hasMore p = false -> 0 <= l -> logs p = all /\ nextCursor p = None)
  /\ (hasMore p = true -> 1 <= l ->
      logs p = take (Z.to_nat l) all
      /\ exists r, all !! (Z.to_nat l - 1)%nat = Some r
                   /\ nextCursor p = Some (cursor_of r)).
Proof.
  intros all p.
  set (logs0 := slice0 all (Some (l + 1))).
  assert (Hp : p = {| logs := if l <? Z.of_nat (length logs0)
                              then removelast logs0 else logs0;
                      hasMore := l <? Z.of_nat (length logs0);
                      nextCursor :=
                        if l <? Z.of_nat (length logs0)
                        then cursor_of <$>
                             last (if l <? Z.of_nat (length logs0)
                                   then removelast logs0 else logs0)
                        else None |}) by reflexivity.
  assert (Hiff : (l <? Z.of_nat (length logs0)) = true <-> l < Z.of_nat (length all)).
  { rewrite Z.ltb_lt. apply slice0_length_gt. }
  clearbody p. subst p. cbn [hasMore logs nextCursor].
  destruct (l <? Z.of_nat (length logs0)) eqn:Hb.
  - split; [exact Hiff|]. split; [discriminate|].
    intros _ Hl. pose proof (proj1 Hiff eq_refl) as Hlen.
    assert (E0 : logs0 = take (S (Z.to_nat l)) all).
    { unfold logs0. rewrite slice0_take by lia. f_equal. lia. }
    rewrite E0, removelast_take_S by lia. split; [reflexivity|].
    assert (E : last (take (Z.to_nat l) all) = all !! (Z.to_nat l - 1)%nat).
    { replace (take (Z.to_nat l) all) with (take (S (Z.to_nat l - 1)) all)
        by (f_equal; lia).
      apply last_take_S. lia. }
    rewrite E.
    destruct (all !! (Z.to_nat l - 1)%nat) as [r|] eqn:Er.
    + exists r. split; reflexivity.
    + apply lookup_ge_None in Er. lia.
  - split; [exact Hiff|]. split; [|discriminate].
    intros _ Hl.
    assert (Hlen : Z.of_nat (length all) <= l).
    { destruct (Z.le_gt_cases (Z.of_nat (length all)) l) as [?|Hgt]; [assumption|].
      apply Hiff in Hgt. discriminate. }
    split; [|reflexivity].
    unfold logs0. rewrite slice0_take by lia. apply take_ge. lia.
Qed.

(** C3, as stated, fails: with two rows and [limit = 1] the page holds the
    newer row, [hasMore] is true, and [nextCursor] is built from that
    returned row, not from the second (dropped) row of the merged list. *)
Lemma nextCursor_is_not_built_from_the_dropped_row :
  hasMore (queryLogs "" "" "" "" "" (Some 1) two_entries_db) = true
  /\ cursor_of <$> merged "" "" "" "" "" two_entries_db !! 1%nat
     = Some "2024-01-01 12:00:00_1"
  /\ nextCursor (queryLogs "" "" "" "" "" (Some 1) two_entries_db)
     = Some "2024-01-01 13:00:00_2"
  /\ nextCursor (queryLogs "" "" "" "" "" (Some 1) two_entries_db)
     <> (cursor_of <$> merged "" "" "" "" "" two_entries_db !! 1%nat).
Proof.
  split; [vm_compute; reflexivity|].
  split; [vm_compute; reflexivity|].
  split; [vm_compute; reflexivity|].
  vm_compute. discriminate.
Qed.

(** C3, amended: [hasMore] is true iff the merged, filtered rows are more
    than [limit]; when it is true and [limit >= 1], the page is the first
    [limit] rows, the row after them is dropped, and [nextCursor] is the
    text [timestamp_id] of the last row of the page (row number
    [limit]). *)
Theorem hasMore_iff_more_rows_and_cursor_of_last_returned
    (kind status channel_id q cursor : string) (limit : Z) (d : Db) :
  (hasMore (queryLogs kind status channel_id q cursor (Some limit) d) = true
   <-> limit < Z.of_nat (length (merged kind status channel_id q cursor d)))
  /\ (1 <= limit ->
      hasMore (queryLogs kind status channel_id q cursor (Some limit) d) = true ->
      exists r extra rest,
        merged kind status channel_id q cursor d
        = logs (queryLogs kind status channel_id q cursor (Some limit) d)
          ++ extra :: rest
        /\ Z.of_nat (length (logs (queryLogs kind status channel_id q cursor
                                     (Some limit) d))) = limit
        /\ last (logs (queryLogs kind status channel_id q cursor (Some limit) d))
           = Some r
        /\ nextCursor (queryLogs kind status channel_id q cursor (Some limit) d)
           = Some (cursor_of r)).
Proof.
  destruct (queryLogs_shape kind status channel_id q cursor limit d)
    as (Hiff & _ & Hmore).
  cbv zeta in Hiff, Hmore. split; [exact Hiff|].
  intros Hl Ht. destruct (Hmore Ht Hl) as (Hlogs & r & Hr & Hc).
  pose proof (proj1 Hiff Ht) as Hlen.
  set (all := merged kind status channel_id q cursor d) in *.
  destruct (all !! Z.to_nat limit) as [extra|] eqn:Hx;
    [|apply lookup_ge_None in Hx; lia].
  exists r, extra, (drop (S (Z.to_nat limit)) all).
  rewrite Hlogs. split; [|split; [|split]].
  - rewrite <- (take_drop_middle all (Z.to_nat limit) extra Hx) at 1. reflexivity.
  - rewrite length_take. lia.
  - replace (take (Z.to_nat limit) all) with (take (S (Z.to_nat limit - 1)) all)
      by (f_equal; lia).
    rewrite last_take_S by lia. exact Hr.
  - exact Hc.
Qed.

Lemma hasMore_and_cursor_witness :
  exists r extra rest,
    merged "" "" "" "" "" two_entries_db
    = logs (queryLogs "" "" "" "" "" (Some 1) two_entries_db) ++ extra :: rest
    /\ last (logs (queryLogs "" "" "" "" "" (Some 1) two_entries_db)) = Some r
    /\ nextCursor (queryLogs "" "" "" "" "" (Some 1) two_entries_db)
       = Some (cursor_of r).
Proof.
  destruct (hasMore_iff_more_rows_and_cursor_of_last_returned
              "" "" "" "" "" 1 two_entries_db) as [_ H].
  destruct (H (Z.le_refl 1) eq_refl) as (r & extra & rest & H1 & _ & H3 & H4).
  exists r, extra, rest. auto.
Defined.

End PageFacts.

(** * The scheduler registry *)

Section Scheduler.

Import Store Bot Examples Props.

(** A number never prints as ["undefined"]. *)
Lemma show_id_inj (a b : option Z) : Js.show_id a = Js.show_id b -> a = b.
Proof.
  destruct a as [a|], b as [b|]; simpl; intros E.
  - f_equal. exact (show_Z_inj _ _ E).
  - pose proof (parseInt_show_Z a) as H. rewrite E in H. vm_compute in H. discriminate.
  - pose proof (parseInt_show_Z b) as H. rewrite <- E in H. vm_compute in H. discriminate.
  - reflexivity.
Qed.

Lemma reminder_key_inj (a b : option Z) : reminder_key a = reminder_key b -> a = b.
Proof.
  unfold reminder_key. simpl. intros E. injection E as E. exact (show_id_inj _ _ E).
Qed.

Lemma task_key_inj (a b : option Z) : task_key a = task_key b -> a = b.
Proof.
  unfold task_key. simpl. intros E. injection E as E. exact (show_id_inj _ _ E).
Qed.

Lemma job_key_inj (k k' : Kind) (a b : option Z) :
  job_key k a = job_key k' b -> k = k' /\ a = b.
Proof.
  destruct k, k'; simpl; intros E.
  - split; [reflexivity|exact (reminder_key_inj _ _ E)].
  - unfold reminder_key, task_key in E. simpl in E. discriminate.
  - unfold reminder_key, task_key in E. simpl in E. discriminate.
  - split; [reflexivity|exact (task_key_inj _ _ E)].
Qed.

(** Registration adds one running task object at the end of [jobs] and
    points the key at it; nothing else is touched. *)
Lemma register_shape (k : Kind) (id : option Z) (content channelId userId time : string)
    (days : option string) (b : State) :
  exists j,
    jobs (register k id content channelId userId time days b) = jobs b ++ [j]
    /\ job_running j = true /\ job_kind j = k /\ job_ref j = id
    /\ cronJobs (register k id content channelId userId time days b)
       = <[job_key k id := length (jobs b)]> (cronJobs b)
    /\ db (register k id content channelId userId time days b) = db b.
Proof.
  assert (Halter : forall j0 : CronJob,
             alter (set_running true) (length (jobs b)) (jobs b ++ [set_running false j0])
             = jobs b ++ [set_running true j0]).
  { intros j0. rewrite <- (Nat.add_0_r (length (jobs b))) at 1.
    rewrite alter_app_r. reflexivity. }
  destruct k; unfold register, scheduleReminder, scheduleTask, cron_schedule, job_start;
    cbn [jobs cronJobs db with_jobs with_cronJobs emit fst snd];
    rewrite Halter; eexists; repeat split.
Qed.

Lemma live_triggers_snoc (k k' : Kind) (id id' : option Z) (b b' : State) (j : CronJob) :
  jobs b' = jobs b ++ [j] ->
  job_running j = true -> job_kind j = k -> job_ref j = id ->
  live_triggers k' id' b'
  = live_triggers k' id' b
    ++ (if same_kind k k' && bool_decide (id = id') then [length (jobs b)] else []).
Proof.
  intros Hj Hrun Hk Hid. unfold live_triggers.
  rewrite Hj, length_app. simpl length.
  rewrite Nat.add_1_r, seq_S, List.filter_app. f_equal.
  - apply List.filter_ext_in. intros h Hin. apply in_seq in Hin.
    rewrite lookup_app_l by lia. reflexivity.
  - simpl. rewrite list_lookup_middle by reflexivity.
    rewrite Hrun, Hk, Hid. simpl.
    destruct k, k'; simpl; try reflexivity; destruct (bool_decide (id = id')); reflexivity.
Qed.

(** C4, as stated, fails: registering reminder 1 a second time leaves the
    first trigger running beside the new one, and both deliver when the
    scheduled instant comes. *)
Lemma reregistering_leaves_two_live_triggers :
  live_triggers KReminder (Some 1) resolved_state = [0%nat]
  /\ live_triggers KReminder (Some 1) registered_twice_state = [0%nat; 1%nat]
  /\ cronJobs registered_twice_state !! reminder_key (Some 1) = Some 1%nat
  /\ length (send_logs (db (fire 1 (Delivered "msg-2") 1704099600000
                              (fire 0 (Delivered "msg-1") 1704099600000
                                 registered_twice_state)))) = 2%nat.
Proof. repeat split; vm_compute; reflexivity. Qed.

(** Two reminders added through the slash command are both registered with
    [undefined] for the id: they share one key, the entry points at the
    second trigger, and both triggers run. *)
Example added_reminders_share_one_key :
  List.map rem_id (reminders (db two_reminders_state)) = [1; 2]
  /\ map_to_list (cronJobs two_reminders_state) = [("reminder_undefined", 1%nat)]
  /\ live_triggers KReminder None two_reminders_state = [0%nat; 1%nat]
  /\ List.map al_ref_id (activity_logs (db two_reminders_state)) = [None; None].
Proof. repeat split; vm_compute; reflexivity. Qed.

(** C4, amended: registering [(kind, id)] with a time and days that pass
    the checks of the slash commands, so that the cron library accepts the
    pattern, points the registry entry of its key at the new trigger and
    starts it; no trigger is cancelled: the triggers that were live for
    [(kind, id)] stay live, with the new one added, and every other key's
    entry and live triggers are as before. *)
Theorem register_replaces_entry_and_keeps_triggers_live
    (k : Kind) (id : option Z) (content channelId userId time : string)
    (days : option string) (b : State) :
  schedulable k time days = true ->
  cronJobs (register k id content channelId userId time days b) !! job_key k id
  = Some (length (jobs b))
  /\ live_triggers k id (register k id content channelId userId time days b)
     = live_triggers k id b ++ [length (jobs b)]
  /\ forall k' id',
       (k', id') <> (k, id) ->
       cronJobs (register k id content channelId userId time days b) !! job_key k' id'
       = cronJobs b !! job_key k' id'
       /\ live_triggers k' id' (register k id content channelId userId time days b)
          = live_triggers k' id' b.
Proof.
  intros _.
  destruct (register_shape k id content channelId userId time days b)
    as (j & Hj & Hrun & Hk & Hid & Hm & _).
  split; [|split].
  - rewrite Hm. apply lookup_insert_eq.
  - rewrite (live_triggers_snoc k k id id b _ j Hj Hrun Hk Hid).
    rewrite bool_decide_eq_true_2 by reflexivity. destruct k; reflexivity.
  - intros k' id' Hne. split.
    + rewrite Hm. apply lookup_insert_ne. intros E.
      apply job_key_inj in E as [-> ->]. contradiction.
    + rewrite (live_triggers_snoc k k' id id' b _ j Hj Hrun Hk Hid).
      destruct (same_kind k k' && bool_decide (id = id')) eqn:E; [|apply app_nil_r].
      apply andb_true_iff in E as [Ek Ei]. apply bool_decide_eq_true_1 in Ei.
      destruct k, k'; try discriminate; subst; contradiction.
Qed.

Lemma register_witness :
  live_triggers KReminder (Some 1) registered_twice_state
  = live_triggers KReminder (Some 1) resolved_state ++ [1%nat]
  /\ live_triggers KTask (Some 1) registered_twice_state
     = live_triggers KTask (Some 1) resolved_state.
Proof.
  destruct (register_replaces_entry_and_keeps_triggers_live
              KReminder (Some 1) "stand-up" "chan-1" "user-1" "09:00" None
              resolved_state eq_refl)
    as (_ & Hlive & Hother).
  split; [exact Hlive|].
  refine (proj2 (Hother KTask (Some 1) _)). discriminate.
Defined.

End Scheduler.

(** * Validation at the entry points, and deletion *)

Section Commands.

Import Store Bot Examples Props.

(** The slash command for tasks answers an invalid time without touching
    the store or the registry. *)
Lemma handleAddTask_rejects_time (ia : Interaction) (content time : string)
    (days : option string) (now : Z) (b : State) :
  timeRegex_test time = false ->
  handleAddTask ia content time days now b = emit (EvReply InvalidTimeFormat) b.
Proof. intros H. unfold handleAddTask. rewrite H. reflexivity. Qed.

(** It answers an invalid day list likewise. *)
Lemma handleAddTask_rejects_days (ia : Interaction) (content time days : string)
    (now : Z) (b : State) :
  timeRegex_test time = true ->
  days <> EmptyString ->
  validDays days = false ->
  handleAddTask ia content time (Some days) now b = emit (EvReply InvalidDaysFormat) b.
Proof.
  intros Ht Hne Hd. unfold handleAddTask. rewrite Ht. simpl negb. cbv iota.
  destruct days as [|c days]; [contradiction|].
  change (Js.or_null (Some (String c days))) with (Some (String c days)).
  cbv iota. rewrite Hd. reflexivity.
Qed.

(** So does the slash command for reminders. *)
Lemma handleAddReminder_rejects_time (ia : Interaction) (content time : string)
    (now : Z) (b : State) :
  timeRegex_test time = false ->
  handleAddReminder ia content time now b = emit (EvReply InvalidTimeFormat) b.
Proof. intros H. unfold handleAddReminder. rewrite H. reflexivity. Qed.

Lemma in_range_digit_cases (c lo hi : ascii) :
  in_range c lo hi = true ->
  48 <= Z.of_N (N_of_ascii lo) -> Z.of_N (N_of_ascii hi) <= 57 ->
  exists d, 0 <= d <= 9 /\ c = Js.digit_char d
            /\ Z.of_N (N_of_ascii lo) - 48 <= d <= Z.of_N (N_of_ascii hi) - 48.
Proof.
  unfold in_range. cbv zeta. intros H Hlo Hhi.
  apply andb_true_iff in H as [H1 H2]. apply Z.leb_le in H1, H2.
  exists (Z.of_N (N_of_ascii c) - 48). split; [lia|]. split; [|lia].
  unfold Js.digit_char.
  replace (Z.of_N (N_of_ascii c) - 48 + 48) with (Z.of_N (N_of_ascii c)) by lia.
  rewrite N2Z.id, ascii_N_embedding. reflexivity.
Qed.

Lemma is_digit_cases (c : ascii) :
  Js.is_digit c = true -> exists d, 0 <= d <= 9 /\ c = Js.digit_char d.
Proof.
  intros H. destruct (in_range_digit_cases c "0" "9") as (d & Hd & Hc & _).
  - exact H.
  - vm_compute. discriminate.
  - vm_compute. discriminate.
  - exists d. auto.
Qed.

Ltac digit_cases d H :=
  let E := fresh "E" in
  assert (E : d = 0 \/ d = 1 \/ d = 2 \/ d = 3 \/ d = 4 \/ d = 5 \/ d = 6
              \/ d = 7 \/ d = 8 \/ d = 9) by lia;
  clear H; repeat (destruct E as [E|E]); subst d.

(** What the time pattern accepts: one or two hour digits up to 23, a
    colon, two minute digits up to 59. *)
Lemma timeRegex_test_sound (time : string) :
  timeRegex_test time = true ->
  exists hh mm,
    Js.split ":" time = [hh; mm]
    /\ (exists h, Js.parseInt hh = Some h /\ 0 <= h <= 23)
    /\ (exists m, Js.parseInt mm = Some m /\ 0 <= m <= 59).
Proof.
  unfold timeRegex_test.
  destruct time as [|a [|b [|c [|d [|e [|f time]]]]]];
    cbn [list_ascii_of_string]; try discriminate.
  - rewrite !andb_true_iff. intros (((Ha & Hb) & Hc) & Hd).
    apply Ascii.eqb_eq in Hb. subst b.
    apply is_digit_cases in Ha as (x & Hx & ->).
    apply is_digit_cases in Hd as (y & Hy & ->).
    apply in_range_digit_cases in Hc as (z & Hz & -> & Hz');
      [|vm_compute; discriminate|vm_compute; discriminate].
    change (Z.of_N (N_of_ascii "0") - 48) with 0 in Hz'.
    change (Z.of_N (N_of_ascii "5") - 48) with 5 in Hz'.
    assert (Hz2 : 0 <= z <= 5) by lia. clear Hz Hz'.
    digit_cases x Hx; digit_cases y Hy;
      assert (Ez : z = 0 \/ z = 1 \/ z = 2 \/ z = 3 \/ z = 4 \/ z = 5) by lia;
      clear Hz2; repeat (destruct Ez as [Ez|Ez]); subst z;
      do 2 eexists; (split; [reflexivity|]);
      split; eexists; (split; [vm_compute; reflexivity|split; vm_compute; discriminate]).
  - rewrite !andb_true_iff, orb_true_iff, !andb_true_iff.
    intros (((Hh & Hc) & Hd) & He).
    apply Ascii.eqb_eq in Hc. subst c.
    apply is_digit_cases in He as (y & Hy & ->).
    apply in_range_digit_cases in Hd as (z & Hz & -> & Hz');
      [|vm_compute; discriminate|vm_compute; discriminate].
    change (Z.of_N (N_of_ascii "0") - 48) with 0 in Hz'.
    change (Z.of_N (N_of_ascii "5") - 48) with 5 in Hz'.
    assert (Hz2 : 0 <= z <= 5) by lia. clear Hz Hz'.
    destruct Hh as [[Ha Hb]|[Ha Hb]].
    + apply in_range_digit_cases in Ha as (u & Hu & -> & Hu');
        [|vm_compute; discriminate|vm_compute; discriminate].
      change (Z.of_N (N_of_ascii "0") - 48) with 0 in Hu'.
      change (Z.of_N (N_of_ascii "1") - 48) with 1 in Hu'.
      apply is_digit_cases in Hb as (x & Hx & ->).
      assert (Eu : u = 0 \/ u = 1) by lia. clear Hu Hu'.
      destruct Eu; subst u; digit_cases x Hx; digit_cases y Hy;
        assert (Ez : z = 0 \/ z = 1 \/ z = 2 \/ z = 3 \/ z = 4 \/ z = 5) by lia;
        clear Hz2; repeat (destruct Ez as [Ez|Ez]); subst z;
        do 2 eexists; (split; [reflexivity|]);
        split; eexists; (split; [vm_compute; reflexivity|split; vm_compute; discriminate]).
    + apply Ascii.eqb_eq in Ha. subst a.
      apply in_range_digit_cases in Hb as (x & Hx & -> & Hx');
        [|vm_compute; discriminate|vm_compute; discriminate].
      change (Z.of_N (N_of_ascii "0") - 48) with 0 in Hx'.
      change (Z.of_N (N_of_ascii "3") - 48) with 3 in Hx'.
      assert (Ex : x = 0 \/ x = 1 \/ x = 2 \/ x = 3) by lia. clear Hx Hx'.
      repeat (destruct Ex as [Ex|Ex]); subst x; digit_cases y Hy;
        assert (Ez : z = 0 \/ z = 1 \/ z = 2 \/ z = 3 \/ z = 4 \/ z = 5) by lia;
        clear Hz2; repeat (destruct Ez as [Ez|Ez]); subst z;
        do 2 eexists; (split; [reflexivity|]);
        split; eexists; (split; [vm_compute; reflexivity|split; vm_compute; discriminate]).
Qed.

(** C7 at the failing input: an authorised POST /add-reminder with time
    ["25:99"], which the slash command's pattern refuses, inserts the
    reminder row all the same; so does POST /add-task with the day token
    ["9"].  The slash commands leave the tables empty on these inputs, but
    the task command takes a day token such as ["1abc"], of which
    [parseInt] reads the leading digit. *)
Theorem http_add_persists_invalid_time_and_days :
  timeRegex_test "25:99" = false
  /\ validDays "9" = false
  /\ List.map rem_time
       (reminders (db (snd (add_reminder (Some "secret") "stand-up" "chan-1"
                              "user-1" "25:99" 1704100000000 fresh_state))))
     = ["25:99"]
  /\ List.map task_days
       (tasks (db (snd (add_task (Some "secret") "review" "chan-1" "user-1"
                          "09:00" (Some "9") 1704100000000 fresh_state))))
     = [Some "9"]
  /\ reminders (db (handleAddReminder alice "stand-up" "25:99" 1704100000000
                      fresh_state)) = []
  /\ tasks (db (handleAddTask alice "review" "09:00" (Some "9") 1704100000000
                  fresh_state)) = []
  /\ List.map task_days
       (tasks (db (handleAddTask alice "review" "09:00" (Some "1abc")
                     1704100000000 fresh_state)))
     = [Some "1abc"].
Proof. repeat split; vm_compute; reflexivity. Qed.

Lemma get_reminder_of_none (id : Z) (user : string) (d : Db) :
  get_reminder_of id user d = None <->
  (forall r, In r (reminders d) -> ~ (rem_id r = id /\ rem_user_id r = user)).
Proof.
  unfold get_reminder_of. split.
  - intros H r Hin [Hid Hu].
    pose proof (find_none _ _ H r Hin) as Hf. cbv beta in Hf.
    rewrite Hid, Z.eqb_refl, Hu, String.eqb_refl in Hf. discriminate.
  - intros H. destruct (find _ _) as [r|] eqn:E; [|reflexivity].
    apply find_some in E as [Hin Hc].
    apply andb_true_iff in Hc as [Hid Hu].
    apply Z.eqb_eq in Hid. apply String.eqb_eq in Hu.
    exfalso. exact (H r Hin (conj Hid Hu)).
Qed.

Lemma delete_reminder_removes (id : Z) (d : Db) :
  (forall r, In r (reminders (delete_reminder id d)) -> rem_id r <> id)
  /\ (forall r, In r (reminders d) -> rem_id r <> id ->
       In r (reminders (delete_reminder id d))).
Proof.
  unfold delete_reminder. cbn [reminders with_reminders]. split.
  - intros r Hin. apply filter_In in Hin as [_ H].
    apply negb_true_iff, Z.eqb_neq in H. exact H.
  - intros r Hin Hne. apply filter_In. split; [exact Hin|].
    apply negb_true_iff, Z.eqb_neq. exact Hne.
Qed.

(** What the command does in every state: it never answers not-found; it
    deletes the row of that id whoever owns it, stops and unregisters the
    trigger registered under the key of that id, if there is one, and then
    acknowledges with a text that has no content of a row in it.  These
    effects come in that order, the reply last. *)
Lemma handleDeleteReminder_shape (ia : Interaction) (reminderId : Z) (now : Z)
    (b : State) :
  let b' := handleDeleteReminder ia reminderId now b in
  (forall r, In r (reminders (db b')) -> rem_id r <> reminderId)
  /\ cronJobs b' !! reminder_key (Some reminderId) = None
  /\ match cronJobs b !! reminder_key (Some reminderId) with
     | Some h =>
         (forall j, jobs b' !! h = Some j -> job_running j = false)
         /\ effects b'
            = effects b
              ++ [EvRowDeleted KReminder reminderId; EvJobStopped h;
                  EvReply (ReminderDeleted None reminderId)]
     | None =>
         jobs b' = jobs b
         /\ effects b'
            = effects b
              ++ [EvRowDeleted KReminder reminderId;
                  EvReply (ReminderDeleted None reminderId)]
     end.
Proof.
  intros b'. subst b'. unfold handleDeleteReminder, stmt_get, stmt_run, is_truthy, column.
  cbn [negb emit with_db db cronJobs jobs effects].
  destruct (cronJobs b !! reminder_key (Some reminderId)) as [h|] eqn:Hk.
  - unfold job_stop.
    cbn [emit with_db with_cronJobs with_jobs db cronJobs jobs effects].
    split; [|split; [|split]].
    + apply (proj1 (delete_reminder_removes reminderId (db b))).
    + apply lookup_delete_eq.
    + intros j Hj. rewrite list_lookup_alter_eq in Hj.
      destruct (jobs b !! h); [|discriminate]. injection Hj as <-. reflexivity.
    + rewrite <- !app_assoc. reflexivity.
  - cbn [emit with_db with_cronJobs with_jobs db cronJobs jobs effects].
    split; [|split; [|split]].
    + apply (proj1 (delete_reminder_removes reminderId (db b))).
    + exact Hk.
    + reflexivity.
    + rewrite <- !app_assoc. reflexivity.
Qed.

(** A reminder loaded at start-up is registered under the key of its id:
    deleting it stops its trigger before the reply. *)
Example delete_after_load :
  cronJobs started_state !! reminder_key (Some 1) = Some 0%nat
  /\ effects (handleDeleteReminder alice 1 1704110000000 started_state)
     = effects started_state
       ++ [EvRowDeleted KReminder 1; EvJobStopped 0;
           EvReply (ReminderDeleted None 1)]
  /\ live_triggers KReminder (Some 1)
       (handleDeleteReminder alice 1 1704110000000 started_state) = [].
Proof. repeat split; vm_compute; reflexivity. Qed.

(** C8 at the failing input: reminder 1 was added by user-1 through the
    slash command; user-2 asks to delete reminder 1.  No row has that id
    and that caller as owner, yet the command does not answer not-found:
    it deletes user-1's row and acknowledges the deletion.  The value the
    handler tests is the statement object that [checkStmt.get] returned,
    not a row.  By the same use of a returned statement object the add
    command registered the trigger with [undefined] in place of the id, so
    that when the owner deletes reminder 1 the key of id 1 is not in the
    registry and the trigger stays running and keeps delivering. *)
Theorem handleDeleteReminder_deletes_row_of_another_caller :
  List.map (fun r => (rem_id r, rem_user_id r)) (reminders (db one_reminder_state))
  = [(1, "user-1")]
  /\ get_reminder_of 1 (ia_user bob) (db one_reminder_state) = None
  /\ reminders (db (handleDeleteReminder bob 1 1704110000000 one_reminder_state)) = []
  /\ effects (handleDeleteReminder bob 1 1704110000000 one_reminder_state)
     = effects one_reminder_state
       ++ [EvRowDeleted KReminder 1; EvReply (ReminderDeleted None 1)]
  /\ dom (cronJobs one_reminder_state) = ({[ "reminder_undefined" ]} : gset string)
  /\ job_running
       <$> jobs (handleDeleteReminder alice 1 1704110000000 one_reminder_state) !! 0%nat
     = Some true
  /\ List.map sl_content
       (send_logs (db (fire 0 (Delivered "msg-1") 1704186000000
                         (handleDeleteReminder alice 1 1704110000000
                            one_reminder_state))))
     = [Some (reminder_text "stand-up")].
Proof. repeat split; vm_compute; reflexivity. Qed.

End Commands.

(** * Column migrations *)

Section MigrationFacts.

Import Migration Props Facts Examples.

Lemma duplicate_message_is_ignored (c : string) :
  includes "duplicate column name" ("SQLITE_ERROR: duplicate column name: " ++ c)%string
  = true.
Proof. reflexivity. Qed.

Lemma has_column_app (c c' : string) (tb : Table) :
  has_column c tb = true ->
  has_column c {| columns := columns tb ++ [c']; rows := rows tb |} = true.
Proof.
  unfold has_column. cbn [columns]. rewrite existsb_app. intros ->. reflexivity.
Qed.

Lemma skipped_iff (m : Entry) (s : gmap string Table) :
  skipped m s <->
  (s !! table m = None
   /\ includes "duplicate column name"
        ("SQLITE_ERROR: no such table: " ++ table m)%string = true)
  \/ (exists tb, s !! table m = Some tb /\ has_column (column m) tb = true).
Proof.
  unfold skipped, add_column. destruct (s !! table m) as [tb|].
  - destruct (has_column (column m) tb) eqn:Hc.
    + split; [intros _; right; eauto|intros _; apply duplicate_message_is_ignored].
    + split; [contradiction|].
      intros [[? _]|(tb' & E & Hc')]; [discriminate|]. congruence.
  - split; [intros H; left; auto|].
    intros [[_ H]|(tb' & E & _)]; [exact H|discriminate].
Qed.

(** A successful ALTER TABLE keeps every entry that was skipped skipped. *)
Lemma skipped_after_add (m : Entry) (t c : string) (v : Value)
    (s s' : gmap string Table) :
  add_column t c v s = inr s' -> skipped m s -> skipped m s'.
Proof.
  rewrite !skipped_iff. unfold add_column. intros Hadd Hskip.
  destruct (s !! t) as [tb|] eqn:Ht; [|discriminate].
  destruct (has_column c tb) eqn:Hc; [discriminate|].
  injection Hadd as <-.
  destruct (decide (t = table m)) as [->|Hne].
  - right. rewrite lookup_insert_eq.
    destruct Hskip as [[E _]|(tb' & E & Hm)]; [congruence|].
    rewrite Ht in E. injection E as <-.
    eexists. split; [reflexivity|].
    unfold has_column in *. cbn [columns]. rewrite existsb_app, Hm. reflexivity.
  - rewrite lookup_insert_ne by exact Hne. exact Hskip.
Qed.

(** An entry whose statement succeeded is skipped from then on. *)
Lemma skipped_once_added (m : Entry) (s s' : gmap string Table) :
  add_column (table m) (column m) (default_value m) s = inr s' -> skipped m s'.
Proof.
  rewrite skipped_iff. unfold add_column. intros Hadd.
  destruct (s !! table m) as [tb|] eqn:Ht; [|discriminate].
  destruct (has_column (column m) tb) eqn:Hc; [discriminate|].
  injection Hadd as <-. right. rewrite lookup_insert_eq.
  eexists. split; [reflexivity|].
  unfold has_column. cbn [columns]. rewrite existsb_app. simpl.
  rewrite String.eqb_refl, orb_true_r. reflexivity.
Qed.

Lemma skipped_after_execute (m : Entry) (ms : list Entry) :
  forall s e s1,
    executeMigrations ms s = (e, s1) -> skipped m s -> skipped m s1.
Proof.
  induction ms as [|m' ms IH]; intros s e s1 Hex Hskip; simpl in Hex.
  - injection Hex as _ <-. exact Hskip.
  - destruct (add_column (table m') (column m') (default_value m') s)
      as [err|s'] eqn:Hadd.
    + destruct (includes "duplicate column name" (message err)).
      * exact (IH _ _ _ Hex Hskip).
      * injection Hex as _ <-. exact Hskip.
    + exact (IH _ _ _ Hex (skipped_after_add _ _ _ _ _ _ Hadd Hskip)).
Qed.

Lemma execute_skipped (ms : list Entry) (s : gmap string Table) :
  Forall (fun m => skipped m s) ms -> executeMigrations ms s = (None, s).
Proof.
  induction 1 as [|m ms Hm _ IH]; simpl; [reflexivity|].
  unfold skipped in Hm.
  destruct (add_column (table m) (column m) (default_value m) s) as [err|];
    [|contradiction].
  rewrite Hm. exact IH.
Qed.

(** After a run that called [resolve], every entry is skipped. *)
Lemma execute_resolved_all_skipped (ms : list Entry) :
  forall s s1,
    executeMigrations ms s = (None, s1) -> Forall (fun m => skipped m s1) ms.
Proof.
  induction ms as [|m ms IH]; intros s s1 Hex; [constructor|].
  simpl in Hex.
  destruct (add_column (table m) (column m) (default_value m) s)
    as [err|s'] eqn:Hadd.
  - destruct (includes "duplicate column name" (message err)) eqn:Hinc;
      [|discriminate].
    constructor; [|exact (IH _ _ Hex)].
    apply (skipped_after_execute m ms s None s1 Hex).
    unfold skipped. rewrite Hadd. exact Hinc.
  - constructor; [|exact (IH _ _ Hex)].
    apply (skipped_after_execute m ms s' None s1 Hex).
    exact (skipped_once_added _ _ _ Hadd).
Qed.

(** A second run over the state a first run left behaves like the first
    and leaves that state as it is. *)
Lemma executeMigrations_twice (ms : list Entry) :
  forall s e s1,
    executeMigrations ms s = (e, s1) -> executeMigrations ms s1 = (e, s1).
Proof.
  induction ms as [|m ms IH]; intros s e s1 Hex; simpl in Hex.
  - injection Hex as <- <-. reflexivity.
  - destruct (add_column (table m) (column m) (default_value m) s)
      as [err|s'] eqn:Hadd.
    + destruct (includes "duplicate column name" (message err)) eqn:Hinc.
      * assert (Hs : skipped m s1).
        { apply (skipped_after_execute m ms s e s1 Hex).
          unfold skipped. rewrite Hadd. exact Hinc. }
        simpl. unfold skipped in Hs.
        destruct (add_column (table m) (column m) (default_value m) s1);
          [|contradiction].
        rewrite Hs. exact (IH _ _ _ Hex).
      * injection Hex as <- <-. simpl. rewrite Hadd, Hinc. reflexivity.
    + assert (Hs : skipped m s1).
      { apply (skipped_after_execute m ms s' e s1 Hex).
        exact (skipped_once_added _ _ _ Hadd). }
      simpl. unfold skipped in Hs.
      destruct (add_column (table m) (column m) (default_value m) s1);
        [|contradiction].
      rewrite Hs. exact (IH _ _ _ Hex).
Qed.

(** The backfill keeps tables, columns and skipped entries. *)
Lemma skipped_after_update (m : Entry) (t c : string) (v : Value)
    (s : gmap string Table) :
  skipped m s -> skipped m (update_where_null t c v s).
Proof.
  rewrite !skipped_iff. unfold update_where_null. intros Hskip.
  destruct (s !! t) as [tb|] eqn:Ht; [|exact Hskip].
  destruct (has_column c tb) eqn:Hc; [|exact Hskip].
  destruct (decide (t = table m)) as [->|Hne].
  - right. rewrite lookup_insert_eq.
    destruct Hskip as [[E _]|(tb' & E & Hm)]; [congruence|].
    rewrite Ht in E. injection E as <-.
    eexists. split; [reflexivity|]. exact Hm.
  - rewrite lookup_insert_ne by exact Hne. exact Hskip.
Qed.

Lemma update_where_null_fixed (t c : string) (v : Value) (s : gmap string Table) :
  filled t c s -> update_where_null t c v s = s.
Proof.
  unfold filled, update_where_null. intros Hf.
  destruct (s !! t) as [tb|] eqn:Ht; [|reflexivity].
  destruct (has_column c tb) eqn:Hc; [|reflexivity].
  apply insert_id. rewrite Ht. f_equal. specialize (Hf _ eq_refl Hc).
  destruct tb as [cols rws]. cbn [columns rows] in *. f_equal.
  clear Ht Hc. induction Hf as [|r rws Hr _ IH]; [reflexivity|].
  rewrite fmap_cons, Hr, <- IH. reflexivity.
Qed.

Lemma filled_after_update (t c now : string) (s : gmap string Table) :
  filled t c (update_where_null t c (VText now) s).
Proof.
  unfold filled, update_where_null. intros tb Htb Hcol.
  destruct (s !! t) as [tb0|] eqn:Ht.
  - destruct (has_column c tb0) eqn:Hc.
    + rewrite lookup_insert_eq in Htb. injection Htb as <-. cbn [rows].
      apply Forall_fmap, Forall_forall. intros r _. cbn.
      destruct (is_null (r !! c)) eqn:Hn; [|exact Hn].
      rewrite lookup_insert_eq. reflexivity.
    + rewrite Ht in Htb. injection Htb as <-. congruence.
  - rewrite Ht in Htb. discriminate.
Qed.

Lemma filled_after_other_update (t t' c c' : string) (v : Value)
    (s : gmap string Table) :
  t <> t' -> filled t c s -> filled t c (update_where_null t' c' v s).
Proof.
  unfold filled, update_where_null. intros Hne Hf tb Htb Hcol.
  destruct (s !! t') as [tb'|] eqn:Ht'; [|exact (Hf tb Htb Hcol)].
  destruct (has_column c' tb'); [|exact (Hf tb Htb Hcol)].
  rewrite lookup_insert_ne in Htb by congruence. exact (Hf tb Htb Hcol).
Qed.

Lemma populateUpdatedAtFields_twice (now1 now2 : string) (s : gmap string Table) :
  populateUpdatedAtFields now2 (populateUpdatedAtFields now1 s)
  = populateUpdatedAtFields now1 s.
Proof.
  unfold populateUpdatedAtFields.
  set (s1 := update_where_null "tasks" "updated_at" (VText now1) s).
  set (s2 := update_where_null "reminders" "updated_at" (VText now1) s1).
  assert (Ht : filled "tasks" "updated_at" s2).
  { apply filled_after_other_update; [discriminate|apply filled_after_update]. }
  assert (Hr : filled "reminders" "updated_at" s2) by apply filled_after_update.
  rewrite (update_where_null_fixed "tasks" _ _ s2 Ht).
  exact (update_where_null_fixed "reminders" _ _ s2 Hr).
Qed.

(** Rows that carry a value in the column are left as they are; the
    columns of the table do not change. *)
Lemma update_where_null_keeps_values (t c : string) (v : Value)
    (s : gmap string Table) (t' : string) (tb : Table) :
  s !! t' = Some tb ->
  exists tb',
    update_where_null t c v s !! t' = Some tb'
    /\ columns tb' = columns tb
    /\ Forall2 (fun r r' => (is_null (r !! c) = false \/ t' <> t -> r' = r)
                            /\ (r' = r \/ r' = <[c := v]> r))
         (rows tb) (rows tb').
Proof.
  intros Htb. unfold update_where_null.
  assert (Hsame : exists tb',
             s !! t' = Some tb' /\ columns tb' = columns tb
             /\ Forall2 (fun r r' => (is_null (r !! c) = false \/ t' <> t -> r' = r)
                                     /\ (r' = r \/ r' = <[c := v]> r))
                  (rows tb) (rows tb')).
  { exists tb. split; [exact Htb|]. split; [reflexivity|].
    apply Forall2_same_length_lookup. split; [reflexivity|].
    intros i r r' H1 H2. rewrite H1 in H2. injection H2 as <-. auto. }
  destruct (s !! t) as [tb0|] eqn:Ht; [|exact Hsame].
  destruct (has_column c tb0); [|exact Hsame].
  destruct (decide (t = t')) as [->|Hne].
  - rewrite lookup_insert_eq. rewrite Htb in Ht. injection Ht as <-.
    eexists. split; [reflexivity|]. split; [reflexivity|]. cbn [rows].
    apply Forall2_fmap_r, Forall2_same_length_lookup. split; [reflexivity|].
    intros i r r' H1 H2. rewrite H1 in H2. injection H2 as <-.
    unfold compose. cbv beta.
    destruct (is_null (r !! c)) eqn:Hn.
    + split; [intros [?|?]; congruence|right; reflexivity].
    + split; [reflexivity|left; reflexivity].
  - rewrite lookup_insert_ne by exact Hne. exact Hsame.
Qed.

(** *** The migrations keep tables, columns and values *)

Lemma table_kept_refl (tb : Table) : table_kept tb tb.
Proof.
  split; [auto|]. apply Forall2_same_length_lookup. split; [reflexivity|].
  intros i r r' H1 H2. rewrite H1 in H2. injection H2 as <-. intros c v _ E _. exact E.
Qed.

Lemma table_kept_trans (tb1 tb2 tb3 : Table) :
  table_kept tb1 tb2 -> table_kept tb2 tb3 -> table_kept tb1 tb3.
Proof.
  intros [Hc1 Hr1] [Hc2 Hr2]. split; [auto|].
  revert Hr2. generalize (rows tb3). induction Hr1 as [|r1 r2 l1 l2 H12 _ IH];
    intros l3 Hr2; inversion Hr2 as [|? r3 ? l3' H23 Hrest]; subst; constructor.
  - intros c v Hcol E Hv. apply H23; auto.
  - exact (IH _ Hrest).
Qed.

Lemma tables_kept_refl (s : gmap string Table) : tables_kept s s.
Proof. intros t tb Htb. exists tb. split; [exact Htb|apply table_kept_refl]. Qed.

Lemma tables_kept_trans (s1 s2 s3 : gmap string Table) :
  tables_kept s1 s2 -> tables_kept s2 s3 -> tables_kept s1 s3.
Proof.
  intros H12 H23 t tb Htb. destruct (H12 _ _ Htb) as (tb2 & E2 & K2).
  destruct (H23 _ _ E2) as (tb3 & E3 & K3). exists tb3. split; [exact E3|].
  exact (table_kept_trans _ _ _ K2 K3).
Qed.

Lemma add_column_keeps (t c : string) (v : Value) (s s' : gmap string Table) :
  add_column t c v s = inr s' -> tables_kept s s'.
Proof.
  unfold add_column. destruct (s !! t) as [tb|] eqn:Ht; [|discriminate].
  destruct (has_column c tb) eqn:Hc; [discriminate|].
  intros H. injection H as <-. intros t' tb' Htb'.
  destruct (decide (t = t')) as [<-|Hne].
  - rewrite lookup_insert_eq. rewrite Ht in Htb'. injection Htb' as <-.
    eexists. split; [reflexivity|]. split.
    + intros c' Hc'. unfold has_column in *. cbn [columns].
      rewrite existsb_app, Hc'. reflexivity.
    + cbn [rows]. apply Forall2_fmap_r, Forall2_same_length_lookup.
      split; [reflexivity|]. intros i r r' H1 H2. rewrite H1 in H2. injection H2 as <-.
      intros c' v' Hc' E _. unfold compose.
      rewrite lookup_insert_ne; [exact E|]. intros ->. congruence.
  - rewrite lookup_insert_ne by exact Hne. exists tb'. split; [exact Htb'|].
    apply table_kept_refl.
Qed.

Lemma update_where_null_keeps (t c : string) (v : Value) (s : gmap string Table) :
  tables_kept s (update_where_null t c v s).
Proof.
  intros t' tb Htb.
  destruct (update_where_null_keeps_values t c v s t' tb Htb) as (tb' & E & Hcols & Hrows).
  exists tb'. split; [exact E|]. split.
  - intros c' Hc'. unfold has_column in *. rewrite Hcols. exact Hc'.
  - eapply Forall2_impl; [exact Hrows|]. intros r r' [Hsame Hor] c' v' _ Hr Hv.
    destruct (is_null (r !! c)) eqn:Hn.
    + destruct Hor as [->| ->]; [exact Hr|].
      rewrite lookup_insert_ne; [exact Hr|]. intros <-. rewrite Hr in Hn.
      destruct v'; [congruence|discriminate|discriminate].
    + rewrite Hsame by (left; reflexivity). exact Hr.
Qed.

Lemma executeMigrations_keeps (ms : list Entry) :
  forall s e s', executeMigrations ms s = (e, s') -> tables_kept s s'.
Proof.
  induction ms as [|m ms IH]; intros s e s' Hex; simpl in Hex.
  - injection Hex as _ <-. apply tables_kept_refl.
  - destruct (add_column (table m) (column m) (default_value m) s)
      as [err|s1] eqn:Hadd.
    + destruct (includes "duplicate column name" (message err)).
      * exact (IH _ _ _ Hex).
      * injection Hex as _ <-. apply tables_kept_refl.
    + exact (tables_kept_trans _ _ _ (add_column_keeps _ _ _ _ _ Hadd) (IH _ _ _ Hex)).
Qed.

Lemma runMigrations_keeps (now : string) (s : gmap string Table) e s' :
  runMigrations now s = (e, s') -> tables_kept s s'.
Proof.
  unfold runMigrations.
  destruct (executeMigrations migrations s) as [[err|] s1] eqn:Hex; intros H;
    injection H as _ <-.
  - exact (executeMigrations_keeps _ _ _ _ Hex).
  - eapply tables_kept_trans; [exact (executeMigrations_keeps _ _ _ _ Hex)|].
    unfold populateUpdatedAtFields.
    eapply tables_kept_trans; apply update_where_null_keeps.
Qed.

(** After a run that resolved, every migration is skipped, also after the
    backfill; a further run resolves and changes nothing. *)
Lemma runMigrations_resolved_skipped (now : string) (s s' : gmap string Table) :
  runMigrations now s = (None, s') -> Forall (fun m => skipped m s') migrations.
Proof.
  unfold runMigrations.
  destruct (executeMigrations migrations s) as [[err|] s1] eqn:Hex; [discriminate|].
  intros H. injection H as <-.
  eapply Forall_impl; [exact (execute_resolved_all_skipped _ _ _ Hex)|].
  intros m Hm. unfold populateUpdatedAtFields. do 2 apply skipped_after_update. exact Hm.
Qed.

Lemma runMigrations_resolved_again (now1 now2 : string) (s s' : gmap string Table) :
  runMigrations now1 s = (None, s') -> runMigrations now2 s' = (None, s').
Proof.
  intros Hrun. pose proof (runMigrations_resolved_skipped _ _ _ Hrun) as Hall.
  unfold runMigrations in *.
  destruct (executeMigrations migrations s) as [[err|] s1] eqn:Hex; [discriminate|].
  injection Hrun as <-.
  rewrite (execute_skipped _ _ Hall), populateUpdatedAtFields_twice. reflexivity.
Qed.

Lemma add_column_inv (t c : string) (v : Value) (s : gmap string Table) :
  match add_column t c v s with
  | inr s' => exists tb, s !! t = Some tb /\ has_column c tb = false
                         /\ s' = <[t := add_if_absent c v tb]> s
  | inl err => s !! t = None \/ exists tb, s !! t = Some tb /\ has_column c tb = true
  end.
Proof.
  unfold add_column. destruct (s !! t) as [tb|] eqn:Ht.
  - destruct (has_column c tb) eqn:Hc.
    + right. eauto.
    + exists tb. split; [reflexivity|]. split; [exact Hc|].
      unfold add_if_absent. rewrite Hc. reflexivity.
  - left. reflexivity.
Qed.

(** A run that resolves leaves of every table what its entries make of
    it. *)
Lemma executeMigrations_table (t : string) (ms : list Entry) :
  forall s s1 tb,
    executeMigrations ms s = (None, s1) -> s !! t = Some tb ->
    s1 !! t = Some (apply_entries t ms tb).
Proof.
  induction ms as [|m ms IH]; intros s s1 tb Hex Ht; cbn in Hex.
  - injection Hex as <-. exact Ht.
  - cbn [apply_entries fold_left]. fold (apply_entries t ms).
    pose proof (add_column_inv (table m) (column m) (default_value m) s) as Hinv.
    destruct (add_column (table m) (column m) (default_value m) s) as [err|s'].
    + destruct (includes "duplicate column name" (message err)); [|discriminate].
      destruct (String.eqb_spec (table m) t) as [E|_]; [|exact (IH _ _ _ Hex Ht)].
      destruct Hinv as [Hn|(tb' & Htb' & Hc)]; [congruence|].
      rewrite E, Ht in Htb'. injection Htb' as <-.
      unfold add_if_absent. rewrite Hc. exact (IH _ _ _ Hex Ht).
    + destruct Hinv as (tb' & Htb' & Hc & ->).
      destruct (String.eqb_spec (table m) t) as [E|Hne].
      * rewrite E, Ht in Htb'. injection Htb' as <-.
        apply (IH _ _ _ Hex). rewrite E. apply lookup_insert_eq.
      * apply (IH _ _ _ Hex). rewrite lookup_insert_ne by exact Hne. exact Ht.
Qed.

(** With the tables of the entries in place, no entry is an error. *)
Lemma executeMigrations_resolves (ms : list Entry) :
  forall s,
    (forall m, In m ms -> is_Some (s !! table m)) ->
    fst (executeMigrations ms s) = None.
Proof.
  induction ms as [|m ms IH]; intros s Hall; [reflexivity|]. cbn.
  pose proof (add_column_inv (table m) (column m) (default_value m) s) as Hinv.
  destruct (add_column (table m) (column m) (default_value m) s) as [err|s'] eqn:Hadd.
  - assert (Hdup : includes "duplicate column name" (message err) = true).
    { destruct (Hall m (or_introl eq_refl)) as [tb Htb].
      unfold add_column in Hadd. rewrite Htb in Hadd.
      destruct (has_column (column m) tb); [|discriminate].
      injection Hadd as <-. apply duplicate_message_is_ignored. }
    rewrite Hdup. apply IH. intros m' Hm'. apply Hall. right. exact Hm'.
  - apply IH. intros m' Hm'. destruct (Hall m' (or_intror Hm')) as [tb Htb].
    destruct (add_column_keeps _ _ _ _ _ Hadd _ _ Htb) as (tb' & E & _). eauto.
Qed.

Lemma has_column_add_if_absent (c c' : string) (v : Value) (tb : Table) :
  has_column c (add_if_absent c' v tb) = has_column c tb || String.eqb c c'.
Proof.
  unfold add_if_absent. destruct (has_column c' tb) eqn:Hc'.
  - destruct (String.eqb_spec c c') as [->|_]; [rewrite Hc'|rewrite orb_false_r]; reflexivity.
  - unfold has_column. cbn [columns]. rewrite existsb_app. cbn. rewrite orb_false_r.
    reflexivity.
Qed.

(** The two columns that the entries add to [tasks] and to [reminders]. *)
Lemma apply_entries_tasks (tb : Table) :
  apply_entries "tasks" migrations tb
  = add_if_absent "updated_at" VNull (add_if_absent "active" (VInt 1) tb).
Proof. reflexivity. Qed.

Lemma apply_entries_reminders (tb : Table) :
  apply_entries "reminders" migrations tb
  = add_if_absent "updated_at" VNull (add_if_absent "active" (VInt 1) tb).
Proof. reflexivity. Qed.

Lemma Forall2_fmap_same {A B : Type} (R : A -> B -> Prop) (f : A -> B) (l : list A) :
  (forall x, R x (f x)) -> Forall2 R l (f <$> l).
Proof. intros H. induction l; constructor; auto. Qed.

(** The rows of a table after its two columns are added and the backfill
    has run. *)
Lemma backfilled_rows (now : string) (tb : Table) :
  Forall2 (backfilled now tb) (rows tb)
    ((fun r => if is_null (r !! "updated_at") then <["updated_at" := VText now]> r else r)
       <$> rows (add_if_absent "updated_at" VNull (add_if_absent "active" (VInt 1) tb))).
Proof.
  unfold add_if_absent at 1. rewrite has_column_add_if_absent.
  change (String.eqb "updated_at" "active") with false. rewrite orb_false_r.
  unfold add_if_absent.
  destruct (has_column "updated_at" tb) eqn:Hu; destruct (has_column "active" tb) eqn:Ha;
    cbn [rows]; rewrite <- ?list_fmap_compose; apply Forall2_fmap_same; intros r;
    unfold backfilled, compose; rewrite Hu, Ha; cbn [andb].
  - destruct (is_null (r !! "updated_at")) eqn:Hn; cbn [negb].
    + split; [apply lookup_insert_eq|]. split; [discriminate|].
      intros c _ Hne. apply lookup_insert_ne. congruence.
    + split; [reflexivity|]. split; [discriminate|]. reflexivity.
  - rewrite lookup_insert_ne by discriminate.
    destruct (is_null (r !! "updated_at")) eqn:Hn; cbn [negb].
    + split; [apply lookup_insert_eq|]. split.
      * intros _. rewrite lookup_insert_ne by discriminate. apply lookup_insert_eq.
      * intros c Hc Hne. rewrite lookup_insert_ne by congruence.
        apply lookup_insert_ne. intros <-. congruence.
    + split; [apply lookup_insert_ne; discriminate|]. split.
      * intros _. apply lookup_insert_eq.
      * intros c Hc Hne. apply lookup_insert_ne. intros <-. congruence.
  - rewrite lookup_insert_eq. cbn [is_null].
    split; [apply lookup_insert_eq|]. split; [discriminate|].
    intros c _ Hne. rewrite !lookup_insert_ne by congruence. reflexivity.
  - rewrite lookup_insert_eq. cbn [is_null].
    split; [apply lookup_insert_eq|]. split.
    + intros _. rewrite !lookup_insert_ne by discriminate. apply lookup_insert_eq.
    + intros c Hc Hne. rewrite !lookup_insert_ne by congruence. reflexivity.
Qed.

Lemma populate_table (now t : string) (s : gmap string Table) (tb : Table) :
  t = "tasks" \/ t = "reminders" ->
  s !! t = Some tb -> has_column "updated_at" tb = true ->
  populateUpdatedAtFields now s !! t
  = Some {| columns := columns tb;
            rows := (fun r => if is_null (r !! "updated_at")
                              then <["updated_at" := VText now]> r else r)
                    <$> rows tb |}.
Proof.
  intros Ht Htb Hc. unfold populateUpdatedAtFields.
  assert (Hone : forall t' s', s' !! t' = Some tb ->
            update_where_null t' "updated_at" (VText now) s' !! t'
            = Some {| columns := columns tb;
                      rows := (fun r => if is_null (r !! "updated_at")
                                        then <["updated_at" := VText now]> r else r)
                              <$> rows tb |}).
  { intros t' s' H. unfold update_where_null. rewrite H, Hc. apply lookup_insert_eq. }
  assert (Hother : forall t' t'' s' x, t' <> t'' -> s' !! t'' = Some x ->
            update_where_null t' "updated_at" (VText now) s' !! t'' = Some x).
  { intros t' t'' s' x Hne H. unfold update_where_null.
    destruct (s' !! t') as [tb'|]; [|exact H].
    destruct (has_column "updated_at" tb'); [|exact H].
    rewrite lookup_insert_ne by exact Hne. exact H. }
  destruct Ht as [-> | ->].
  - apply Hother; [discriminate|]. apply Hone. exact Htb.
  - apply Hone. apply Hother; [discriminate|exact Htb].
Qed.

(** C9: running the migration step again on the state a first run left
    gives the same outcome and changes nothing, whatever the instants of
    the two runs.  With the tables of the entries in place no entry is an
    error, whether its column is there already or not.  When the step
    resolves, every column of the entries is on its table; every table is
    still there with its columns and its rows and their non-null values;
    and in [tasks] and [reminders] every row carries an [updated_at]: the
    value it had, or the instant of this run where it was null or the
    column was new, the other columns holding what they held.  A later run
    resolves too and writes nothing over it. *)
Theorem runMigrations_twice_is_once (now1 now2 : string) (s : gmap string Table) :
  runMigrations now2 (snd (runMigrations now1 s)) = runMigrations now1 s
  /\ ((forall m, In m migrations -> is_Some (s !! table m)) ->
      fst (runMigrations now1 s) = None)
  /\ (forall s1,
        runMigrations now1 s = (None, s1) ->
        (forall m, In m migrations ->
           exists tb1, s1 !! table m = Some tb1 /\ has_column (column m) tb1 = true)
        /\ tables_kept s s1
        /\ (forall t tb,
              t = "tasks" \/ t = "reminders" -> s !! t = Some tb ->
              exists tb1,
                s1 !! t = Some tb1
                /\ Forall2 (backfilled now1 tb) (rows tb) (rows tb1)
                /\ Forall (fun r => is_null (r !! "updated_at") = false) (rows tb1))
        /\ runMigrations now2 s1 = (None, s1)).
Proof.
  split; [|split].
  - unfold runMigrations.
    destruct (executeMigrations migrations s) as [[err|] s1] eqn:Hex.
    + cbn [snd]. rewrite (executeMigrations_twice _ _ _ _ Hex). reflexivity.
    + cbn [snd].
      pose proof (execute_resolved_all_skipped _ _ _ Hex) as Hall.
      assert (Hall' : Forall (fun m => skipped m (populateUpdatedAtFields now1 s1))
                        migrations).
      { eapply Forall_impl; [exact Hall|]. intros m Hm.
        unfold populateUpdatedAtFields. do 2 apply skipped_after_update. exact Hm. }
      rewrite (execute_skipped _ _ Hall'), populateUpdatedAtFields_twice. reflexivity.
  - intros Hall. unfold runMigrations.
    pose proof (executeMigrations_resolves migrations s Hall) as Hres.
    destruct (executeMigrations migrations s) as [[err|] s0]; [discriminate|reflexivity].
  - intros s1 Hrun.
    split; [|split; [exact (runMigrations_keeps _ _ _ _ Hrun)|split]].
    + intros m Hm. pose proof (runMigrations_resolved_skipped _ _ _ Hrun) as Hall.
      rewrite Forall_forall in Hall. apply list_elem_of_In in Hm.
      pose proof (Hall _ Hm) as Hskip. apply skipped_iff in Hskip.
      destruct Hskip as [[_ Hinc]|Hcol]; [|exact Hcol].
      exfalso. apply list_elem_of_In in Hm. cbn in Hm.
      repeat (destruct Hm as [<-|Hm]; [vm_compute in Hinc; discriminate|]).
      contradiction.
    + intros t tb Ht Htb. unfold runMigrations in Hrun.
      destruct (executeMigrations migrations s) as [[err|] s0] eqn:Hex; [discriminate|].
      injection Hrun as <-.
      pose proof (executeMigrations_table t migrations s s0 tb Hex Htb) as H0.
      assert (Happ : apply_entries t migrations tb
                     = add_if_absent "updated_at" VNull
                         (add_if_absent "active" (VInt 1) tb)).
      { destruct Ht as [-> | ->];
          [apply apply_entries_tasks|apply apply_entries_reminders]. }
      rewrite Happ in H0.
      assert (Hc : has_column "updated_at"
                     (add_if_absent "updated_at" VNull
                        (add_if_absent "active" (VInt 1) tb)) = true).
      { rewrite has_column_add_if_absent. apply orb_true_r. }
      rewrite (populate_table now1 t s0 _ Ht H0 Hc).
      eexists. split; [reflexivity|]. cbn [rows]. split; [apply backfilled_rows|].
      apply Forall_fmap, Forall_forall. intros r _. cbn.
      destruct (is_null (r !! "updated_at")) eqn:Hn; [|exact Hn].
      rewrite lookup_insert_eq. reflexivity.
    + exact (runMigrations_resolved_again _ now2 _ _ Hrun).
Qed.

Lemma runMigrations_witness :
  exists s1 tasks1 reminders1,
    runMigrations "2024-01-01T10:00:00.000Z" original_schema = (None, s1)
    /\ runMigrations "2024-02-01T00:00:00.000Z" s1 = (None, s1)
    /\ s1 !! "tasks" = Some tasks1
    /\ s1 !! "reminders" = Some reminders1
    /\ (fun r => r !! "updated_at") <$> rows tasks1
       = [Some (VText "2024-01-01T10:00:00.000Z")]
    /\ (fun r => r !! "updated_at") <$> rows reminders1
       = [Some (VText "2023-12-24T08:00:00.000Z");
          Some (VText "2024-01-01T10:00:00.000Z")].
Proof.
  destruct (runMigrations_twice_is_once "2024-01-01T10:00:00.000Z"
              "2024-02-01T00:00:00.000Z" original_schema) as (_ & _ & Hres).
  assert (Hrun : runMigrations "2024-01-01T10:00:00.000Z" original_schema
                 = (None, snd (runMigrations "2024-01-01T10:00:00.000Z" original_schema)))
    by (vm_compute; reflexivity).
  destruct (Hres _ Hrun) as (_ & _ & _ & Hagain).
  exists (snd (runMigrations "2024-01-01T10:00:00.000Z" original_schema)).
  exists (default {| columns := []; rows := [] |}
            (snd (runMigrations "2024-01-01T10:00:00.000Z" original_schema) !! "tasks")).
  exists (default {| columns := []; rows := [] |}
            (snd (runMigrations "2024-01-01T10:00:00.000Z" original_schema)
             !! "reminders")).
  split; [exact Hrun|]. split; [exact Hagain|].
  split; [vm_compute; reflexivity|]. split; [vm_compute; reflexivity|].
  split; vm_compute; reflexivity.
Defined.

End MigrationFacts.

(** * Timestamps: the order of the texts is the order of the instants *)

Section Calendar.

Import Clock Props.

Lemma days_before_year_succ (y : Z) :
  days_before_year (y + 1)
  = days_before_year y + 365 + (if is_leap y then 1 else 0).
Proof.
  unfold days_before_year, is_leap.
  destruct (Z.eqb_spec (y mod 4) 0) as [H4|H4];
    destruct (Z.eqb_spec (y mod 100) 0) as [H100|H100];
    destruct (Z.eqb_spec (y mod 400) 0) as [H400|H400];
    cbn [andb orb negb];
    Z.div_mod_to_equations; lia.
Qed.

Lemma days_before_year_step (y k : Z) :
  0 <= k ->
  days_before_year y + 365 * k <= days_before_year (y + k).
Proof.
  intros Hk. revert k Hk.
  apply (natlike_ind (fun k => days_before_year y + 365 * k <= days_before_year (y + k))).
  - replace (y + 0) with y by lia. lia.
  - intros k Hk IH. replace (y + Z.succ k) with (y + k + 1) by lia.
    rewrite days_before_year_succ. destruct (is_leap (y + k)); lia.
Qed.

Lemma days_before_year_next (y y' : Z) :
  y < y' ->
  days_before_year y + 365 + (if is_leap y then 1 else 0) <= days_before_year y'.
Proof.
  intros H. rewrite <- days_before_year_succ.
  pose proof (days_before_year_step (y + 1) (y' - y - 1) ltac:(lia)) as Hs.
  replace (y + 1 + (y' - y - 1)) with y' in Hs by lia. lia.
Qed.

Lemma month_cases (m : Z) :
  1 <= m <= 12 ->
  m = 1 \/ m = 2 \/ m = 3 \/ m = 4 \/ m = 5 \/ m = 6 \/ m = 7 \/ m = 8 \/ m = 9
  \/ m = 10 \/ m = 11 \/ m = 12.
Proof. lia. Qed.

Lemma days_before_month_succ (y m : Z) :
  1 <= m <= 11 ->
  days_before_month y (m + 1) = days_before_month y m + days_in_month y m.
Proof.
  intros Hm. pose proof (month_cases m ltac:(lia)) as H.
  unfold days_before_month, days_in_month.
  repeat (destruct H as [->|H]); try lia; simpl; destruct (is_leap y); reflexivity.
Qed.

Lemma days_in_month_pos (y m : Z) : 28 <= days_in_month y m <= 31.
Proof.
  unfold days_in_month.
  destruct (m =? 2); [destruct (is_leap y); lia|].
  destruct ((m =? 4) || (m =? 6) || (m =? 9) || (m =? 11)); lia.
Qed.

Lemma days_before_month_step (y m : Z) (k : Z) :
  0 <= k -> 1 <= m -> m + k <= 12 ->
  days_before_month y m + 28 * k <= days_before_month y (m + k).
Proof.
  intros Hk. revert k Hk.
  apply (natlike_ind (fun k => 1 <= m -> m + k <= 12 ->
            days_before_month y m + 28 * k <= days_before_month y (m + k))).
  - intros _ _. replace (m + 0) with m by lia. lia.
  - intros k Hk IH H1 H2. replace (m + Z.succ k) with (m + k + 1) by lia.
    rewrite days_before_month_succ by lia.
    pose proof (days_in_month_pos y (m + k)). specialize (IH H1 ltac:(lia)). lia.
Qed.

Lemma days_before_month_next (y m m' : Z) :
  1 <= m -> m < m' -> m' <= 12 ->
  days_before_month y m + days_in_month y m <= days_before_month y m'.
Proof.
  intros H1 H2 H3. rewrite <- days_before_month_succ by lia.
  pose proof (days_before_month_step y (m + 1) (m' - m - 1)
                ltac:(lia) ltac:(lia) ltac:(lia)) as Hs.
  replace (m + 1 + (m' - m - 1)) with m' in Hs by lia. lia.
Qed.

Lemma days_before_month_bound (y m : Z) :
  1 <= m <= 12 ->
  0 <= days_before_month y m
  /\ days_before_month y m + days_in_month y m <= 365 + (if is_leap y then 1 else 0).
Proof.
  intros Hm. pose proof (month_cases m Hm) as H.
  unfold days_before_month, days_in_month.
  repeat (destruct H as [->|H]); try subst m; simpl; destruct (is_leap y); lia.
Qed.

(** The day number orders valid dates as (year, month, day) does. *)
Lemma days_from_civil_compare (y m d y' m' d' : Z) :
  valid_civil y m d = true -> valid_civil y' m' d' = true ->
  (days_from_civil y m d ?= days_from_civil y' m' d')
  = match y ?= y' with
    | Eq => match m ?= m' with Eq => d ?= d' | c => c end
    | c => c
    end.
Proof.
  unfold valid_civil. rewrite !andb_true_iff, !Z.leb_le.
  intros [[[Hm1 Hm2] Hd1] Hd2] [[[Hm1' Hm2'] Hd1'] Hd2'].
  pose proof (days_before_month_bound y m ltac:(lia)) as [Hb1 Hb2].
  pose proof (days_before_month_bound y' m' ltac:(lia)) as [Hb1' Hb2'].
  unfold days_from_civil.
  destruct (Z.compare_spec y y') as [->|Hy|Hy].
  - destruct (Z.compare_spec m m') as [->|Hm|Hm].
    + destruct (Z.compare_spec d d') as [->|Hd|Hd].
      * apply Z.compare_refl.
      * apply Z.compare_lt_iff. lia.
      * apply Z.compare_gt_iff. lia.
    + apply Z.compare_lt_iff.
      pose proof (days_before_month_next y' m m' ltac:(lia) Hm ltac:(lia)). lia.
    + apply Z.compare_gt_iff.
      pose proof (days_before_month_next y' m' m ltac:(lia) Hm ltac:(lia)). lia.
  - apply Z.compare_lt_iff. pose proof (days_before_year_next y y' Hy). lia.
  - apply Z.compare_gt_iff. pose proof (days_before_year_next y' y Hy). lia.
Qed.

Lemma lex_scale (q q' r r' b : Z) (k : comparison) :
  0 <= r < b -> 0 <= r' < b ->
  lex (q * b + r ?= q' * b + r') k = lex (q ?= q') (lex (r ?= r') k).
Proof.
  intros Hr Hr'. destruct (Z.compare_spec q q') as [->|Hq|Hq]; simpl.
  - destruct (Z.compare_spec r r') as [->|H|H]; simpl.
    + rewrite Z.compare_refl. reflexivity.
    + replace (q' * b + r ?= q' * b + r') with Lt; [reflexivity|].
      symmetry. apply Z.compare_lt_iff. lia.
    + replace (q' * b + r ?= q' * b + r') with Gt; [reflexivity|].
      symmetry. apply Z.compare_gt_iff. lia.
  - replace (q * b + r ?= q' * b + r') with Lt; [reflexivity|].
    symmetry. apply Z.compare_lt_iff. nia.
  - replace (q * b + r ?= q' * b + r') with Gt; [reflexivity|].
    symmetry. apply Z.compare_gt_iff. nia.
Qed.

Lemma lex_eq_r (c : comparison) : lex c Eq = c.
Proof. destruct c; reflexivity. Qed.

Lemma lex_assoc (a b c : comparison) : lex (lex a b) c = lex a (lex b c).
Proof. destruct a; reflexivity. Qed.

(** The instant orders valid timestamps as their six numbers do. *)
Lemma epoch_ms_compare (f g : Z * Z * Z * Z * Z * Z) :
  valid_fields f = true -> valid_fields g = true ->
  (let '(y, m, d, h, n, s) := f in 0 <= h /\ 0 <= n /\ 0 <= s) ->
  (let '(y, m, d, h, n, s) := g in 0 <= h /\ 0 <= n /\ 0 <= s) ->
  (epoch_ms f ?= epoch_ms g) = fields_compare f g.
Proof.
  destruct f as [[[[[y m] d] h] n] s], g as [[[[[y' m'] d'] h'] n'] s'].
  unfold valid_fields, valid_clock, epoch_ms, fields_compare.
  rewrite !andb_true_iff, !Z.leb_le.
  intros [Hc [[Hh Hn] Hs]] [Hc' [[Hh' Hn'] Hs']] (Hh0 & Hn0 & Hs0) (Hh0' & Hn0' & Hs0').
  rewrite <- (lex_eq_r (_ ?= _)).
  replace ((days_from_civil y m d * 86400 + h * 3600 + n * 60 + s) * 1000)
    with ((days_from_civil y m d * 86400 + h * 3600 + n * 60 + s) * 1000 + 0) by lia.
  replace ((days_from_civil y' m' d' * 86400 + h' * 3600 + n' * 60 + s') * 1000)
    with ((days_from_civil y' m' d' * 86400 + h' * 3600 + n' * 60 + s') * 1000 + 0)
    by lia.
  rewrite lex_scale by lia. rewrite Z.compare_refl. cbn [lex].
  rewrite <- (lex_eq_r (_ ?= _)).
  replace (days_from_civil y m d * 86400 + h * 3600 + n * 60 + s)
    with (days_from_civil y m d * 86400 + (h * 3600 + (n * 60 + s))) by lia.
  replace (days_from_civil y' m' d' * 86400 + h' * 3600 + n' * 60 + s')
    with (days_from_civil y' m' d' * 86400 + (h' * 3600 + (n' * 60 + s'))) by lia.
  rewrite lex_scale by lia.
  rewrite (lex_scale h h' (n * 60 + s) (n' * 60 + s') 3600) by lia.
  rewrite (lex_scale n n' s s' 60) by lia.
  rewrite lex_eq_r.
  rewrite (days_from_civil_compare _ _ _ _ _ _ Hc Hc').
  fold (lex (m ?= m') (d ?= d')). fold (lex (y ?= y') (lex (m ?= m') (d ?= d'))).
  rewrite !lex_assoc, lex_eq_r. reflexivity.
Qed.

Lemma compare_cons (c c' : ascii) (s s' : string) :
  String.compare (String c s) (String c' s')
  = lex (Ascii.compare c c') (String.compare s s').
Proof. simpl. destruct (Ascii.compare c c'); reflexivity. Qed.

Lemma ascii_compare_digit_val (c c' : ascii) :
  Ascii.compare c c' = (Js.digit_val c ?= Js.digit_val c').
Proof.
  unfold Ascii.compare, Js.digit_val.
  rewrite <- N2Z.inj_compare.
  rewrite (Z.compare_sub (Z.of_N (N_of_ascii c) - 48)).
  rewrite (Z.compare_sub (Z.of_N (N_of_ascii c))).
  f_equal. lia.
Qed.

Lemma digit_val_range (c : ascii) :
  Js.is_digit c = true -> 0 <= Js.digit_val c <= 9.
Proof.
  unfold Js.is_digit, Js.digit_val. cbv zeta.
  rewrite andb_true_iff, !Z.leb_le. lia.
Qed.

Lemma stamp_fields_inv (t : string) (f : Z * Z * Z * Z * Z * Z) :
  stamp_fields t = Some f ->
  exists y1 y2 y3 y4 m1 m2 d1 d2 h1 h2 n1 n2 s1 s2,
    t = stamp_text y1 y2 y3 y4 m1 m2 d1 d2 h1 h2 n1 n2 s1 s2
    /\ Forall (fun c => Js.is_digit c = true)
         [y1; y2; y3; y4; m1; m2; d1; d2; h1; h2; n1; n2; s1; s2]
    /\ f = (num4 y1 y2 y3 y4, num2 m1 m2, num2 d1 d2,
            num2 h1 h2, num2 n1 n2, num2 s1 s2).
Proof.
  intros H. unfold stamp_fields in H.
  do 19 (destruct t as [|? t]; [cbn in H; discriminate|]).
  destruct t; [|cbn in H; discriminate].
  cbn [list_ascii_of_string] in H.
  match type of H with (if ?c then _ else _) = _ => destruct c eqn:E end;
    [|discriminate].
  injection H as <-.
  rewrite !andb_true_iff in E.
  destruct E as [[[[[Hd E1] E2] E3] E4] E5].
  apply Ascii.eqb_eq in E1, E2, E3, E4, E5. subst.
  pose proof (proj1 (List.forallb_forall _ _) Hd) as Hd'.
  do 14 eexists. split; [reflexivity|]. split; [|reflexivity].
  apply Forall_forall. intros c Hc. apply Hd'. apply list_elem_of_In. exact Hc.
Qed.

Lemma lex_digits2 (a b a' b' : Z) (k : comparison) :
  0 <= b <= 9 -> 0 <= b' <= 9 ->
  lex (10 * a + b ?= 10 * a' + b') k = lex (a ?= a') (lex (b ?= b') k).
Proof.
  intros Hb Hb'. replace (10 * a + b) with (a * 10 + b) by lia.
  replace (10 * a' + b') with (a' * 10 + b') by lia.
  apply lex_scale; lia.
Qed.

Lemma lex_digits4 (a b c d a' b' c' d' : Z) (k : comparison) :
  0 <= b <= 9 -> 0 <= c <= 9 -> 0 <= d <= 9 ->
  0 <= b' <= 9 -> 0 <= c' <= 9 -> 0 <= d' <= 9 ->
  lex (1000 * a + 100 * b + 10 * c + d ?= 1000 * a' + 100 * b' + 10 * c' + d') k
  = lex (a ?= a') (lex (b ?= b') (lex (c ?= c') (lex (d ?= d') k))).
Proof.
  intros Hb Hc Hd Hb' Hc' Hd'.
  replace (1000 * a + 100 * b + 10 * c + d) with (((a * 10 + b) * 10 + c) * 10 + d)
    by lia.
  replace (1000 * a' + 100 * b' + 10 * c' + d')
    with (((a' * 10 + b') * 10 + c') * 10 + d') by lia.
  rewrite !lex_scale by lia. reflexivity.
Qed.

(** The bytewise order of two timestamp texts is the order of their six
    numbers. *)
Lemma stamp_compare_fields (a b : string) (fa fb : Z * Z * Z * Z * Z * Z) :
  stamp_fields a = Some fa -> stamp_fields b = Some fb ->
  String.compare a b = fields_compare fa fb.
Proof.
  intros Ha Hb.
  destruct (stamp_fields_inv _ _ Ha)
    as (y1 & y2 & y3 & y4 & m1 & m2 & d1 & d2 & h1 & h2 & n1 & n2 & s1 & s2
        & -> & Hda & ->).
  destruct (stamp_fields_inv _ _ Hb)
    as (y1' & y2' & y3' & y4' & m1' & m2' & d1' & d2' & h1' & h2' & n1' & n2'
        & s1' & s2' & -> & Hdb & ->).
  clear Ha Hb.
  repeat match goal with
         | H : Forall _ (_ :: _) |- _ =>
             let Hc := fresh "Hc" in
             apply Forall_cons in H as [Hc H]; apply digit_val_range in Hc
         end.
  unfold stamp_text. rewrite !compare_cons. cbn [String.compare].
  rewrite !ascii_compare_digit_val, !Z.compare_refl. cbn [lex].
  unfold fields_compare, num4, num2.
  rewrite <- (lex_eq_r (10 * Js.digit_val s1 + Js.digit_val s2 ?= _)).
  rewrite lex_digits4 by assumption.
  rewrite !lex_digits2 by assumption.
  reflexivity.
Qed.

(** Reading a timestamp gives non-negative numbers. *)
Lemma stamp_fields_nonneg (t : string) (y m d h n s : Z) :
  stamp_fields t = Some (y, m, d, h, n, s) -> 0 <= h /\ 0 <= n /\ 0 <= s.
Proof.
  intros H.
  destruct (stamp_fields_inv _ _ H)
    as (y1 & y2 & y3 & y4 & m1 & m2 & d1 & d2 & h1 & h2 & n1 & n2 & s1 & s2
        & _ & Hd & E).
  injection E as -> -> -> -> -> ->.
  repeat match goal with
         | H : Forall _ (_ :: _) |- _ =>
             let Hc := fresh "Hc" in
             apply Forall_cons in H as [Hc H]; apply digit_val_range in Hc
         end.
  unfold num2. lia.
Qed.

(** For texts that are valid dates, the bytewise order of the texts is
    the order of the instants they are parsed to. *)
Lemma stamp_compare (a b : string) (x y : Z) :
  Date_getTime a = Some x -> Date_getTime b = Some y ->
  String.compare a b = (x ?= y).
Proof.
  unfold Date_getTime. intros Ha Hb.
  destruct (stamp_fields a) as [fa|] eqn:Efa; [|discriminate].
  destruct (stamp_fields b) as [fb|] eqn:Efb; [|discriminate].
  destruct (valid_fields fa) eqn:Va; [|discriminate].
  destruct (valid_fields fb) eqn:Vb; [|discriminate].
  injection Ha as <-. injection Hb as <-.
  rewrite (stamp_compare_fields a b fa fb Efa Efb). symmetry.
  apply epoch_ms_compare; try assumption.
  - destruct fa as [[[[[? ?] ?] ?] ?] ?]. exact (stamp_fields_nonneg _ _ _ _ _ _ _ Efa).
  - destruct fb as [[[[[? ?] ?] ?] ?] ?]. exact (stamp_fields_nonneg _ _ _ _ _ _ _ Efb).
Qed.

Lemma stamp_ltb (a b : string) (x y : Z) :
  Date_getTime a = Some x -> Date_getTime b = Some y ->
  String.ltb a b = (x <? y).
Proof.
  intros Ha Hb. unfold String.ltb, Z.ltb. rewrite (stamp_compare a b x y Ha Hb).
  reflexivity.
Qed.

Lemma stamp_eq (a b : string) (x y : Z) :
  Date_getTime a = Some x -> Date_getTime b = Some y -> x = y -> a = b.
Proof.
  intros Ha Hb E. apply String.compare_eq_iff.
  rewrite (stamp_compare a b x y Ha Hb). apply Z.compare_eq_iff. exact E.
Qed.

End Calendar.

(** * Sorting and cursors *)

Section Splitting.

Import Js Props.

Lemma split_no_sep (sep : ascii) (s : string) :
  no_char sep s = true -> split sep s = [s].
Proof.
  induction s as [|c s IH]; simpl; [reflexivity|].
  intros H. apply andb_true_iff in H as [Hc Hs].
  apply negb_true_iff in Hc. rewrite Hc, (IH Hs). reflexivity.
Qed.

Lemma split_app_sep (sep : ascii) (s t : string) :
  no_char sep s = true ->
  split sep (s ++ String sep t)%string = s :: split sep t.
Proof.
  induction s as [|c s IH]; simpl.
  - intros _. rewrite Ascii.eqb_refl. reflexivity.
  - intros H. apply andb_true_iff in H as [Hc Hs].
    apply negb_true_iff in Hc. rewrite Hc, (IH Hs). reflexivity.
Qed.

Lemma digit_not_underscore (c : ascii) :
  is_digit c = true -> Ascii.eqb c "_" = false.
Proof.
  intros H. apply Ascii.eqb_neq. intros ->. vm_compute in H. discriminate.
Qed.

Lemma all_digits_no_underscore (s : string) :
  all_digits s = true -> no_char "_" s = true.
Proof.
  induction s as [|c s IH]; simpl; [reflexivity|].
  intros H. apply andb_true_iff in H as [Hc Hs].
  rewrite (digit_not_underscore c Hc), (IH Hs). reflexivity.
Qed.

Lemma show_Z_no_underscore (z : Z) : no_char "_" (show_Z z) = true.
Proof.
  destruct (Z.lt_ge_cases z 0) as [Hneg|Hpos].
  - destruct (show_Z_neg z Hneg) as (ds & -> & Hd & _).
    simpl. apply all_digits_no_underscore. exact Hd.
  - destruct (show_Z_nonneg z Hpos) as (ds & -> & Hd & _).
    apply all_digits_no_underscore. exact Hd.
Qed.

Lemma stamp_no_underscore (t : string) (f : Z * Z * Z * Z * Z * Z) :
  Clock.stamp_fields t = Some f -> no_char "_" t = true.
Proof.
  intros H.
  destruct (stamp_fields_inv _ _ H)
    as (y1 & y2 & y3 & y4 & m1 & m2 & d1 & d2 & h1 & h2 & n1 & n2 & s1 & s2
        & -> & Hd & _).
  repeat match goal with
         | H : Forall _ (_ :: _) |- _ =>
             let Hc := fresh "Hc" in
             apply Forall_cons in H as [Hc H]; apply digit_not_underscore in Hc
         end.
  unfold stamp_text. cbn [no_char].
  repeat match goal with H : Ascii.eqb _ _ = false |- _ => rewrite H; clear H end.
  reflexivity.
Qed.

(** A cursor built from a row with a valid timestamp reads back as that
    row's timestamp and id. *)
Lemma cursor_parts_cursor_of (r : Dashboard.LogRow) (x : Z) :
  Clock.Date_getTime (Dashboard.timestamp r) = Some x ->
  Dashboard.cursor_parts (Dashboard.cursor_of r)
  = (Dashboard.timestamp r, Some (Dashboard.id r))
  /\ truthy (Dashboard.cursor_of r) = true.
Proof.
  unfold Clock.Date_getTime. intros H.
  destruct (Clock.stamp_fields (Dashboard.timestamp r)) as [f|] eqn:Ef; [|discriminate].
  pose proof (stamp_no_underscore _ _ Ef) as Hno.
  unfold Dashboard.cursor_parts, Dashboard.cursor_of.
  change ("_" ++ show_Z (Dashboard.id r))%string
    with (String "_" (show_Z (Dashboard.id r))).
  rewrite (split_app_sep _ _ _ Hno).
  rewrite (split_no_sep _ _ (show_Z_no_underscore _)).
  rewrite parseInt_show_Z. split; [reflexivity|].
  destruct (Dashboard.timestamp r); reflexivity.
Qed.

End Splitting.

Section Sorting.

Import Dashboard.

Context {A : Type} (before : A -> A -> bool) (key : A -> Z).

Let desc (a b : A) : Prop := key b < key a.

Lemma insert_by_perm (x : A) (l : list A) : insert_by before x l ≡ₚ x :: l.
Proof.
  induction l as [|y l IH]; simpl; [reflexivity|].
  destruct (before x y); [reflexivity|].
  rewrite IH. apply Permutation_swap.
Qed.

Lemma sort_by_perm (l : list A) : sort_by before l ≡ₚ l.
Proof.
  induction l as [|x l IH]; simpl; [reflexivity|].
  rewrite insert_by_perm, IH. reflexivity.
Qed.

Lemma insert_by_sorted (x : A) (l : list A) :
  (forall y, y ∈ l -> before x y = (key y <? key x)) ->
  (forall y, y ∈ l -> key y <> key x) ->
  StronglySorted desc l ->
  StronglySorted desc (insert_by before x l).
Proof.
  intros Hb Hk Hs. induction Hs as [|y l Hs IH Hy]; simpl.
  - repeat constructor.
  - rewrite (Hb y) by apply list_elem_of_here.
    destruct (Z.ltb_spec (key y) (key x)) as [Hlt|Hge].
    + constructor; [constructor; assumption|].
      constructor; [exact Hlt|].
      eapply Forall_impl; [exact Hy|]. intros z Hz. unfold desc in *. lia.
    + assert (Hne : key y <> key x) by (apply Hk, list_elem_of_here).
      constructor.
      * apply IH; intros z Hz; [apply Hb|apply Hk]; apply list_elem_of_further, Hz.
      * apply Forall_forall. intros z Hz.
        rewrite (insert_by_perm x l) in Hz.
        apply elem_of_cons in Hz as [->|Hz]; [unfold desc; lia|].
        exact (proj1 (Forall_forall _ _) Hy z Hz).
Qed.

Lemma sort_by_sorted (l : list A) :
  NoDup (List.map key l) ->
  (forall x y, x ∈ l -> y ∈ l -> key x <> key y -> before x y = (key y <? key x)) ->
  StronglySorted desc (sort_by before l).
Proof.
  induction l as [|x l IH]; intros Hnd Hb; simpl; [constructor|].
  simpl in Hnd. apply NoDup_cons in Hnd as [Hx Hnd].
  assert (Hk : forall y, y ∈ l -> key y <> key x).
  { intros y Hy E. apply Hx. rewrite <- E.
    apply list_elem_of_In, in_map, list_elem_of_In. exact Hy. }
  apply insert_by_sorted.
  - intros y Hy. rewrite (sort_by_perm l) in Hy.
    apply Hb; [apply list_elem_of_here|apply list_elem_of_further, Hy|].
    intros E. exact (Hk y Hy (eq_sym E)).
  - intros y Hy. rewrite (sort_by_perm l) in Hy.
    exact (Hk y Hy).
  - apply IH; [exact Hnd|].
    intros a b Ha Hb'. apply Hb; apply list_elem_of_further; assumption.
Qed.

(** Two strictly descending lists with the same elements are equal. *)
Lemma sorted_unique (l1 l2 : list A) :
  StronglySorted desc l1 -> StronglySorted desc l2 -> l1 ≡ₚ l2 -> l1 = l2.
Proof.
  intros H1. revert l2. induction H1 as [|a l1 H1 IH Ha]; intros l2 H2 Hp.
  - apply Permutation_nil_l. exact Hp.
  - destruct H2 as [|b l2 H2 Hb].
    + apply Permutation_nil_r in Hp. discriminate.
    + assert (E : a = b).
      { assert (Hin : a ∈ b :: l2).
        { rewrite <- Hp. apply list_elem_of_here. }
        assert (Hin' : b ∈ a :: l1).
        { rewrite Hp. apply list_elem_of_here. }
        apply elem_of_cons in Hin as [E|Hin]; [exact E|].
        apply elem_of_cons in Hin' as [E|Hin']; [symmetry; exact E|].
        pose proof (proj1 (Forall_forall _ _) Hb a Hin) as Hlt.
        pose proof (proj1 (Forall_forall _ _) Ha b Hin') as Hgt.
        unfold desc in *. lia. }
      subst b. f_equal. apply IH; [exact H2|].
      exact (Permutation_cons_inv Hp).
Qed.

(** In a strictly descending list, the elements below the key of the
    element at position [i] are those after position [i]. *)
Lemma filter_below_is_drop (l : list A) :
  StronglySorted desc l ->
  forall i r0, l !! i = Some r0 ->
    List.filter (fun r => key r <? key r0) l = drop (S i) l.
Proof.
  induction 1 as [|a l Hs IH Ha]; intros i r0 Hi; [discriminate|].
  destruct i as [|i]; simpl in Hi.
  - injection Hi as <-. simpl. rewrite Z.ltb_irrefl.
    rewrite drop_0. clear IH Hs.
    induction Ha as [|b l Hb _ IH]; [reflexivity|].
    simpl. unfold desc in Hb. destruct (Z.ltb_spec (key b) (key a)); [|lia].
    f_equal. exact IH.
  - simpl. pose proof (proj1 (Forall_forall _ _) Ha r0) as Hr.
    assert (Hin : r0 ∈ l) by (apply list_elem_of_lookup; eauto).
    specialize (Hr Hin). unfold desc in Hr.
    destruct (Z.ltb_spec (key a) (key r0)); [lia|].
    exact (IH i r0 Hi).
Qed.

Lemma filter_perm (f : A -> bool) (l l' : list A) :
  l ≡ₚ l' -> List.filter f l ≡ₚ List.filter f l'.
Proof.
  induction 1 as [|x l l' _ IH|x y l|l l' l'' _ IH1 _ IH2]; simpl.
  - reflexivity.
  - destruct (f x); [rewrite IH|]; auto.
  - destruct (f x), (f y); try reflexivity. apply Permutation_swap.
  - etransitivity; eassumption.
Qed.

Lemma map_filter_comm {B : Type} (g : B -> A) (f : A -> bool) (l : list B) :
  List.map g (List.filter (fun b => f (g b)) l) = List.filter f (List.map g l).
Proof.
  induction l as [|b l IH]; simpl; [reflexivity|].
  destruct (f (g b)); simpl; rewrite IH; reflexivity.
Qed.

End Sorting.

Lemma NoDup_map_inj_on {A B : Type} (key : A -> B) (l : list A) (x y : A) :
  NoDup (List.map key l) -> x ∈ l -> y ∈ l -> key x = key y -> x = y.
Proof.
  induction l as [|a l IH]; intros Hnd Hx Hy E; [inversion Hx|].
  simpl in Hnd. apply NoDup_cons in Hnd as [Ha Hnd].
  apply elem_of_cons in Hx as [->|Hx]; apply elem_of_cons in Hy as [->|Hy].
  - reflexivity.
  - exfalso. apply Ha. rewrite E.
    apply list_elem_of_In, in_map, list_elem_of_In. exact Hy.
  - exfalso. apply Ha. rewrite <- E.
    apply list_elem_of_In, in_map, list_elem_of_In. exact Hx.
  - exact (IH Hnd Hx Hy E).
Qed.


(** * Following the cursors *)

Section Pagination.

Import Store Dashboard Props.

Variable d : Db.

Hypothesis Hvalid :
  Forall (fun r => is_Some (Clock.Date_getTime (timestamp r))) (all_rows d).

Hypothesis Hdistinct : NoDup (List.map timestamp (all_rows d)).

Let rows := all_rows d.

(** The condition a cursor puts on a row. *)
Let passes (cursor : string) (r : LogRow) : bool :=
  cursor_condition cursor (timestamp r) (id r).

Let desc (a b : LogRow) : Prop := instant b < instant a.

Lemma valid_instant (r : LogRow) :
  r ∈ rows -> Clock.Date_getTime (timestamp r) = Some (instant r).
Proof.
  intros Hr. pose proof (proj1 (Forall_forall _ _) Hvalid r Hr) as [x Hx].
  unfold instant. rewrite Hx. reflexivity.
Qed.

Lemma instant_inj (a b : LogRow) :
  a ∈ rows -> b ∈ rows -> instant a = instant b -> a = b.
Proof.
  intros Ha Hb E.
  apply (NoDup_map_inj_on timestamp rows a b Hdistinct Ha Hb).
  exact (stamp_eq _ _ _ _ (valid_instant a Ha) (valid_instant b Hb) E).
Qed.

Lemma rows_NoDup_instant : NoDup (List.map instant rows).
Proof.
  assert (Hnd : NoDup rows).
  { apply (NoDup_fmap_1 timestamp). rewrite <- list_fmap_map || idtac.
    exact Hdistinct. }
  clear -Hnd Hvalid Hdistinct.
  assert (Hinj : forall a b, a ∈ rows -> b ∈ rows -> instant a = instant b -> a = b)
    by exact instant_inj.
  revert Hinj Hnd. generalize rows. intros l.
  induction l as [|a l IH]; intros Hinj Hnd; simpl; [constructor|].
  apply NoDup_cons in Hnd as [Ha Hnd]. apply NoDup_cons. split.
  - intros Hin. apply list_elem_of_In, in_map_iff in Hin as (b & E & Hb).
    apply list_elem_of_In in Hb.
    assert (b = a).
    { apply Hinj; [apply list_elem_of_further, Hb|apply list_elem_of_here|exact E]. }
    subst b. contradiction.
  - apply IH; [|exact Hnd].
    intros x y Hx Hy. apply Hinj; apply list_elem_of_further; assumption.
Qed.

(** On rows of the store with different instants, the comparator of the
    sort puts the later one first. *)
Lemma js_before_instant (a b : LogRow) :
  a ∈ rows -> b ∈ rows -> instant a <> instant b ->
  js_before a b = (instant b <? instant a).
Proof.
  intros Ha Hb Hne. unfold js_before, compare_logs.
  rewrite (valid_instant a Ha), (valid_instant b Hb).
  destruct (Z.eqb_spec (instant b) (instant a)) as [E|_]; [congruence|].
  simpl. destruct (Z.leb_spec (instant b - instant a) 0);
    destruct (Z.ltb_spec (instant b) (instant a)); lia || reflexivity.
Qed.

(** Without filters, the two queries together return the rows that pass
    the cursor. *)
Lemma queries_perm (cursor : string) :
  query_send_logs "" "" "" "" cursor d ++ query_activity_logs "" "" "" "" cursor d
  ≡ₚ List.filter (passes cursor) rows.
Proof.
  unfold query_send_logs, query_activity_logs, rows, all_rows.
  rewrite !sort_by_perm, List.filter_app.
  rewrite <- !map_filter_comm. reflexivity.
Qed.

Lemma filter_sub (f : LogRow -> bool) (r : LogRow) :
  r ∈ List.filter f rows -> r ∈ rows.
Proof. intros H. apply list_elem_of_In, filter_In in H as [H _]. apply list_elem_of_In, H. Qed.

Lemma NoDup_map_filter (f : LogRow -> bool) (l : list LogRow) :
  NoDup (List.map instant l) -> NoDup (List.map instant (List.filter f l)).
Proof.
  induction l as [|a l IH]; simpl; [auto|].
  intros H. apply NoDup_cons in H as [Ha H].
  destruct (f a); simpl; [|exact (IH H)].
  apply NoDup_cons. split; [|exact (IH H)].
  intros Hin. apply Ha. apply list_elem_of_In, in_map_iff in Hin as (b & E & Hb).
  apply filter_In in Hb as [Hb _]. rewrite <- E.
  apply list_elem_of_In, in_map. exact Hb.
Qed.

(** The merged rows of a request are strictly descending in time and are
    the rows that pass its cursor. *)
Lemma merged_sorted (cursor : string) :
  StronglySorted desc (merged "" "" "" "" cursor d)
  /\ merged "" "" "" "" cursor d ≡ₚ List.filter (passes cursor) rows.
Proof.
  unfold merged. split; [|rewrite sort_by_perm; apply queries_perm].
  apply (sort_by_sorted js_before instant).
  - assert (Hp : List.map instant
                   (query_send_logs "" "" "" "" cursor d
                    ++ query_activity_logs "" "" "" "" cursor d)
                 ≡ₚ List.map instant (List.filter (passes cursor) rows)).
    { apply Permutation_map, queries_perm. }
    rewrite Hp. apply NoDup_map_filter, rows_NoDup_instant.
  - intros x y Hx Hy Hne. rewrite queries_perm in Hx, Hy.
    apply js_before_instant; [exact (filter_sub _ _ Hx)|exact (filter_sub _ _ Hy)|exact Hne].
Qed.

(** The whole listing. *)
Let L := merged "" "" "" "" "" d.

Lemma L_perm : L ≡ₚ rows.
Proof.
  unfold L. rewrite (proj2 (merged_sorted "")).
  assert (E : List.filter (passes "") rows = rows).
  { clear. induction rows as [|a l IH]; simpl; [reflexivity|]. f_equal. exact IH. }
  rewrite E. reflexivity.
Qed.

(** A cursor built from a row of the store lets through exactly the rows
    that are earlier than it. *)
Lemma passes_cursor_of (r0 r : LogRow) :
  r0 ∈ rows -> r ∈ rows ->
  passes (cursor_of r0) r = (instant r <? instant r0).
Proof.
  intros H0 Hr. unfold passes, cursor_condition.
  destruct (cursor_parts_cursor_of r0 _ (valid_instant r0 H0)) as [-> ->].
  rewrite (stamp_ltb _ _ _ _ (valid_instant r Hr) (valid_instant r0 H0)).
  destruct (String.eqb_spec (timestamp r) (timestamp r0)) as [E|_].
  - assert (r = r0).
    { exact (NoDup_map_inj_on timestamp rows r r0 Hdistinct Hr H0 E). }
    subst r. rewrite !Z.ltb_irrefl. reflexivity.
  - simpl. apply orb_false_r.
Qed.

Lemma StronglySorted_drop (n : nat) (l : list LogRow) :
  StronglySorted desc l -> StronglySorted desc (drop n l).
Proof.
  intros H. rewrite <- (take_drop n l) in H.
  exact (StronglySorted_app_1_r _ _ _ H).
Qed.

(** The request that carries the cursor of the row at position [i] gets
    the rows after position [i]. *)
Lemma merged_after (i : nat) (r0 : LogRow) :
  L !! i = Some r0 ->
  merged "" "" "" "" (cursor_of r0) d = drop (S i) L.
Proof.
  intros Hi.
  assert (H0 : r0 ∈ rows).
  { rewrite <- L_perm. apply list_elem_of_lookup. eauto. }
  destruct (merged_sorted (cursor_of r0)) as [Hs Hp].
  destruct (merged_sorted "") as [HsL _]. fold L in HsL.
  apply (sorted_unique instant); [exact Hs|apply StronglySorted_drop, HsL|].
  rewrite Hp.
  rewrite <- (filter_below_is_drop instant L HsL i r0 Hi).
  rewrite (filter_perm (fun r => instant r <? instant r0) _ _ L_perm).
  assert (E : List.filter (passes (cursor_of r0)) rows
              = List.filter (fun r => instant r <? instant r0) rows).
  { apply List.filter_ext_in. intros r Hr.
    apply passes_cursor_of; [exact H0|apply list_elem_of_In, Hr]. }
  rewrite E. reflexivity.
Qed.

Variable k : Z.

Hypothesis Hk : 0 < k.

Lemma merged_at (i : nat) (c : option string) :
  (i = 0%nat /\ c = None)
  \/ (exists r, (1 <= i)%nat /\ L !! (i - 1)%nat = Some r /\ c = Some (cursor_of r)) ->
  merged "" "" "" "" (default "" c) d = drop i L.
Proof.
  intros [[-> ->]|(r & Hi & Hr & ->)].
  - reflexivity.
  - simpl. rewrite (merged_after _ _ Hr). f_equal. lia.
Qed.

(** From any position of the listing on, the paging loop ends and returns
    the rest of the listing in pages of at most [k] rows, each but the
    last saying [hasMore]. *)
Lemma follow_from (fuel : nat) :
  forall (i : nat) (c : option string),
    (i = 0%nat /\ c = None)
    \/ (exists r, (1 <= i)%nat /\ L !! (i - 1)%nat = Some r /\ c = Some (cursor_of r)) ->
    (length L - i < fuel)%nat ->
    exists pages,
      follow fuel "" "" "" "" c (Some k) d = Some pages
      /\ concat (List.map logs pages) = drop i L
      /\ List.map hasMore pages = replicate (length pages - 1) true ++ [false]
      /\ Forall (fun p => Z.of_nat (length (logs p)) <= k) pages.
Proof.
  induction fuel as [|fuel IH]; intros i c Hc Hfuel; [lia|].
  pose proof (merged_at i c Hc) as Hall.
  destruct (queryLogs_shape "" "" "" "" (default "" c) k d) as (Hiff & Hno & Hyes).
  cbv zeta in Hiff, Hno, Hyes. rewrite Hall in Hiff, Hno, Hyes.
  rewrite length_drop in Hiff.
  cbn [follow].
  destruct (hasMore (queryLogs "" "" "" "" (default "" c) (Some k) d)) eqn:Hm.
  - destruct (Hyes eq_refl ltac:(lia)) as (Hlogs & r & Hr & Hnext).
    pose proof (proj1 Hiff eq_refl) as Hlen.
    rewrite lookup_drop in Hr.
    destruct (IH (i + Z.to_nat k)%nat (Some (cursor_of r))) as (pages & Hf & Hcat & Hmore & Hsz).
    + right. exists r. split; [lia|]. split; [|reflexivity].
      replace (i + Z.to_nat k - 1)%nat with (i + (Z.to_nat k - 1))%nat by lia.
      exact Hr.
    + lia.
    + rewrite Hnext, Hf. cbn [fmap option_fmap option_map].
      eexists. split; [reflexivity|]. split; [|split].
      * cbn [List.map concat]. rewrite Hlogs, Hcat.
        rewrite <- drop_drop. apply take_drop.
      * cbn [List.map length]. rewrite Hm, Hmore.
        assert (Hne : (1 <= length pages)%nat).
        { destruct pages; [discriminate|simpl; lia]. }
        replace (S (length pages) - 1)%nat with (S (length pages - 1)) by lia.
        reflexivity.
      * constructor; [|exact Hsz]. rewrite Hlogs, length_take. lia.
  - destruct (Hno eq_refl ltac:(lia)) as (Hlogs & Hnext).
    eexists. split; [reflexivity|]. split; [|split].
    + cbn [List.map concat]. rewrite Hlogs. apply app_nil_r.
    + cbn [List.map length]. rewrite Hm. reflexivity.
    + constructor; [|constructor]. rewrite Hlogs, length_drop.
      destruct (Z.lt_ge_cases k (Z.of_nat (length L - i))) as [Hlt|Hge]; [|lia].
      apply Hiff in Hlt. discriminate.
Qed.

(** X27: in a process whose time zone is UTC, with a valid and distinct
    timestamp on every log row and a limit [k > 0], the paging loop ends
    within [N + 1] requests; the pages put end to end hold every row
    exactly once, in strictly descending (timestamp, id) order; no page
    has more than [k] rows; and [hasMore] is false on the last page and on
    no other. *)
Theorem following_cursors_lists_every_row_once :
  exists pages,
    follow (S (length (all_rows d))) "" "" "" "" None (Some k) d = Some pages
    /\ concat (List.map logs pages) ≡ₚ all_rows d
    /\ NoDup (concat (List.map logs pages))
    /\ StronglySorted descending (concat (List.map logs pages))
    /\ Forall (fun p => Z.of_nat (length (logs p)) <= k) pages
    /\ (forall i p, pages !! i = Some p ->
                    (hasMore p = false <-> i = (length pages - 1)%nat)).
Proof.
  destruct (follow_from (S (length (all_rows d))) 0 None) as (pages & Hf & Hcat & Hmore & Hsz).
  - left. auto.
  - rewrite (Permutation_length L_perm). unfold rows. lia.
  - rewrite drop_0 in Hcat.
    exists pages. split; [exact Hf|]. rewrite Hcat.
    split; [exact L_perm|]. split; [|split; [|split; [exact Hsz|]]].
    + rewrite L_perm. apply (NoDup_fmap_1 timestamp).
      rewrite <- list_fmap_map || idtac. exact Hdistinct.
    + destruct (merged_sorted "") as [Hs _]. fold L in Hs.
      clear -Hs. induction Hs as [|a l Hs IH Ha]; constructor; [exact IH|].
      eapply Forall_impl; [exact Ha|]. intros b Hb. left. exact Hb.
    + intros i p Hp.
      assert (Hi : List.map hasMore pages !! i = Some (hasMore p)).
      { rewrite <- list_fmap_map || idtac. rewrite list_lookup_fmap, Hp. reflexivity. }
      rewrite Hmore in Hi.
      pose proof (lookup_lt_Some _ _ _ Hp) as Hlt.
      destruct (decide (i = (length pages - 1)%nat)) as [E|Hne].
      * split; [intros _; exact E|intros _].
        rewrite lookup_app_r in Hi by (rewrite length_replicate; lia).
        rewrite length_replicate in Hi.
        replace (i - (length pages - 1))%nat with 0%nat in Hi by lia.
        simpl in Hi. congruence.
      * split; [|intros E; contradiction]. intros Hfalse.
        rewrite lookup_app_l in Hi by (rewrite length_replicate; lia).
        apply lookup_replicate in Hi as [Hi _]. congruence.
Qed.

End Pagination.

Lemma following_cursors_witness :
  exists pages,
    Dashboard.follow 4 "" "" "" "" None (Some 2) Examples.three_rows_db = Some pages
    /\ concat (List.map Dashboard.logs pages) ≡ₚ Props.all_rows Examples.three_rows_db
    /\ StronglySorted Props.descending (concat (List.map Dashboard.logs pages))
    /\ List.map Dashboard.hasMore pages = [true; false].
Proof.
  assert (Hvalid : Forall (fun r => is_Some (Clock.Date_getTime (Dashboard.timestamp r)))
                     (Props.all_rows Examples.three_rows_db)).
  { repeat constructor; eexists; vm_compute; reflexivity. }
  assert (Hdistinct : NoDup (List.map Dashboard.timestamp
                               (Props.all_rows Examples.three_rows_db))).
  { apply (bool_decide_unpack _). vm_compute. exact I. }
  destruct (following_cursors_lists_every_row_once Examples.three_rows_db
              Hvalid Hdistinct 2 eq_refl)
    as (pages & Hf & Hp & _ & Hs & _ & _).
  exists pages. split; [exact Hf|]. split; [exact Hp|]. split; [exact Hs|].
  vm_compute in Hf. injection Hf as <-. reflexivity.
Defined.

(** * The listing where the clocks change *)

Section Zones.

Import Store Dashboard Props Examples.

Lemma Date_getTime_in_utc (text : string) :
  Clock.Date_getTime_in Clock.utc text = Clock.Date_getTime text.
Proof.
  unfold Clock.Date_getTime_in, Clock.Date_getTime.
  destruct (Clock.stamp_fields text) as [f|]; [|reflexivity].
  destruct (Clock.valid_fields f); [|reflexivity].
  cbn [Clock.offset_at_local Clock.utc]. f_equal. lia.
Qed.

Lemma js_before_in_utc (a b : LogRow) : js_before_in Clock.utc a b = js_before a b.
Proof.
  unfold js_before_in, js_before, compare_logs_in, compare_logs.
  rewrite !Date_getTime_in_utc. reflexivity.
Qed.

Lemma insert_by_ext {A : Type} (f g : A -> A -> bool) (x : A) (l : list A) :
  (forall a b, f a b = g a b) -> insert_by f x l = insert_by g x l.
Proof.
  intros E. induction l as [|y l IH]; [reflexivity|]. simpl. rewrite E, IH. reflexivity.
Qed.

Lemma sort_by_ext {A : Type} (f g : A -> A -> bool) (l : list A) :
  (forall a b, f a b = g a b) -> sort_by f l = sort_by g l.
Proof.
  intros E. induction l as [|x l IH]; [reflexivity|]. simpl.
  rewrite IH. apply insert_by_ext. exact E.
Qed.

(** In a process in UTC the listing of any zone is the listing above. *)
Lemma queryLogs_in_utc (kind status channel_id q cursor : string) (limit : option Z)
    (db : Db) :
  queryLogs_in Clock.utc kind status channel_id q cursor limit db
  = queryLogs kind status channel_id q cursor limit db.
Proof.
  unfold queryLogs_in, queryLogs.
  rewrite (sort_by_ext (js_before_in Clock.utc) js_before _ js_before_in_utc).
  reflexivity.
Qed.

(** C2: where the clocks of the process's zone change, following the
    cursors skips a row.  The store holds two entries with the distinct
    timestamps 02:30:00 and 03:00:00 of 10 March 2024.  In a zone that
    leaves UTC-5 for UTC-4 at 02:00 of that day, the route reads the
    first text as the later instant and sorts its row first; with limit 1
    the first page holds that row and the cursor of its text, below which
    the other timestamp does not lie: the second page is empty and says
    there are no more, and the entry of 03:00:00 is listed on no page.  In
    UTC the same requests list both, the later first. *)
Theorem following_cursors_skips_a_row_where_clocks_change :
  List.map timestamp (all_rows spring_forward_db)
  = ["2024-03-10 02:30:00"; "2024-03-10 03:00:00"]
  /\ (exists first second,
        follow_in eastern_march_2024 3 "" "" "" "" None (Some 1) spring_forward_db
        = Some [first; second]
        /\ List.map timestamp (logs first) = ["2024-03-10 02:30:00"]
        /\ nextCursor first = Some "2024-03-10 02:30:00_1"
        /\ second = {| logs := []; hasMore := false; nextCursor := None |})
  /\ (exists pages,
        follow_in Clock.utc 3 "" "" "" "" None (Some 1) spring_forward_db = Some pages
        /\ List.map timestamp (concat (List.map logs pages))
           = ["2024-03-10 03:00:00"; "2024-03-10 02:30:00"]).
Proof.
  split; [vm_compute; reflexivity|]. split.
  - eexists. eexists. split; [vm_compute; reflexivity|].
    repeat split; vm_compute; reflexivity.
  - eexists. split; vm_compute; reflexivity.
Qed.

End Zones.

(** * The store's clock text and its reading *)

Section ClockText.

Import Clock Props.

Lemma is_leap_era (y k : Z) : is_leap (y + 400 * k) = is_leap y.
Proof.
  unfold is_leap.
  replace ((y + 400 * k) mod 4) with (y mod 4) by (Z.div_mod_to_equations; lia).
  replace ((y + 400 * k) mod 100) with (y mod 100) by (Z.div_mod_to_equations; lia).
  replace ((y + 400 * k) mod 400) with (y mod 400) by (Z.div_mod_to_equations; lia).
  reflexivity.
Qed.

Lemma days_before_year_era (y k : Z) :
  days_before_year (y + 400 * k) = days_before_year y + 146097 * k.
Proof. unfold days_before_year. Z.div_mod_to_equations. lia. Qed.

(** The first of March of year [y], counted from the first of March of
    year 0. *)
Lemma march_first (y : Z) :
  0 <= y <= 399 ->
  days_before_year y + 59 + (if is_leap y then 1 else 0)
  = 365 * y + y / 4 - y / 100 - 719468.
Proof.
  intros Hy. unfold days_before_year, is_leap.
  destruct (Z.eqb_spec (y mod 4) 0) as [H4|H4];
    destruct (Z.eqb_spec (y mod 100) 0) as [H100|H100];
    destruct (Z.eqb_spec (y mod 400) 0) as [H400|H400];
    cbn [andb orb negb];
    Z.div_mod_to_equations; lia.
Qed.

Lemma year_of_era (doe : Z) :
  0 <= doe < 146097 ->
  let yoe := (doe - doe / 1460 + doe / 36524 - doe / 146096) / 365 in
  let doy := doe - (365 * yoe + yoe / 4 - yoe / 100) in
  0 <= yoe <= 399 /\ 0 <= doy <= 365
  /\ (doy = 365 -> is_leap (yoe + 1) = true).
Proof.
  intros H yoe doy.
  assert (Hy : 0 <= yoe <= 399 /\ 0 <= doy <= 365
               /\ (doy = 365 -> yoe mod 4 = 3 /\ (yoe mod 100 <> 99 \/ yoe = 399))).
  { subst doy yoe. Z.div_mod_to_equations. lia. }
  destruct Hy as (Hy & Hd & Hl). split; [exact Hy|]. split; [exact Hd|].
  intros E. specialize (Hl E). clearbody yoe. clear doy Hd E.
  unfold is_leap.
  destruct (Z.eqb_spec ((yoe + 1) mod 4) 0) as [H4|H4];
    destruct (Z.eqb_spec ((yoe + 1) mod 100) 0) as [H100|H100];
    destruct (Z.eqb_spec ((yoe + 1) mod 400) 0) as [H400|H400];
    cbn [andb orb negb]; try reflexivity; exfalso;
    Z.div_mod_to_equations; lia.
Qed.

(** Month and day of the [doy]-th day of a year that starts in March. *)
Lemma month_of_year (doy : Z) :
  0 <= doy <= 365 ->
  let mp := (5 * doy + 2) / 153 in
  let d := doy - (153 * mp + 2) / 5 + 1 in
  let m := if mp <? 10 then mp + 3 else mp - 9 in
  1 <= m <= 12 /\ 1 <= d
  /\ (m <> 2 -> d <= days_in_month 0 m)
  /\ (m = 2 -> d <= 29 /\ (d = 29 -> doy = 365))
  /\ doy = (if m <=? 2 then 306 else -59) + days_before_month 1 m + d - 1.
Proof.
  intros H mp d m.
  assert (Hmp : 0 <= mp <= 11) by (subst mp; Z.div_mod_to_equations; lia).
  assert (Hq : 153 * mp <= 5 * doy + 2 < 153 * mp + 153)
    by (subst mp; Z.div_mod_to_equations; lia).
  clearbody mp.
  assert (Ecase : mp = 0 \/ mp = 1 \/ mp = 2 \/ mp = 3 \/ mp = 4 \/ mp = 5 \/ mp = 6
                  \/ mp = 7 \/ mp = 8 \/ mp = 9 \/ mp = 10 \/ mp = 11) by lia.
  repeat (destruct Ecase as [Ecase|Ecase]); subst mp; subst m d;
    cbv [days_in_month days_before_month is_leap];
    repeat match goal with
           | |- context [if ?b then _ else _] =>
               let v := eval vm_compute in b in
               lazymatch v with
               | true => change b with true
               | false => change b with false
               end; cbv iota
           end;
    Z.div_mod_to_equations; lia.
Qed.

Lemma days_before_month_leap (y m : Z) :
  days_before_month y m
  = days_before_month 1 m + (if (2 <? m) && is_leap y then 1 else 0).
Proof.
  unfold days_before_month. change (is_leap 1) with false.
  rewrite andb_false_r. destruct ((2 <? m) && is_leap y); lia.
Qed.

Lemma days_in_month_other (y m : Z) : m <> 2 -> days_in_month y m = days_in_month 0 m.
Proof.
  intros H. unfold days_in_month. destruct (Z.eqb_spec m 2); [contradiction|reflexivity].
Qed.

(** The date computed for a day number is a date of the calendar, and it
    is the date of that day. *)
Lemma civil_from_days_spec (n : Z) :
  let '(y, m, d) := civil_from_days n in
  valid_civil y m d = true /\ days_from_civil y m d = n.
Proof.
  unfold civil_from_days.
  set (z := n + 719468).
  set (era := z / 146097).
  set (doe := z - era * 146097).
  set (yoe := (doe - doe / 1460 + doe / 36524 - doe / 146096) / 365).
  set (doy := doe - (365 * yoe + yoe / 4 - yoe / 100)).
  set (mp := (5 * doy + 2) / 153).
  set (d := doy - (153 * mp + 2) / 5 + 1).
  set (m := if mp <? 10 then mp + 3 else mp - 9).
  assert (Hdoe : 0 <= doe < 146097) by (subst doe era; Z.div_mod_to_equations; lia).
  destruct (year_of_era doe Hdoe) as (Hyoe & Hdoy & Hleap).
  fold yoe in Hyoe, Hdoy, Hleap. fold doy in Hdoy, Hleap.
  destruct (month_of_year doy Hdoy) as (Hm & Hd & Hother & Hfeb & Edoy).
  fold mp in Hm, Hd, Hother, Hfeb, Edoy. fold d in Hd, Hother, Hfeb, Edoy.
  fold m in Hm, Hother, Hfeb, Edoy.
  assert (En : n = days_before_year (yoe + 400 * era) + 59
                   + (if is_leap (yoe + 400 * era) then 1 else 0) + doy).
  { rewrite days_before_year_era, is_leap_era.
    pose proof (march_first yoe Hyoe) as Hmf. subst doy doe z. lia. }
  clearbody m d. clearbody doy. clearbody yoe. clearbody era. clear z doe Hdoe mp.
  replace (yoe + era * 400) with (yoe + 400 * era) by lia.
  set (Y := yoe + 400 * era) in *.
  unfold valid_civil, days_from_civil.
  revert Edoy. destruct (Z.leb_spec m 2) as [Hle|Hgt]; intros Edoy.
  - replace (Y + 1) with (yoe + 1 + 400 * era) by (subst Y; lia).
    assert (Eleap : is_leap (yoe + 1 + 400 * era) = is_leap (yoe + 1))
      by apply is_leap_era.
    split.
    + apply andb_true_iff. split; [apply andb_true_iff; split;
        [apply andb_true_iff; split|]|]; try (apply Z.leb_le; lia).
      apply Z.leb_le.
      destruct (Z.eq_dec m 2) as [E2|N2].
      * destruct (Hfeb E2) as [H29 Hd29]. subst m. unfold days_in_month.
        change (2 =? 2) with true. cbv iota. rewrite Eleap.
        destruct (is_leap (yoe + 1)) eqn:El; [lia|].
        destruct (Z.eq_dec d 29) as [E29|N29]; [|lia].
        pose proof (Hleap (Hd29 E29)) as Ht. congruence.
      * rewrite days_in_month_other by exact N2. exact (Hother N2).
    + replace (yoe + 1 + 400 * era) with (Y + 1) by (subst Y; lia).
      rewrite days_before_year_succ, days_before_month_leap.
      replace (2 <? m) with false by (symmetry; apply Z.ltb_ge; lia).
      cbn [andb]. clearbody Y. revert En. generalize (if is_leap Y then 1 else 0).
      intros L En. clear -En Edoy. lia.
  - replace (Y + 0) with Y by lia. split.
    + apply andb_true_iff. split; [apply andb_true_iff; split;
        [apply andb_true_iff; split|]|]; try (apply Z.leb_le; lia).
      apply Z.leb_le. rewrite days_in_month_other by lia. apply Hother. lia.
    + rewrite days_before_month_leap.
      replace (2 <? m) with true by (symmetry; apply Z.ltb_lt; lia).
      cbn [andb]. clearbody Y. revert En. generalize (if is_leap Y then 1 else 0).
      intros L En. clear -En Edoy. lia.
Qed.

Lemma year_in_range (n : Z) :
  0 <= n < 2932897 ->
  let '(y, m, d) := civil_from_days n in 1970 <= y <= 9999.
Proof.
  intros Hn. pose proof (civil_from_days_spec n) as H.
  destruct (civil_from_days n) as [[y m] d]. destruct H as [Hv E].
  unfold valid_civil in Hv.
  apply andb_true_iff in Hv as [Hv Hd2]. apply andb_true_iff in Hv as [Hv Hd1].
  apply andb_true_iff in Hv as [Hm1 Hm2].
  apply Z.leb_le in Hm1, Hm2, Hd1, Hd2.
  pose proof (days_before_month_bound y m ltac:(lia)) as [Hb1 Hb2].
  unfold days_from_civil in E.
  split.
  - destruct (Z.lt_ge_cases y 1970) as [Hlt|Hge]; [|exact Hge].
    pose proof (days_before_year_next y 1970 Hlt) as Hs.
    change (days_before_year 1970) with 0 in Hs.
    destruct (is_leap y); lia.
  - destruct (Z.lt_ge_cases y 10000) as [Hlt|Hge]; [lia|].
    pose proof (days_before_year_step 10000 (y - 10000) ltac:(lia)) as Hs.
    replace (10000 + (y - 10000)) with y in Hs by lia.
    change (days_before_year 10000) with 2932897 in Hs. lia.
Qed.

Lemma stamp_fields_stamp_text (y1 y2 y3 y4 m1 m2 d1 d2 h1 h2 n1 n2 s1 s2 : ascii) :
  Forall (fun c => Js.is_digit c = true)
    [y1; y2; y3; y4; m1; m2; d1; d2; h1; h2; n1; n2; s1; s2] ->
  stamp_fields (stamp_text y1 y2 y3 y4 m1 m2 d1 d2 h1 h2 n1 n2 s1 s2)
  = Some (num4 y1 y2 y3 y4, num2 m1 m2, num2 d1 d2,
          num2 h1 h2, num2 n1 n2, num2 s1 s2).
Proof.
  intros H. unfold stamp_fields, stamp_text.
  cbn [list_ascii_of_string].
  replace (forallb Js.is_digit [y1; y2; y3; y4; m1; m2; d1; d2; h1; h2; n1; n2; s1; s2])
    with true.
  - reflexivity.
  - symmetry. apply List.forallb_forall. intros c Hc.
    apply (proj1 (List.Forall_forall _ _) H c Hc).
Qed.

(** The text written at epoch second [t] splits into the six numbers of
    that instant. *)
Lemma stamp_fields_current_timestamp (t : Z) :
  0 <= t < 253402300800 ->
  let '(y, m, d) := civil_from_days (t / 86400) in
  stamp_fields (current_timestamp t)
  = Some (y, m, d, t mod 86400 / 3600, t mod 86400 / 60 mod 60, t mod 86400 mod 60).
Proof.
  intros Ht.
  assert (Hday : 0 <= t / 86400 < 2932897) by (Z.div_mod_to_equations; lia).
  pose proof (year_in_range _ Hday) as Hy.
  pose proof (civil_from_days_spec (t / 86400)) as Hs.
  unfold current_timestamp, date_text, time_text.
  destruct (civil_from_days (t / 86400)) as [[y m] d]. destruct Hs as [Hv _].
  unfold valid_civil in Hv.
  apply andb_true_iff in Hv as [Hv Hd2]. apply andb_true_iff in Hv as [Hv Hd1].
  apply andb_true_iff in Hv as [Hm1 Hm2].
  apply Z.leb_le in Hm1, Hm2, Hd1, Hd2.
  pose proof (days_in_month_pos y m) as Hdim.
  set (sod := t mod 86400).
  assert (Hsod : 0 <= sod < 86400) by (subst sod; Z.div_mod_to_equations; lia).
  clearbody sod.
  unfold pad4, pad3, pad2. cbn [String.append].
  match goal with
  | |- stamp_fields ?s = _ =>
      change s with
        (stamp_text (Js.digit_char (y / 1000 mod 10)) (Js.digit_char (y / 100 mod 10))
           (Js.digit_char (y / 10 mod 10)) (Js.digit_char (y mod 10))
           (Js.digit_char (m / 10 mod 10)) (Js.digit_char (m mod 10))
           (Js.digit_char (d / 10 mod 10)) (Js.digit_char (d mod 10))
           (Js.digit_char (sod / 3600 / 10 mod 10)) (Js.digit_char (sod / 3600 mod 10))
           (Js.digit_char (sod / 60 mod 60 / 10 mod 10))
           (Js.digit_char (sod / 60 mod 60 mod 10))
           (Js.digit_char (sod mod 60 / 10 mod 10)) (Js.digit_char (sod mod 60 mod 10)))
  end.
  rewrite stamp_fields_stamp_text.
  - unfold num4, num2.
    rewrite !(fun k H => proj2 (digit_char_is_digit k H))
      by (Z.div_mod_to_equations; lia).
    f_equal. repeat f_equal; Z.div_mod_to_equations; lia.
  - repeat constructor; apply digit_char_is_digit; Z.div_mod_to_equations; lia.
Qed.

(** What the store writes at epoch second [t], the routes read back as
    that second. *)
Lemma Date_getTime_current_timestamp (t : Z) :
  0 <= t < 253402300800 ->
  Date_getTime (current_timestamp t) = Some (t * 1000).
Proof.
  intros Ht. pose proof (stamp_fields_current_timestamp t Ht) as Hf.
  pose proof (civil_from_days_spec (t / 86400)) as Hs.
  destruct (civil_from_days (t / 86400)) as [[y m] d]. destruct Hs as [Hv Hd].
  unfold Date_getTime. rewrite Hf. unfold valid_fields, valid_clock, epoch_ms.
  rewrite Hv, Hd. cbn [andb].
  replace ((t mod 86400 / 3600 <=? 23) && (t mod 86400 / 60 mod 60 <=? 59)
           && (t mod 86400 mod 60 <=? 59)) with true.
  - f_equal. Z.div_mod_to_equations. lia.
  - symmetry. rewrite !andb_true_iff, !Z.leb_le. Z.div_mod_to_equations. lia.
Qed.

(** The day of a stored timestamp is the day number of its date. *)
Lemma epoch_ms_day (y m d h n s : Z) :
  valid_clock h n s = true -> 0 <= h -> 0 <= n -> 0 <= s ->
  epoch_ms (y, m, d, h, n, s) / 86400000 = days_from_civil y m d.
Proof.
  unfold valid_clock, epoch_ms. intros Hv Hh Hn Hs.
  apply andb_true_iff in Hv as [Hv Hs']. apply andb_true_iff in Hv as [Hh' Hn'].
  apply Z.leb_le in Hh', Hn', Hs'.
  generalize (days_from_civil y m d). intros D.
  Z.div_mod_to_equations. lia.
Qed.

(** A stored timestamp against an ISO text: the ten characters of the
    date decide, and on the same date the stored text, with its space
    where the ISO text has a [T], is the smaller one. *)
Lemma stamp_compare_iso (t : string) (ms c : Z) :
  Date_getTime t = Some ms ->
  0 <= c < 253402300800000 ->
  String.compare t (toISOString c) = lex (ms / 86400000 ?= c / 86400000) Lt.
Proof.
  intros Ht Hc. unfold Date_getTime in Ht.
  destruct (stamp_fields t) as [f|] eqn:Ef; [|discriminate].
  destruct (valid_fields f) eqn:Hvf; [|discriminate].
  injection Ht as <-.
  destruct f as [[[[[y' m'] d'] h'] n'] s'].
  pose proof (stamp_fields_nonneg _ _ _ _ _ _ _ Ef) as (Hh & Hn & Hs).
  unfold valid_fields in Hvf. apply andb_true_iff in Hvf as [Hvc Hvk].
  rewrite (epoch_ms_day _ _ _ _ _ _ Hvk Hh Hn Hs).
  destruct (stamp_fields_inv _ _ Ef)
    as (y1 & y2 & y3 & y4 & m1 & m2 & d1 & d2 & h1 & h2 & n1 & n2 & s1 & s2
        & -> & Hd & E).
  injection E as -> -> -> -> -> ->.
  repeat match goal with
         | H : Forall _ (_ :: _) |- _ =>
             let Hx := fresh "Hx" in
             apply Forall_cons in H as [Hx H]; apply digit_val_range in Hx
         end.
  assert (ED : c / 1000 / 86400 = c / 86400000) by (Z.div_mod_to_equations; lia).
  assert (Hday : 0 <= c / 86400000 < 2932897) by (Z.div_mod_to_equations; lia).
  unfold toISOString, date_text. rewrite ED.
  pose proof (year_in_range _ Hday) as Hy.
  pose proof (civil_from_days_spec (c / 86400000)) as Hspec.
  destruct (civil_from_days (c / 86400000)) as [[y m] d]. destruct Hspec as [Hv ED'].
  rewrite <- ED'.
  rewrite (days_from_civil_compare _ _ _ _ _ _ Hvc Hv).
  unfold valid_civil in Hv.
  apply andb_true_iff in Hv as [Hv Hd2]. apply andb_true_iff in Hv as [Hv Hd1].
  apply andb_true_iff in Hv as [Hm1 Hm2].
  apply Z.leb_le in Hm1, Hm2, Hd1, Hd2.
  pose proof (days_in_month_pos y m) as Hdim.
  unfold stamp_text, pad4, pad3, pad2. cbn [String.append].
  do 11 rewrite compare_cons.
  change (Ascii.compare " " "T") with Lt.
  change (Ascii.compare "-" "-") with Eq.
  cbn [lex].
  rewrite !ascii_compare_digit_val.
  rewrite !(fun k H => proj2 (digit_char_is_digit k H))
    by (Z.div_mod_to_equations; lia).
  rewrite <- (lex_digits2 (Js.digit_val d1) (Js.digit_val d2) (d / 10 mod 10) (d mod 10))
    by (try assumption; Z.div_mod_to_equations; lia).
  rewrite <- (lex_digits2 (Js.digit_val m1) (Js.digit_val m2) (m / 10 mod 10) (m mod 10))
    by (try assumption; Z.div_mod_to_equations; lia).
  rewrite <- (lex_digits4 (Js.digit_val y1) (Js.digit_val y2) (Js.digit_val y3)
                (Js.digit_val y4) (y / 1000 mod 10) (y / 100 mod 10) (y / 10 mod 10)
                (y mod 10))
    by (try assumption; Z.div_mod_to_equations; lia).
  replace (1000 * (y / 1000 mod 10) + 100 * (y / 100 mod 10) + 10 * (y / 10 mod 10)
           + y mod 10) with y by (Z.div_mod_to_equations; lia).
  replace (10 * (m / 10 mod 10) + m mod 10) with m by (Z.div_mod_to_equations; lia).
  replace (10 * (d / 10 mod 10) + d mod 10) with d by (Z.div_mod_to_equations; lia).
  unfold num4, num2.
  destruct (1000 * Js.digit_val y1 + 100 * Js.digit_val y2 + 10 * Js.digit_val y3
            + Js.digit_val y4 ?= y); try reflexivity.
  destruct (10 * Js.digit_val m1 + Js.digit_val m2 ?= m); reflexivity.
Qed.

End ClockText.

(** * The store: timestamps, rotation and keys *)

Section StoreFacts.

Import Store Examples Props Facts.

(** X1: an entry written by [logSend] or [logActivity] at an instant
    between 1970 and the year 10000 carries a timestamp text that
    [new Date(text).getTime()], as the listing route calls it, reads as
    that instant cut to the whole second. *)
Theorem logged_timestamp_reads_back_its_second
    (kind : string) (sdata : SendData) (adata : ActivityData) (now : Z) (d : Db) :
  0 <= now < year_10000 ->
  (exists e, send_logs (logSend kind sdata now d) = send_logs d ++ [e]
             /\ Clock.Date_getTime (sl_sent_at e) = Some (now / 1000 * 1000))
  /\ (exists a, activity_logs (logActivity kind adata now d) = activity_logs d ++ [a]
                /\ Clock.Date_getTime (al_created_at a) = Some (now / 1000 * 1000)).
Proof.
  intros Hnow. unfold year_10000 in Hnow.
  assert (Ht : 0 <= now / 1000 < 253402300800) by (Z.div_mod_to_equations; lia).
  split; eexists; (split; [reflexivity|]); cbn [sl_sent_at al_created_at];
    apply Date_getTime_current_timestamp; exact Ht.
Qed.

Lemma logged_timestamp_witness :
  exists e, send_logs (logSend "reminder" no_send_data 1704110400123 empty_db) = [e]
            /\ Clock.Date_getTime (sl_sent_at e) = Some 1704110400000.
Proof.
  destruct (logged_timestamp_reads_back_its_second "reminder" no_send_data
              no_activity_data 1704110400123 empty_db) as [H _].
  - unfold year_10000. lia.
  - exact H.
Defined.

(** A stored timestamp is below the ISO text of a cutoff exactly when its
    day is not after the cutoff's day. *)
Lemma older_by_day (t : string) (ms c : Z) :
  Clock.Date_getTime t = Some ms ->
  0 <= c < year_10000 ->
  String.ltb t (Clock.toISOString c) = (day_of ms <=? day_of c).
Proof.
  intros Ht Hc. unfold String.ltb.
  rewrite (stamp_compare_iso t ms c Ht Hc). unfold day_of.
  destruct (Z.compare_spec (ms / 86400000) (c / 86400000)) as [E|E|E]; cbn [lex];
    symmetry; [apply Z.leb_le|apply Z.leb_le|apply Z.leb_gt]; lia.
Qed.

(** And above it exactly when its day is after the cutoff's day. *)
Lemma newer_by_day (t : string) (ms c : Z) :
  Clock.Date_getTime t = Some ms ->
  0 <= c < year_10000 ->
  String.ltb (Clock.toISOString c) t = (day_of c <? day_of ms).
Proof.
  intros Ht Hc. unfold String.ltb.
  rewrite String.compare_antisym.
  rewrite (stamp_compare_iso t ms c Ht Hc). unfold day_of.
  destruct (Z.compare_spec (ms / 86400000) (c / 86400000)) as [E|E|E]; cbn [lex CompOpp];
    symmetry; [apply Z.ltb_ge|apply Z.ltb_ge|apply Z.ltb_lt]; lia.
Qed.



Lemma filter_split_length {A : Type} (p : A -> bool) (l : list A) :
  (length (List.filter p l) + length (List.filter (fun x => negb (p x)) l))%nat
  = length l.
Proof.
  induction l as [|x l IH]; simpl; [reflexivity|].
  destruct (p x); simpl; lia.
Qed.

Lemma filter_older_none {A : Type} (p : A -> bool) (l : list A) :
  List.filter p (List.filter (fun x => negb (p x)) l) = [].
Proof.
  induction l as [|x l IH]; simpl; [reflexivity|].
  destruct (p x) eqn:E; simpl; [exact IH|]. rewrite E. exact IH.
Qed.

(** The rows a rotation removes are what it returns; tasks and reminders
    are not touched. *)
Lemma rotateLogs_accounting (maxAge now : Z) (d : Db) :
  Z.of_nat (length (send_logs d)) + Z.of_nat (length (activity_logs d))
  = Z.of_nat (length (send_logs (snd (rotateLogs maxAge now d))))
    + Z.of_nat (length (activity_logs (snd (rotateLogs maxAge now d))))
    + fst (rotateLogs maxAge now d)
  /\ tasks (snd (rotateLogs maxAge now d)) = tasks d
  /\ reminders (snd (rotateLogs maxAge now d)) = reminders d.
Proof.
  set (cutoff := cutoff_text maxAge now).
  set (n := Z.of_nat (length (List.filter (send_older cutoff) (send_logs d)))
            + Z.of_nat (length (List.filter (activity_older cutoff) (activity_logs d)))).
  destruct (Z.eq_dec n 0) as [E0|N0].
  - assert (Es : List.filter (send_older cutoff) (send_logs d) = []).
    { apply length_zero_iff_nil. subst n. lia. }
    assert (Ea : List.filter (activity_older cutoff) (activity_logs d) = []).
    { apply length_zero_iff_nil. subst n. lia. }
    rewrite (rotateLogs_nothing_to_rotate maxAge now d Es Ea). cbn [fst snd].
    repeat split; lia.
  - pose proof (rotateLogs_removes_below_cutoff_text maxAge now d) as Hrot.
    cbv zeta in Hrot. fold cutoff in Hrot. fold n in Hrot. specialize (Hrot N0).
    destruct (rotateLogs maxAge now d) as [archived d'].
    destruct Hrot as (-> & Hsl & Hal & _ & Ht & Hr).
    cbn [fst snd]. split; [|split; assumption].
    rewrite Hsl, Hal.
    pose proof (filter_split_length (send_older cutoff) (send_logs d)).
    pose proof (filter_split_length (activity_older cutoff) (activity_logs d)).
    subst n. lia.
Qed.

(** X3: with a cutoff instant ([maxAge] days before now) between 1970 and
    the year 10000, rotation returns the number of rows it removed from
    the two log tables together; it returns 0 exactly when it leaves the
    store as it was, and otherwise adds one marker that records the number;
    tasks and reminders are never touched; and a second rotation with the
    same cutoff finds nothing left to remove. *)
Theorem rotateLogs_counts_what_it_removes (maxAge now : Z) (d : Db) :
  0 <= Clock.minus_days now maxAge < year_10000 ->
  let n := fst (rotateLogs maxAge now d) in
  let d' := snd (rotateLogs maxAge now d) in
  Z.of_nat (length (send_logs d)) + Z.of_nat (length (activity_logs d))
  = Z.of_nat (length (send_logs d')) + Z.of_nat (length (activity_logs d')) + n
  /\ (n = 0 <-> d' = d)
  /\ (n <> 0 -> exists m, log_rotation d' = log_rotation d ++ [m]
                          /\ rm_records_archived m = n)
  /\ rotateLogs maxAge now d' = (0, d')
  /\ tasks d' = tasks d /\ reminders d' = reminders d.
Proof.
  intros _ n d'. subst n d'.
  set (cutoff := cutoff_text maxAge now).
  set (n := Z.of_nat (length (List.filter (send_older cutoff) (send_logs d)))
            + Z.of_nat (length (List.filter (activity_older cutoff) (activity_logs d)))).
  destruct (Z.eq_dec n 0) as [E0|N0].
  - assert (Es : List.filter (send_older cutoff) (send_logs d) = []).
    { apply length_zero_iff_nil. subst n. lia. }
    assert (Ea : List.filter (activity_older cutoff) (activity_logs d) = []).
    { apply length_zero_iff_nil. subst n. lia. }
    rewrite (rotateLogs_nothing_to_rotate maxAge now d Es Ea). cbn [fst snd].
    rewrite (rotateLogs_nothing_to_rotate maxAge now d Es Ea).
    repeat split; try reflexivity; try lia.
  - pose proof (rotateLogs_removes_below_cutoff_text maxAge now d) as Hrot.
    cbv zeta in Hrot. fold cutoff in Hrot. fold n in Hrot. specialize (Hrot N0).
    destruct (rotateLogs maxAge now d) as [archived d'].
    destruct Hrot as (-> & Hsl & Hal & (m & Hm & Hcount & _) & Ht & Hr).
    cbn [fst snd].
    split; [|split; [|split; [|split; [|split]]]].
    + rewrite Hsl, Hal.
      pose proof (filter_split_length (send_older cutoff) (send_logs d)).
      pose proof (filter_split_length (activity_older cutoff) (activity_logs d)).
      subst n. lia.
    + split; [intros E; contradiction|].
      intros E. exfalso. rewrite E in Hm.
      apply (f_equal (@length _)) in Hm. rewrite length_app in Hm. simpl in Hm. lia.
    + intros _. exists m. split; assumption.
    + apply rotateLogs_nothing_to_rotate; fold cutoff.
      * rewrite Hsl. apply filter_older_none.
      * rewrite Hal. apply filter_older_none.
    + exact Ht.
    + exact Hr.
Qed.

Lemma rotateLogs_counts_witness :
  fst (rotateLogs 30 1706695200000 noon_entry_db) = 1
  /\ send_logs (snd (rotateLogs 30 1706695200000 noon_entry_db)) = []
  /\ rotateLogs 30 1706695200000 (snd (rotateLogs 30 1706695200000 noon_entry_db))
     = (0, snd (rotateLogs 30 1706695200000 noon_entry_db)).
Proof.
  assert (Hc : 0 <= Clock.minus_days 1706695200000 30 < year_10000)
    by (unfold year_10000, Clock.minus_days; lia).
  destruct (rotateLogs_counts_what_it_removes 30 1706695200000 noon_entry_db Hc)
    as (_ & _ & _ & Hagain & _).
  split; [vm_compute; reflexivity|]. split; [vm_compute; reflexivity|exact Hagain].
Defined.

Lemma keys_fresh_nil {A : Type} (key : A -> Z) (c : Z) :
  0 <= c -> keys_fresh key [] c.
Proof. intros H. split; [constructor|split; [constructor|exact H]]. Qed.

Lemma keys_fresh_snoc {A : Type} (key : A -> Z) (rows : list A) (c : Z) (x : A) :
  keys_fresh key rows c -> key x = c + 1 ->
  keys_fresh key (rows ++ [x]) (c + 1).
Proof.
  intros (Hnd & Hall & Hc) Hx. split; [|split; [|lia]].
  - rewrite List.map_app. simpl. apply NoDup_app. split; [exact Hnd|].
    split; [|apply NoDup_singleton].
    intros k Hk Hk'. apply list_elem_of_In in Hk'. destruct Hk' as [<-|[]].
    apply list_elem_of_In, in_map_iff in Hk as (r & Er & Hr).
    pose proof (proj1 (List.Forall_forall _ _) Hall r Hr) as Hb. cbv beta in Hb. lia.
  - apply Forall_app. split.
    + eapply List.Forall_impl; [|exact Hall]. cbv beta. intros r Hr. lia.
    + constructor; [lia|constructor].
Qed.

Lemma keys_fresh_filter {A : Type} (key : A -> Z) (p : A -> bool) (rows : list A) (c : Z) :
  keys_fresh key rows c -> keys_fresh key (List.filter p rows) c.
Proof.
  intros (Hnd & Hall & Hc). split; [|split; [|exact Hc]].
  - clear Hall. induction rows as [|x rows IH]; simpl; [constructor|].
    apply NoDup_cons in Hnd as [Hx Hnd]. destruct (p x); [|exact (IH Hnd)].
    simpl. apply NoDup_cons. split; [|exact (IH Hnd)].
    intros Hin. apply Hx. apply list_elem_of_In, in_map_iff in Hin as (r & Er & Hr).
    apply filter_In in Hr as [Hr _]. apply list_elem_of_In, in_map_iff.
    exists r. split; assumption.
  - apply List.Forall_forall. intros r Hr. apply filter_In in Hr as [Hr _].
    exact (proj1 (List.Forall_forall _ _) Hall r Hr).
Qed.

End StoreFacts.
Section IdFacts.
Import Store Examples Props Facts.



End IdFacts.

(** * Sorting with a total preorder *)

Section TotalSort.

Import Dashboard.

Context {A : Type} (before : A -> A -> bool).

Hypothesis before_total : forall a b, before a b = false -> before b a = true.
Hypothesis before_trans :
  forall a b c, before a b = true -> before b c = true -> before a c = true.

Let ordered (a b : A) : Prop := before a b = true.

Lemma insert_by_ordered (x : A) (l : list A) :
  StronglySorted ordered l -> StronglySorted ordered (insert_by before x l).
Proof.
  intros Hs. induction Hs as [|y l Hs IH Hy]; simpl.
  - repeat constructor.
  - destruct (before x y) eqn:E.
    + constructor; [constructor; assumption|].
      constructor; [exact E|].
      eapply List.Forall_impl; [|exact Hy]. intros z Hz.
      exact (before_trans x y z E Hz).
    + constructor; [exact IH|].
      apply List.Forall_forall. intros z Hz.
      apply list_elem_of_In in Hz. rewrite insert_by_perm in Hz.
      apply list_elem_of_In in Hz. destruct Hz as [<-|Hz].
      * exact (before_total x y E).
      * exact (proj1 (List.Forall_forall _ _) Hy z Hz).
Qed.

Lemma sort_by_ordered (l : list A) : StronglySorted ordered (sort_by before l).
Proof.
  induction l as [|x l IH]; simpl; [constructor|].
  apply insert_by_ordered. exact IH.
Qed.

End TotalSort.

Section TextOrder.

Lemma string_le_total (a b : string) :
  negb (String.ltb b a) = false -> negb (String.ltb a b) = true.
Proof.
  unfold String.ltb. rewrite (String.compare_antisym a b).
  destruct (String.compare b a); simpl; congruence.
Qed.

Lemma string_le_trans (a b c : string) :
  negb (String.ltb b a) = true -> negb (String.ltb c b) = true ->
  negb (String.ltb c a) = true.
Proof.
  unfold String.ltb. intros Hab Hbc.
  destruct (String.compare c a) eqn:Eca; try reflexivity. exfalso.
  apply OrderedTypeEx.String_as_OT.cmp_lt in Eca.
  destruct (String.compare b a) eqn:Eba; [| |].
  - apply OrderedTypeEx.String_as_OT.cmp_eq in Eba. subst b.
    apply OrderedTypeEx.String_as_OT.cmp_lt in Eca. unfold OrderedTypeEx.String_as_OT.cmp in Eca.
    rewrite Eca in Hbc. discriminate.
  - discriminate.
  - destruct (String.compare c b) eqn:Ecb; [| |].
    + apply OrderedTypeEx.String_as_OT.cmp_eq in Ecb. subst c.
      apply OrderedTypeEx.String_as_OT.cmp_lt in Eca. unfold OrderedTypeEx.String_as_OT.cmp in Eca. congruence.
    + discriminate.
    + (* a < b and b < c *)
      assert (Hab' : OrderedTypeEx.String_as_OT.lt a b).
      { apply OrderedTypeEx.String_as_OT.cmp_lt. unfold OrderedTypeEx.String_as_OT.cmp.
        rewrite String.compare_antisym, Eba. reflexivity. }
      assert (Hbc' : OrderedTypeEx.String_as_OT.lt b c).
      { apply OrderedTypeEx.String_as_OT.cmp_lt. unfold OrderedTypeEx.String_as_OT.cmp.
        rewrite String.compare_antisym, Ecb. reflexivity. }
      pose proof (OrderedTypeEx.String_as_OT.lt_trans _ _ _ Hab' Hbc') as Hac.
      pose proof (OrderedTypeEx.String_as_OT.lt_trans _ _ _ Hac Eca) as Haa.
      exact (OrderedTypeEx.String_as_OT.lt_not_eq _ _ Haa eq_refl).
Qed.

End TextOrder.
(** * Start-up: scheduling what the store holds *)

Section Startup.

Import Store Bot Examples Props Facts.

Lemma fold_left_over_map {A B C : Type} (f : A -> B -> A) (g : C -> B)
    (l : list C) (a : A) :
  fold_left f (List.map g l) a = fold_left (fun acc x => f acc (g x)) l a.
Proof. revert a. induction l as [|x l IH]; intros a; simpl; [reflexivity|apply IH]. Qed.

Lemma loadScheduledItems_fold (b : State) :
  loadScheduledItems b = fold_left apply_registration (registrations (db b)) b.
Proof.
  unfold loadScheduledItems, registrations.
  rewrite fold_left_app. rewrite !fold_left_over_map. reflexivity.
Qed.

Lemma apply_registration_jobs (b : State) (r : Registration) :
  jobs (apply_registration b r) = jobs b ++ [job_of r]
  /\ cronJobs (apply_registration b r)
     = <[job_key (reg_kind r) (Some (reg_id r)) := length (jobs b)]> (cronJobs b)
  /\ db (apply_registration b r) = db b
  /\ channels (apply_registration b r) = channels b
  /\ LOGS_TOKEN (apply_registration b r) = LOGS_TOKEN b.
Proof.
  assert (Halter : forall j0 : CronJob,
             alter (set_running true) (length (jobs b)) (jobs b ++ [set_running false j0])
             = jobs b ++ [set_running true j0]).
  { intros j0. rewrite <- (Nat.add_0_r (length (jobs b))) at 1.
    rewrite alter_app_r. reflexivity. }
  destruct r as [k id content channel user time days].
  destruct k; unfold apply_registration, register, scheduleReminder, scheduleTask,
    cron_schedule, job_start;
    cbn [reg_kind reg_id reg_content reg_channel reg_user reg_time reg_days
         jobs cronJobs db channels LOGS_TOKEN with_jobs with_cronJobs emit fst snd];
    rewrite Halter; repeat split.
Qed.


(** The state after a run of registrations on an empty registry. *)
Lemma registrations_run (regs : list Registration) (b : State) :
  cronJobs b = ∅ -> jobs b = [] ->
  NoDup (List.map (fun r => (reg_kind r, reg_id r)) regs) ->
  let b' := fold_left apply_registration regs b in
  jobs b' = List.map job_of regs
  /\ db b' = db b
  /\ (forall i r, regs !! i = Some r ->
        cronJobs b' !! job_key (reg_kind r) (Some (reg_id r)) = Some i
        /\ live_triggers (reg_kind r) (Some (reg_id r)) b' = [i])
  /\ (forall k id, ~ In (k, id) (List.map (fun r => (reg_kind r, reg_id r)) regs) ->
        cronJobs b' !! job_key k (Some id) = None
        /\ live_triggers k (Some id) b' = []).
Proof.
  intros Hm Hj. induction regs as [|x regs IH] using rev_ind; intros Hnd b'.
  - subst b'. simpl. rewrite Hj, Hm. split; [reflexivity|]. split; [reflexivity|].
    split; [intros i r Hr; discriminate|].
    intros k id _. split; [apply lookup_empty|].
    unfold live_triggers. rewrite Hj. reflexivity.
  - rewrite List.map_app in Hnd. apply NoDup_app in Hnd as (Hnd & Hx & _).
    specialize (IH Hnd). cbv zeta in IH. destruct IH as (IHj & IHd & IHin & IHout).
    subst b'. rewrite fold_left_app. cbn [fold_left].
    set (bl := fold_left apply_registration regs b) in *.
    destruct (apply_registration_jobs bl x) as (Ej & Em & Ed & _).
    assert (Hlen : length (jobs bl) = length regs) by (rewrite IHj, length_map; reflexivity).
    assert (Hsnoc : forall k id,
               live_triggers k id (apply_registration bl x)
               = live_triggers k id bl
                 ++ (if same_kind (reg_kind x) k && bool_decide (Some (reg_id x) = id)
                     then [length (jobs bl)] else [])).
    { intros k id.
      apply (live_triggers_snoc (reg_kind x) k (Some (reg_id x)) id bl _ (job_of x));
        [exact Ej|reflexivity|reflexivity|reflexivity]. }
    assert (Hxout : ~ In (reg_kind x, reg_id x)
                      (List.map (fun r => (reg_kind r, reg_id r)) regs)).
    { intros Hin. apply (Hx (reg_kind x, reg_id x)).
      - apply list_elem_of_In. exact Hin.
      - simpl. apply list_elem_of_here. }
    split; [rewrite Ej, IHj, List.map_app; reflexivity|].
    split; [rewrite Ed; exact IHd|]. split.
    + intros i r Hr.
      destruct (lookup_app_Some regs [x] i r) as [Hcase _].
      destruct (Hcase Hr) as [Hl|[Hge Hl]].
      * destruct (IHin i r Hl) as [Hk Hlive].
        assert (Hne : (reg_kind r, reg_id r) <> (reg_kind x, reg_id x)).
        { intros E. apply Hxout. rewrite <- E. apply in_map_iff. exists r.
          split; [reflexivity|]. apply list_elem_of_In. eapply list_elem_of_lookup_2.
          exact Hl. }
        split.
        -- rewrite Em, lookup_insert_ne; [exact Hk|].
           intros E. apply job_key_inj in E as [Ek Ei]. apply Hne.
           injection Ei as Ei. rewrite Ek, Ei. reflexivity.
        -- rewrite Hsnoc, Hlive.
           destruct (same_kind (reg_kind x) (reg_kind r)
                     && bool_decide (Some (reg_id x) = Some (reg_id r))) eqn:E;
             [|reflexivity].
           apply andb_true_iff in E as [Ek Ei]. apply bool_decide_eq_true_1 in Ei.
           injection Ei as Ei. exfalso. apply Hne.
           destruct (reg_kind x), (reg_kind r); try discriminate; rewrite Ei; reflexivity.
      * destruct (i - length regs)%nat as [|n] eqn:En; [|destruct n; discriminate].
        injection Hl as <-. assert (i = length regs) by lia. subst i.
        split.
        -- rewrite Em, Hlen. apply lookup_insert_eq.
        -- rewrite Hsnoc. destruct (IHout (reg_kind x) (reg_id x) Hxout) as [_ ->].
           rewrite bool_decide_eq_true_2 by reflexivity. rewrite Hlen.
           destruct (reg_kind x); reflexivity.
    + intros k id Hout. rewrite List.map_app in Hout.
      assert (Hout1 : ~ In (k, id) (List.map (fun r => (reg_kind r, reg_id r)) regs)).
      { intros Hin. apply Hout. apply in_or_app. left. exact Hin. }
      assert (Hne : (reg_kind x, reg_id x) <> (k, id)).
      { intros E. apply Hout. apply in_or_app. right. left. exact E. }
      destruct (IHout k id Hout1) as [Hk Hlive]. split.
      * rewrite Em, lookup_insert_ne; [exact Hk|].
        intros E. apply job_key_inj in E as [Ek Ei]. apply Hne.
        injection Ei as Ei. rewrite Ek, Ei. reflexivity.
      * rewrite Hsnoc, Hlive.
        destruct (same_kind (reg_kind x) k && bool_decide (Some (reg_id x) = Some id)) eqn:E;
          [|reflexivity].
        apply andb_true_iff in E as [Ek Ei]. apply bool_decide_eq_true_1 in Ei.
        injection Ei as Ei. exfalso. apply Hne.
        destruct (reg_kind x), k; try discriminate; rewrite Ei; reflexivity.
Qed.
Lemma NoDup_map_injective {A B : Type} (f : A -> B) (l : list A) :
  (forall x y, f x = f y -> x = y) -> NoDup l -> NoDup (List.map f l).
Proof.
  intros Hf Hl. induction Hl as [|x l Hx Hl IH]; simpl; constructor; [|exact IH].
  intros Hin. apply Hx. apply list_elem_of_In, in_map_iff in Hin as (y & E & Hy).
  apply Hf in E. subst y. apply list_elem_of_In. exact Hy.
Qed.

Lemma registrations_NoDup (d : Db) :
  NoDup (List.map rem_id (reminders d)) -> NoDup (List.map task_id (tasks d)) ->
  NoDup (List.map (fun r => (reg_kind r, reg_id r)) (registrations d)).
Proof.
  intros Hr Ht. unfold registrations. rewrite List.map_app, !List.map_map.
  cbn [reg_kind reg_id registration_of_reminder registration_of_task].
  apply NoDup_app. split; [|split].
  - rewrite <- (List.map_map rem_id (fun i => (KReminder, i))).
    apply NoDup_map_injective; [|exact Hr].
    intros x y E. injection E as E. exact E.
  - intros p Hp Hp'.
    apply list_elem_of_In, in_map_iff in Hp as (r & <- & _).
    apply list_elem_of_In, in_map_iff in Hp' as (t & E & _). discriminate.
  - rewrite <- (List.map_map task_id (fun i => (KTask, i))).
    apply NoDup_map_injective; [|exact Ht].
    intros x y E. injection E as E. exact E.
Qed.

(** X5: started on an empty registry, with the keys of the stored rows
    distinct and the time and days of every stored row passing the checks
    of the slash commands (so that the cron library accepts every
    pattern), [loadScheduledItems] creates one task object per stored
    reminder and task, in table order and carrying the row's content,
    channel, time and days; the registry entry of each row's key points at
    its object, which is the only running trigger of that row; the store is
    not changed. *)
Theorem loadScheduledItems_gives_each_row_one_trigger (b : State) :
  cronJobs b = ∅ -> jobs b = [] ->
  NoDup (List.map rem_id (reminders (db b))) ->
  NoDup (List.map task_id (tasks (db b))) ->
  Forall (fun r => schedulable KReminder (rem_time r) None = true) (reminders (db b)) ->
  Forall (fun t => schedulable KTask (task_time t) (task_days t) = true) (tasks (db b)) ->
  let b' := loadScheduledItems b in
  db b' = db b
  /\ jobs b' = List.map job_of (registrations (db b))
  /\ (forall r, In r (reminders (db b)) ->
        exists h, cronJobs b' !! reminder_key (Some (rem_id r)) = Some h
                  /\ live_triggers KReminder (Some (rem_id r)) b' = [h]
                  /\ jobs b' !! h = Some (job_of (registration_of_reminder r)))
  /\ (forall t, In t (tasks (db b)) ->
        exists h, cronJobs b' !! task_key (Some (task_id t)) = Some h
                  /\ live_triggers KTask (Some (task_id t)) b' = [h]
                  /\ jobs b' !! h = Some (job_of (registration_of_task t))).
Proof.
  intros Hm Hj Hr Ht _ _ b'. subst b'. rewrite loadScheduledItems_fold.
  destruct (registrations_run (registrations (db b)) b Hm Hj
              (registrations_NoDup (db b) Hr Ht)) as (Ejobs & Edb & Hin & _).
  split; [exact Edb|]. split; [exact Ejobs|].
  assert (Hreg : forall x, In x (registrations (db b)) ->
            exists h, cronJobs (fold_left apply_registration (registrations (db b)) b)
                        !! job_key (reg_kind x) (Some (reg_id x)) = Some h
                      /\ live_triggers (reg_kind x) (Some (reg_id x))
                           (fold_left apply_registration (registrations (db b)) b) = [h]
                      /\ jobs (fold_left apply_registration (registrations (db b)) b) !! h
                         = Some (job_of x)).
  { intros x Hx. apply list_elem_of_In, list_elem_of_lookup_1 in Hx as [i Hi].
    exists i. destruct (Hin i x Hi) as [Hk Hl]. split; [exact Hk|]. split; [exact Hl|].
    rewrite Ejobs. rewrite <- list_fmap_map || idtac.
    rewrite list_lookup_fmap, Hi. reflexivity. }
  split.
  - intros r Hin'. apply (Hreg (registration_of_reminder r)).
    unfold registrations. apply in_or_app. left. apply in_map. exact Hin'.
  - intros t Hin'. apply (Hreg (registration_of_task t)).
    unfold registrations. apply in_or_app. right. apply in_map. exact Hin'.
Qed.

Lemma loadScheduledItems_witness :
  jobs started_state
  = [job_of {| reg_kind := KReminder; reg_id := 1; reg_content := "stand-up";
               reg_channel := "chan-1"; reg_user := "user-1"; reg_time := "09:00";
               reg_days := None |}].
Proof.
  refine (proj1 (proj2 (loadScheduledItems_gives_each_row_one_trigger
                          (with_db fresh_state
                             (insert_reminder "stand-up" "chan-1" "user-1" "09:00"
                                1704100000000 empty_db)) _ _ _ _ _ _))).
  - reflexivity.
  - reflexivity.
  - simpl. apply NoDup_singleton.
  - simpl. apply NoDup_nil_2.
  - repeat constructor.
  - constructor.
Defined.

End Startup.
(** * The log listing: cursors, limits and filters *)

Section ListingFacts.

Import Store Dashboard Examples Props Facts.

(** X6: the cursor text the route builds from a row with a valid timestamp
    is taken apart by the route into that row's timestamp and id; as the
    cursor of a later request it lets through exactly the rows whose
    timestamp text is smaller, or equal with a smaller id, so the row
    itself is excluded. *)
Theorem cursor_of_row_decodes_to_the_row (r : LogRow) (x : Z) (ts : string) (i : Z) :
  Clock.Date_getTime (timestamp r) = Some x ->
  cursor_parts (cursor_of r) = (timestamp r, Some (id r))
  /\ cursor_condition (cursor_of r) ts i
     = (String.ltb ts (timestamp r) || (String.eqb ts (timestamp r) && (i <? id r)))
  /\ cursor_condition (cursor_of r) (timestamp r) (id r) = false.
Proof.
  intros Hx. destruct (cursor_parts_cursor_of r x Hx) as [Hp Ht].
  split; [exact Hp|].
  assert (Hc : forall ts' i', cursor_condition (cursor_of r) ts' i'
               = (String.ltb ts' (timestamp r)
                  || (String.eqb ts' (timestamp r) && (i' <? id r)))).
  { intros ts' i'. unfold cursor_condition. rewrite Ht, Hp. reflexivity. }
  split; [apply Hc|].
  rewrite Hc. unfold String.ltb.
  rewrite (stamp_compare _ _ _ _ Hx Hx), Z.compare_refl.
  rewrite Z.ltb_irrefl, andb_false_r. reflexivity.
Qed.

Lemma cursor_of_row_witness :
  cursor_parts "2024-01-01 12:00:00_7" = ("2024-01-01 12:00:00", Some 7).
Proof.
  refine (proj1 (cursor_of_row_decodes_to_the_row
                   {| id := 7; kind := "reminder"; source := None; channel_id := None;
                      user_id := None; content := None; status := Some "sent";
                      error := None; message_id := None; ref_id := None;
                      timestamp := "2024-01-01 12:00:00"; log_type := "send" |}
                   1704110400000 "" 0 _)).
  vm_compute. reflexivity.
Defined.

Lemma merged_matching (kind status channel_id q cursor : string) (d : Db) :
  merged kind status channel_id q cursor d
  ≡ₚ matching_rows kind status channel_id q cursor d.
Proof.
  unfold merged, matching_rows, query_send_logs, query_activity_logs.
  rewrite sort_by_perm. apply Permutation_app; apply sort_by_perm.
Qed.

Lemma matching_nil_iff (kind status channel_id q cursor : string) (d : Db) :
  merged kind status channel_id q cursor d = []
  <-> matching_rows kind status channel_id q cursor d = [].
Proof.
  pose proof (merged_matching kind status channel_id q cursor d) as Hp.
  split; intros E.
  - rewrite E in Hp. apply Permutation_nil_l in Hp. congruence.
  - rewrite E in Hp. apply Permutation_nil_r in Hp. congruence.
Qed.

Lemma queryLogs_limit_zero_page (kind status channel_id q cursor : string) (d : Db) :
  logs (queryLogs kind status channel_id q cursor (Some 0) d) = [].
Proof.
  unfold queryLogs. cbn [logs fmap option_fmap option_map]. unfold slice0.
  change (0 + 1 <? 0) with false. cbv iota. change (Z.to_nat (0 + 1)) with 1%nat.
  destruct (sort_by js_before
              (query_send_logs kind status channel_id q cursor d
               ++ query_activity_logs kind status channel_id q cursor d));
    reflexivity.
Qed.

(** X7: the limit at its edges.  A limit that is not a number gives an
    empty page without [hasMore]; a negative limit always gives [hasMore],
    and with -1 an empty page and no cursor; limit 0 gives an empty page
    with no cursor, and [hasMore] exactly when some row passes the filters.
    A missing or empty [limit] parameter of the request stands for 50. *)
Theorem queryLogs_limit_edges (kind status channel_id q cursor : string) (d : Db) :
  queryLogs kind status channel_id q cursor None d
  = {| logs := []; hasMore := false; nextCursor := None |}
  /\ (forall l, l < 0 ->
        hasMore (queryLogs kind status channel_id q cursor (Some l) d) = true)
  /\ queryLogs kind status channel_id q cursor (Some (-1)) d
     = {| logs := []; hasMore := true; nextCursor := None |}
  /\ logs (queryLogs kind status channel_id q cursor (Some 0) d) = []
  /\ nextCursor (queryLogs kind status channel_id q cursor (Some 0) d) = None
  /\ (hasMore (queryLogs kind status channel_id q cursor (Some 0) d) = true
      <-> matching_rows kind status channel_id q cursor d <> [])
  /\ GET (Some kind) (Some status) (Some channel_id) (Some q) (Some cursor) None d
     = queryLogs kind status channel_id q cursor (Some 50) d
  /\ GET (Some kind) (Some status) (Some channel_id) (Some q) (Some cursor) (Some "") d
     = queryLogs kind status channel_id q cursor (Some 50) d.
Proof.
  split; [reflexivity|].
  split.
  { intros l Hl.
    destruct (queryLogs_shape kind status channel_id q cursor l d) as (Hiff & _).
    cbv zeta in Hiff. apply Hiff. lia. }
  fold (merged kind status channel_id q cursor d) || idtac.
  assert (H1 : queryLogs kind status channel_id q cursor (Some (-1)) d
               = {| logs := []; hasMore := true; nextCursor := None |}).
  { unfold queryLogs. cbn [fmap option_fmap option_map]. unfold slice0.
    change (-1 + 1 <? 0) with false. cbv iota.
    change (Z.to_nat (-1 + 1)) with 0%nat. rewrite take_0. reflexivity. }
  split; [exact H1|].
  assert (H0 : forall all : list LogRow,
             let logs0 := slice0 all (Some (0 + 1)) in
             (if 0 <? Z.of_nat (length logs0) then removelast logs0 else logs0) = []
             /\ ((0 <? Z.of_nat (length logs0)) = true <-> all <> [])).
  { intros all. unfold slice0. change (0 + 1 <? 0) with false. cbv iota.
    change (Z.to_nat (0 + 1)) with 1%nat.
    destruct all as [|a all]; simpl; [split; [reflexivity|]|split; [reflexivity|]].
    - split; [discriminate|intros H; contradiction].
    - split; [discriminate|reflexivity]. }
  specialize (H0 (sort_by js_before
                    (query_send_logs kind status channel_id q cursor d
                     ++ query_activity_logs kind status channel_id q cursor d))).
  cbv zeta in H0. destruct H0 as [Hl Hm].
  split; [exact Hl|].
  split.
  { unfold queryLogs. cbn [fmap option_fmap option_map nextCursor]. rewrite Hl.
    match goal with |- (if ?c then _ else _) = _ => destruct c end; reflexivity. }
  split.
  { unfold queryLogs. cbn [hasMore fmap option_fmap option_map]. rewrite Hm.
    fold (merged kind status channel_id q cursor d).
    rewrite <- matching_nil_iff. reflexivity. }
  split; reflexivity.
Qed.

Lemma queryLogs_limit_edges_witness :
  hasMore (queryLogs "" "" "" "" "" (Some (-3)) three_rows_db) = true.
Proof.
  refine (proj1 (proj2 (queryLogs_limit_edges "" "" "" "" "" three_rows_db)) (-3) _).
  lia.
Defined.

(** X8: for a limit [l >= 0], a page holds at most [l] rows, every one of
    them a row of the store that passes the filters and the cursor of the
    request, and when the page says there is no more, it holds all of
    them. *)
Theorem page_holds_matching_rows_only (kind status channel_id q cursor : string)
    (l : Z) (d : Db) :
  0 <= l ->
  let p := queryLogs kind status channel_id q cursor (Some l) d in
  Z.of_nat (length (logs p)) <= l
  /\ (forall r, In r (logs p) -> In r (matching_rows kind status channel_id q cursor d))
  /\ (hasMore p = false -> logs p ≡ₚ matching_rows kind status channel_id q cursor d).
Proof.
  intros Hl p.
  pose proof (merged_matching kind status channel_id q cursor d) as Hperm.
  destruct (queryLogs_shape kind status channel_id q cursor l d) as (Hiff & Hless & Hmore).
  cbv zeta in Hiff, Hless, Hmore. fold p in Hiff, Hless, Hmore.
  destruct (hasMore p) eqn:Hh.
  - assert (Hlogs : logs p = take (Z.to_nat l) (merged kind status channel_id q cursor d)).
    { destruct (Z.eq_dec l 0) as [->|Hne].
      - subst p. rewrite queryLogs_limit_zero_page. reflexivity.
      - apply (Hmore eq_refl). lia. }
    split; [rewrite Hlogs, length_take; lia|]. split; [|discriminate].
    intros r Hr. rewrite Hlogs in Hr.
    assert (Hi : In r (merged kind status channel_id q cursor d)).
    { rewrite <- (take_drop (Z.to_nat l) (merged kind status channel_id q cursor d)).
      apply in_or_app. left. exact Hr. }
    apply list_elem_of_In in Hi. rewrite Hperm in Hi.
    apply list_elem_of_In. exact Hi.
  - destruct (Hless eq_refl Hl) as [Hlogs _].
    assert (Hlen : ~ l < Z.of_nat (length (merged kind status channel_id q cursor d))).
    { intros H. apply Hiff in H. discriminate. }
    split; [rewrite Hlogs; lia|]. split.
    + intros r Hr. rewrite Hlogs in Hr. apply list_elem_of_In in Hr.
      rewrite Hperm in Hr. apply list_elem_of_In. exact Hr.
    + intros _. rewrite Hlogs. exact Hperm.
Qed.

Lemma page_holds_matching_rows_witness :
  Z.of_nat (length (logs (queryLogs "" "failed" "" "" "" (Some 1) three_rows_db))) <= 1.
Proof.
  refine (proj1 (page_holds_matching_rows_only "" "failed" "" "" "" 1 three_rows_db _)).
  lia.
Defined.

End ListingFacts.
(** * Listing reminders and deleting messages *)

Section CommandFacts.

Import Store Bot Commands Examples Props Facts.

(** X9: [/delete-messages] takes a missing count and the count 0 for 10, and
    refuses every other count outside 1..50 without touching anything.
    With a count in range it deletes nothing but messages written by the
    bot itself, taken from the first [count] of them in the fetched
    collection, and reports the number of deletions that succeeded; the
    store gains one activity entry, or none when the collection holds no
    message of the bot. *)
Theorem handleDeleteMessages_deletes_own_messages_within_count
    (ia : Interaction) (bot_user : string) (count : option Z)
    (messages : list Message) (now : Z) (b : State) :
  let c := default 10 (Js.or_null_int count) in
  let own := List.filter (fun m => String.eqb (msg_author m) bot_user) messages in
  let result := handleDeleteMessages ia bot_user count (inr messages) now b in
  handleDeleteMessages ia bot_user (Some 0) (inr messages) now b
  = handleDeleteMessages ia bot_user None (inr messages) now b
  /\ (c < 1 \/ 50 < c -> result = (CountOutOfRange, [], b))
  /\ (1 <= c <= 50 ->
      own = [] -> result = (NoBotMessages, [], b))
  /\ (1 <= c <= 50 ->
      own <> [] ->
      exists a,
        result
        = (MessagesDeleted
             (Z.of_nat (length (List.filter msg_deletes (take (Z.to_nat c) own)))),
           List.map msg_id (List.filter msg_deletes (take (Z.to_nat c) own)),
           with_db b (with_activity_logs (db b) (activity_logs (db b) ++ [a])
                        (seq_activity_logs (db b) + 1)))
        /\ al_kind a = "activity:messages_deleted"
        /\ al_status a = Some "success")
  /\ Z.of_nat (length (snd (fst result))) <= Z.max 0 (Z.min c 50)
  /\ (forall i, In i (snd (fst result)) ->
        exists m, In m messages /\ msg_id m = i /\ msg_author m = bot_user
                  /\ msg_deletes m = true).
Proof.
  intros c own result.
  assert (Hcases : (c < 1 \/ 50 < c) /\ result = (CountOutOfRange, [], b)
                   \/ 1 <= c <= 50 /\ own = [] /\ result = (NoBotMessages, [], b)
                   \/ 1 <= c <= 50 /\ own <> []
                      /\ exists a,
                          result
                          = (MessagesDeleted
                               (Z.of_nat (length (List.filter msg_deletes
                                                    (take (Z.to_nat c) own)))),
                             List.map msg_id (List.filter msg_deletes
                                                (take (Z.to_nat c) own)),
                             with_db b (with_activity_logs (db b)
                                          (activity_logs (db b) ++ [a])
                                          (seq_activity_logs (db b) + 1)))
                          /\ al_kind a = "activity:messages_deleted"
                          /\ al_status a = Some "success").
  { subst result. unfold handleDeleteMessages. fold c.
    destruct (Z.ltb_spec c 1) as [H1|H1]; [left; split; [lia|reflexivity]|].
    destruct (Z.ltb_spec 50 c) as [H2|H2]; [left; split; [lia|reflexivity]|].
    right. cbn [orb]. fold own.
    rewrite (slice0_take own c) by lia.
    destruct own as [|m own'] eqn:Eo.
    - left. rewrite take_nil. repeat split; try lia; reflexivity.
    - right. split; [lia|]. split; [discriminate|].
      destruct (Z.to_nat c) as [|n] eqn:En; [lia|].
      cbn [take]. eexists. split; [reflexivity|]. split; reflexivity. }
  split; [reflexivity|].
  split.
  { intros Hc. destruct Hcases as [[_ E]|[(Hr & _)|(Hr & _)]]; [exact E|lia|lia]. }
  split.
  { intros Hc Ho. destruct Hcases as [[Hr _]|[(_ & _ & E)|(_ & Hne & _)]];
      [lia|exact E|contradiction]. }
  split.
  { intros Hc Ho. destruct Hcases as [[Hr _]|[(_ & He & _)|(_ & _ & E)]];
      [lia|contradiction|exact E]. }
  assert (Hsub : forall i,
             In i (List.map msg_id (List.filter msg_deletes (take (Z.to_nat c) own))) ->
             exists m, In m messages /\ msg_id m = i /\ msg_author m = bot_user
                       /\ msg_deletes m = true).
  { intros i Hi. apply in_map_iff in Hi as (m & Em & Hm).
    apply filter_In in Hm as [Hm Hd].
    assert (Hown : In m own).
    { rewrite <- (take_drop (Z.to_nat c) own). apply in_or_app. left. exact Hm. }
    subst own. apply filter_In in Hown as [Hin Ha]. apply String.eqb_eq in Ha.
    exists m. repeat split; assumption. }
  destruct Hcases as [[_ E]|[(Hr & _ & E)|(Hr & _ & a & E & _)]]; rewrite E;
    cbn [fst snd length].
  - split; [lia|intros i []].
  - split; [lia|intros i []].
  - split; [|exact Hsub].
    rewrite length_map.
    pose proof (filter_split_length msg_deletes (take (Z.to_nat c) own)) as Hl.
    rewrite length_take in Hl. lia.
Qed.

Lemma handleDeleteMessages_witness :
  handleDeleteMessages alice "bot" (Some 51) (inr []) 1704110000000 fresh_state
  = (CountOutOfRange, [], fresh_state).
Proof.
  refine (proj1 (proj2 (handleDeleteMessages_deletes_own_messages_within_count
                          alice "bot" (Some 51) [] 1704110000000 fresh_state)) _).
  right. simpl. lia.
Defined.

(** X10: [/list-reminders] answers from the reminders of the caller alone,
    every one of them once, in non-descending order of the [time] text.
    With none, the answer is that there are no reminders and nothing is
    written; otherwise the store gains exactly one activity entry and
    neither the reminders nor the registry change. *)
Theorem handleListReminders_lists_the_callers_reminders
    (toLocaleDateString : string -> string) (ia : Interaction) (now : Z) (b : State) :
  let rows := user_reminders (ia_user ia) (db b) in
  let result := handleListReminders toLocaleDateString ia now b in
  rows ≡ₚ List.filter (fun r => String.eqb (rem_user_id r) (ia_user ia)) (reminders (db b))
  /\ StronglySorted (fun r r' => String.ltb (rem_time r') (rem_time r) = false) rows
  /\ (rows = [] -> result = (NoActiveReminders, b))
  /\ (rows <> [] ->
      fst result = RemindersList (list_response toLocaleDateString rows)
      /\ (exists a, activity_logs (db (snd result)) = activity_logs (db b) ++ [a]
                    /\ al_kind a = "activity:reminders_listed"
                    /\ al_user_id a = Js.or_null (Some (ia_user ia)))
      /\ reminders (db (snd result)) = reminders (db b)
      /\ tasks (db (snd result)) = tasks (db b)
      /\ send_logs (db (snd result)) = send_logs (db b)
      /\ cronJobs (snd result) = cronJobs b
      /\ jobs (snd result) = jobs b).
Proof.
  intros rows result. split; [apply sort_by_perm|]. split.
  - pose proof (sort_by_ordered
                  (fun a b0 : Reminder => negb (String.ltb (rem_time b0) (rem_time a)))
                  (fun x y => string_le_total (rem_time x) (rem_time y))
                  (fun x y z => string_le_trans (rem_time x) (rem_time y) (rem_time z))
                  (List.filter (fun r => String.eqb (rem_user_id r) (ia_user ia))
                     (reminders (db b)))) as Hs.
    fold (user_reminders (ia_user ia) (db b)) in Hs. fold rows in Hs.
    induction Hs as [|r l Hs IH Hr]; constructor; [exact IH|].
    eapply List.Forall_impl; [|exact Hr]. cbv beta. intros r' H.
    apply negb_true_iff in H. exact H.
  - subst result. unfold handleListReminders. fold rows.
    destruct rows as [|r rows']; split.
    + reflexivity.
    + intros H. contradiction.
    + discriminate.
    + intros _. cbn [fst snd]. split; [reflexivity|].
      split; [eexists; split; [reflexivity|split; reflexivity]|].
      repeat split.
Qed.

Lemma handleListReminders_witness :
  handleListReminders (fun text => text) bob 1704110000000 one_reminder_state
  = (NoActiveReminders, one_reminder_state).
Proof.
  refine (proj1 (proj2 (proj2 (handleListReminders_lists_the_callers_reminders
                                 (fun text => text) bob 1704110000000
                                 one_reminder_state))) _).
  reflexivity.
Defined.

End CommandFacts.
(** * Statistics and the rotation endpoint *)

Section MaintenanceFacts.

Import Store Bot Maintenance Examples Props Facts.

Lemma count_app {A : Type} (p : A -> bool) (l l' : list A) :
  count p (l ++ l') = count p l + count p l'.
Proof. unfold count. rewrite List.filter_app, length_app. lia. Qed.

Lemma count_all {A : Type} (l : list A) : count (fun _ => true) l = Z.of_nat (length l).
Proof.
  unfold count. f_equal. induction l as [|x l IH]; simpl; [reflexivity|].
  rewrite IH. reflexivity.
Qed.

Lemma count_bounds {A : Type} (p : A -> bool) (l : list A) :
  0 <= count p l <= Z.of_nat (length l).
Proof.
  unfold count. pose proof (filter_split_length p l). lia.
Qed.

(** X11: POST /rotate-logs.  Without the right token it answers 401 and
    changes nothing.  With it, and with a cutoff instant between 1970 and
    the year 10000, it rotates with the [maxAge] of the body, or 30 when
    there is none, and answers with the number of removed rows: the two
    log tables together lose exactly that many rows and then gain the one
    activity entry about the rotation, which carries [maxAge] and the
    number as its metadata; tasks, reminders and the registry stay as they
    are. *)
Theorem rotate_logs_reports_what_was_removed
    (token : option string) (maxAge : option Z) (now : Z) (b : State) :
  let result := rotate_logs token maxAge now b in
  let m := default 30 maxAge in
  (token_ok token b = false ->
   result = ({| http_status := 401; http_body := ErrorBody "Unauthorized" |}, b))
  /\ (token_ok token b = true ->
      0 <= Clock.minus_days now m < year_10000 ->
      exists n a,
        fst result
        = {| http_status := 200;
             http_body := RotatedBody "Log rotation completed" n m |}
        /\ n = fst (rotateLogs m now (db b))
        /\ Z.of_nat (length (send_logs (db b))) + Z.of_nat (length (activity_logs (db b)))
           = Z.of_nat (length (send_logs (db (snd result))))
             + (Z.of_nat (length (activity_logs (db (snd result)))) - 1) + n
        /\ last (activity_logs (db (snd result))) = Some a
        /\ al_kind a = "activity:logs_rotated"
        /\ al_metadata a = Some (rotation_metadata m n)
        /\ tasks (db (snd result)) = tasks (db b)
        /\ reminders (db (snd result)) = reminders (db b)
        /\ cronJobs (snd result) = cronJobs b
        /\ jobs (snd result) = jobs b).
Proof.
  intros result m. subst result. unfold rotate_logs. split.
  - intros ->. reflexivity.
  - intros -> _. cbn [negb]. fold m.
    destruct (rotateLogs_accounting m now (db b)) as (Hlen & Ht & Hr).
    destruct (rotateLogs m now (db b)) as [n d1]. cbn [fst snd] in *.
    eexists. eexists. split; [reflexivity|]. split; [reflexivity|].
    cbn [db with_db logActivity activity_logs send_logs with_activity_logs tasks
         reminders cronJobs jobs].
    split; [rewrite length_app; simpl; lia|].
    split; [apply last_snoc|].
    repeat split; assumption.
Qed.

Lemma rotate_logs_witness :
  exists n,
    fst (rotate_logs (Some "secret") None 1706695200000 fresh_state)
    = {| http_status := 200;
         http_body := RotatedBody "Log rotation completed" n 30 |}
    /\ n = 0.
Proof.
  destruct (proj2 (rotate_logs_reports_what_was_removed (Some "secret") None
                     1706695200000 fresh_state) eq_refl)
    as (n & a & Hfst & Hn & _).
  - unfold year_10000, Clock.minus_days. cbn [default]. lia.
  - exists n. split; [exact Hfst|]. rewrite Hn. vm_compute. reflexivity.
Defined.

(** X12: the numbers of [getStats] follow the operations on the store.
    Failed sends are never more than send logs; one [logSend] adds one send
    log, and one failed send exactly when its status is ["failed"]; one
    [logActivity] adds one activity log and nothing else; a new reminder
    counts as active at once; and a rotation whose cutoff instant lies
    between 1970 and the year 10000 takes from the two log counts together
    what it returns and leaves the task and reminder counts. *)
Theorem getStats_follows_the_operations
    (d : Db) (now maxAge : Z) (kind content channel_id user_id time : string)
    (sdata : SendData) (adata : ActivityData) :
  0 <= failedSends (getStats d) <= sendLogs (getStats d)
  /\ sendLogs (getStats (logSend kind sdata now d)) = sendLogs (getStats d) + 1
  /\ failedSends (getStats (logSend kind sdata now d))
     = failedSends (getStats d)
       + (if String.eqb (default "success" (Js.or_null (sd_status sdata))) "failed"
          then 1 else 0)
  /\ getStats (logActivity kind adata now d)
     = {| activeTasks := activeTasks (getStats d);
          activeReminders := activeReminders (getStats d);
          sendLogs := sendLogs (getStats d);
          activityLogs := activityLogs (getStats d) + 1;
          failedSends := failedSends (getStats d) |}
  /\ activeReminders (getStats (insert_reminder content channel_id user_id time now d))
     = activeReminders (getStats d) + 1
  /\ (0 <= Clock.minus_days now maxAge < year_10000 ->
      sendLogs (getStats d) + activityLogs (getStats d)
      = sendLogs (getStats (snd (rotateLogs maxAge now d)))
        + activityLogs (getStats (snd (rotateLogs maxAge now d)))
        + fst (rotateLogs maxAge now d)
      /\ activeTasks (getStats (snd (rotateLogs maxAge now d))) = activeTasks (getStats d)
      /\ activeReminders (getStats (snd (rotateLogs maxAge now d)))
         = activeReminders (getStats d)).
Proof.
  destruct (rotateLogs_accounting maxAge now d) as (Hlen & Ht & Hr).
  unfold getStats.
  cbn [activeTasks activeReminders sendLogs activityLogs failedSends
       logSend logActivity insert_reminder send_logs activity_logs tasks reminders
       with_send_logs with_activity_logs with_reminders].
  rewrite Ht, Hr, ?count_app, ?count_all.
  split.
  { pose proof (count_bounds (fun r => String.eqb (sl_status r) "failed") (send_logs d)).
    lia. }
  split; [simpl; lia|]. split.
  { f_equal. unfold count. cbn [List.filter sl_status].
    destruct (String.eqb _ "failed"); reflexivity. }
  split; [f_equal; simpl; lia|]. split; [f_equal|].
  intros _. split; [lia|]. split; reflexivity.
Qed.

Lemma getStats_witness :
  sendLogs (getStats noon_entry_db) + activityLogs (getStats noon_entry_db)
  = sendLogs (getStats (snd (rotateLogs 30 1706695200000 noon_entry_db)))
    + activityLogs (getStats (snd (rotateLogs 30 1706695200000 noon_entry_db)))
    + fst (rotateLogs 30 1706695200000 noon_entry_db).
Proof.
  refine (proj1 (proj2 (proj2 (proj2 (proj2 (proj2
            (getStats_follows_the_operations noon_entry_db 1706695200000 30
               "" "" "" "" "" no_send_data no_activity_data))))) _)).
  unfold year_10000, Clock.minus_days. lia.
Defined.

End MaintenanceFacts.
(** * Further dashboard routes *)

Section RouteFacts.

Import Store Examples Props Facts.

(** X13: the dashboard's rotation route.  A request without the
    dashboard's secret is answered 401 and reaches nothing.  Otherwise the
    bot is called with the dashboard's secret: if the bot holds the same
    secret and is reachable, and the cutoff instant lies between 1970 and
    the year 10000, the route answers 200 with the number the bot's
    rotation returned and the bot's state is the one its own endpoint
    leaves; if the bot is not reachable or holds another secret, the route
    answers 500 and nothing has changed. *)
Theorem rotate_route_passes_the_call_on
    (token LOGS_TOKEN : option string) (maxAge : option Z) (reachable : bool)
    (now : Z) (b : Bot.State) :
  let result := RotateRoute.POST token LOGS_TOKEN maxAge reachable now b in
  (Retry.token_ok token LOGS_TOKEN = false ->
   RotateRoute.http_status (fst result) = 401 /\ snd result = b)
  /\ (Retry.token_ok token LOGS_TOKEN = true ->
      (reachable = false \/ Bot.LOGS_TOKEN b <> LOGS_TOKEN ->
       RotateRoute.http_status (fst result) = 500 /\ snd result = b)
      /\ (reachable = true -> Bot.LOGS_TOKEN b = LOGS_TOKEN ->
          0 <= Clock.minus_days now (default 30 maxAge) < year_10000 ->
          fst result
          = {| RotateRoute.http_status := 200;
               RotateRoute.http_body :=
                 RotateRoute.RotatedBody "Log rotation completed"
                   (fst (rotateLogs (default 30 maxAge) now (Bot.db b))) |}
          /\ snd result
             = snd (Maintenance.rotate_logs LOGS_TOKEN (Some (default 30 maxAge)) now b))).
Proof.
  intros result. subst result. unfold RotateRoute.POST. split.
  - intros ->. split; reflexivity.
  - intros Htok. rewrite Htok. cbn [negb].
    assert (Hsome : exists s, token = Some s /\ LOGS_TOKEN = Some s).
    { unfold Retry.token_ok in Htok. destruct token as [t|], LOGS_TOKEN as [e|];
        try discriminate. apply String.eqb_eq in Htok. subst e. exists t. split; reflexivity. }
    destruct Hsome as (s & -> & ->).
    split.
    + intros [->|Hne]; [split; reflexivity|].
      destruct reachable; [|split; reflexivity].
      unfold Maintenance.rotate_logs.
      assert (Hbot : Bot.token_ok (Some s) b = false).
      { unfold Bot.token_ok. destruct (Bot.LOGS_TOKEN b) as [e|]; [|reflexivity].
        apply String.eqb_neq. intros ->. apply Hne. reflexivity. }
      rewrite Hbot. split; reflexivity.
    + intros -> Hb _. unfold Maintenance.rotate_logs.
      assert (Hbot : Bot.token_ok (Some s) b = true).
      { unfold Bot.token_ok. rewrite Hb. apply String.eqb_refl. }
      rewrite Hbot. cbn [negb]. set (m := default 30 maxAge).
      change (default 30 (Some m)) with m.
      destruct (rotateLogs m now (Bot.db b)) as [n d1].
      split; reflexivity.
Qed.

Lemma rotate_route_witness :
  fst (RotateRoute.POST (Some "secret") (Some "secret") None true 1706695200000
         fresh_state)
  = {| RotateRoute.http_status := 200;
       RotateRoute.http_body :=
         RotateRoute.RotatedBody "Log rotation completed"
           (fst (rotateLogs 30 1706695200000 (Bot.db fresh_state))) |}.
Proof.
  refine (proj1 (proj2 (proj2 (rotate_route_passes_the_call_on (Some "secret")
                                 (Some "secret") None true 1706695200000 fresh_state)
                          eq_refl) eq_refl eq_refl _)).
  unfold year_10000, Clock.minus_days. cbn [default]. lia.
Defined.

(** X14: POST /api/logs.  The request is refused with 401 without the
    secret, and with 500 when it holds no JSON or no [kind]; in these cases
    nothing is written.  Otherwise the route writes the very row that the
    bot's [logActivity] writes for the same data without metadata, and
    answers with the id of that row, the one after the table's counter. *)
Theorem logs_post_writes_what_logActivity_writes
    (token LOGS_TOKEN : option string) (body : LogsCreate.LogBody) (now : Z) (d : Db) :
  let data :=
    {| ad_source := LogsCreate.source body; ad_channel_id := LogsCreate.channel_id body;
       ad_user_id := LogsCreate.user_id body; ad_status := LogsCreate.status body;
       ad_error := LogsCreate.error body; ad_message_id := LogsCreate.message_id body;
       ad_ref_id := LogsCreate.ref_id body; ad_action := LogsCreate.action body;
       ad_emoji := LogsCreate.emoji body; ad_metadata := None |} in
  (Retry.token_ok token LOGS_TOKEN = false ->
   LogsCreate.http_status (fst (LogsCreate.POST token LOGS_TOKEN (Some body) now d)) = 401
   /\ snd (LogsCreate.POST token LOGS_TOKEN (Some body) now d) = d)
  /\ (Retry.token_ok token LOGS_TOKEN = true ->
      (LogsCreate.http_status (fst (LogsCreate.POST token LOGS_TOKEN None now d)) = 500
       /\ snd (LogsCreate.POST token LOGS_TOKEN None now d) = d)
      /\ (LogsCreate.kind body = None ->
          LogsCreate.http_status
            (fst (LogsCreate.POST token LOGS_TOKEN (Some body) now d)) = 500
          /\ snd (LogsCreate.POST token LOGS_TOKEN (Some body) now d) = d)
      /\ (forall kind, LogsCreate.kind body = Some kind ->
          LogsCreate.POST token LOGS_TOKEN (Some body) now d
          = ({| LogsCreate.http_status := 200;
                LogsCreate.http_body :=
                  LogsCreate.CreatedBody "Log created" (seq_activity_logs d + 1) |},
             logActivity kind data now d))).
Proof.
  intros data. unfold LogsCreate.POST. split.
  - intros ->. split; reflexivity.
  - intros ->. cbn [negb]. split; [split; reflexivity|]. split.
    + intros ->. split; reflexivity.
    + intros kind ->. reflexivity.
Qed.

Lemma logs_post_witness :
  LogsCreate.http_status
    (fst (LogsCreate.POST (Some "secret") (Some "secret") None 1704110400000 empty_db))
  = 500.
Proof.
  refine (proj1 (proj1 (proj2 (logs_post_writes_what_logActivity_writes
                                 (Some "secret") (Some "secret")
                                 {| LogsCreate.kind := None; LogsCreate.source := None;
                                    LogsCreate.channel_id := None;
                                    LogsCreate.user_id := None;
                                    LogsCreate.status := None; LogsCreate.error := None;
                                    LogsCreate.message_id := None;
                                    LogsCreate.ref_id := None;
                                    LogsCreate.action := None;
                                    LogsCreate.emoji := None |}
                                 1704110400000 empty_db) _))).
  reflexivity.
Defined.

(** X15: DELETE /api/logs/clear.  Without the secret it answers 401 and
    changes nothing.  With it, both log tables are empty afterwards and
    every listing request gets the empty page; tasks, reminders and
    rotation markers are untouched; numbering starts again, so the next
    entry of either table gets id 1. *)
Theorem clear_empties_the_logs_and_restarts_numbering
    (token LOGS_TOKEN : option string) (d : Db)
    (kind status channel_id q cursor : string) (limit : option Z)
    (skind akind : string) (sdata : SendData) (adata : ActivityData) (now : Z) :
  let d' := snd (Clear.DELETE token LOGS_TOKEN d) in
  (Retry.token_ok token LOGS_TOKEN = false ->
   Clear.http_status (fst (Clear.DELETE token LOGS_TOKEN d)) = 401 /\ d' = d)
  /\ (Retry.token_ok token LOGS_TOKEN = true ->
      Clear.http_status (fst (Clear.DELETE token LOGS_TOKEN d)) = 200
      /\ send_logs d' = [] /\ activity_logs d' = []
      /\ tasks d' = tasks d /\ reminders d' = reminders d
      /\ log_rotation d' = log_rotation d
      /\ Dashboard.logs (Dashboard.queryLogs kind status channel_id q cursor limit d') = []
      /\ Dashboard.nextCursor
           (Dashboard.queryLogs kind status channel_id q cursor limit d') = None
      /\ List.map sl_id (send_logs (logSend skind sdata now d')) = [1]
      /\ List.map al_id (activity_logs (logActivity akind adata now d')) = [1]).
Proof.
  intros d'. subst d'. unfold Clear.DELETE. split.
  - intros ->. split; reflexivity.
  - intros ->. cbn [negb fst snd].
    split; [reflexivity|]. split; [reflexivity|]. split; [reflexivity|].
    split; [reflexivity|]. split; [reflexivity|]. split; [reflexivity|].
    assert (Hp : forall l,
               Dashboard.queryLogs kind status channel_id q cursor l
                 (with_activity_logs
                    (with_send_logs
                       (with_activity_logs (with_send_logs d [] (seq_send_logs d)) []
                          (seq_activity_logs (with_send_logs d [] (seq_send_logs d))))
                       (send_logs
                          (with_activity_logs (with_send_logs d [] (seq_send_logs d)) []
                             (seq_activity_logs (with_send_logs d [] (seq_send_logs d)))))
                       0)
                    (activity_logs
                       (with_activity_logs (with_send_logs d [] (seq_send_logs d)) []
                          (seq_activity_logs (with_send_logs d [] (seq_send_logs d)))))
                    0)
               = {| Dashboard.logs := [];
                    Dashboard.hasMore := match l with Some l => l <? 0 | None => false end;
                    Dashboard.nextCursor := None |}).
    { intros l. unfold Dashboard.queryLogs, Dashboard.query_send_logs,
        Dashboard.query_activity_logs.
      cbn [send_logs activity_logs with_send_logs with_activity_logs List.filter
           List.map Dashboard.sort_by app].
      destruct l as [l|]; [|reflexivity].
      cbn [fmap option_fmap option_map]. unfold Dashboard.slice0.
      destruct (l + 1 <? 0); rewrite take_nil; cbn [length];
        change (Z.of_nat 0) with 0; destruct (l <? 0); reflexivity. }
    rewrite Hp. split; [reflexivity|]. split; [reflexivity|].
    split; reflexivity.
Qed.

Lemma clear_witness :
  send_logs (snd (Clear.DELETE (Some "secret") (Some "secret") three_rows_db)) = [].
Proof.
  refine (proj1 (proj2 (proj2 (clear_empties_the_logs_and_restarts_numbering
                                 (Some "secret") (Some "secret") three_rows_db
                                 "" "" "" "" "" None "" "" no_send_data
                                 no_activity_data 0) _))).
  reflexivity.
Defined.

End RouteFacts.
(** * Channels and statistics of the dashboard *)

Section ChannelFacts.

Import Channels Facts.

(** X16: the channel route.  With the bot token or the guild id missing or
    empty it answers 500 whatever Discord would say, and so it does when
    the call to Discord fails.  Otherwise it answers 200 with the text
    channels (type 0) only, each of them once with its id, name and
    position, in non-descending order of position. *)
Theorem channels_route_lists_text_channels_by_position
    (BOT_TOKEN GUILD_ID : option string) (api : option (list Channel)) :
  let text_of channel :=
    {| tc_id := id channel; tc_name := name channel; tc_position := position channel |} in
  (Js.or_null BOT_TOKEN = None \/ Js.or_null GUILD_ID = None ->
   GET BOT_TOKEN GUILD_ID api
   = {| http_status := 500; http_body := ErrorBody "Missing bot token or guild ID" |})
  /\ (forall botToken guildId,
        Js.or_null BOT_TOKEN = Some botToken -> Js.or_null GUILD_ID = Some guildId ->
        (api = None ->
         GET BOT_TOKEN GUILD_ID api
         = {| http_status := 500; http_body := ErrorBody "Failed to fetch channels" |})
        /\ (forall channels, api = Some channels ->
            exists listed,
              GET BOT_TOKEN GUILD_ID api
              = {| http_status := 200; http_body := ChannelsBody listed |}
              /\ listed ≡ₚ List.map text_of
                             (List.filter (fun channel => type channel =? 0) channels)
              /\ StronglySorted (fun a b => tc_position a <= tc_position b) listed)).
Proof.
  intros text_of. unfold GET. split.
  - intros [->|H]; [reflexivity|]. rewrite H. destruct (Js.or_null BOT_TOKEN); reflexivity.
  - intros botToken guildId -> ->. split.
    + intros ->. reflexivity.
    + intros channels ->. eexists. split; [reflexivity|]. split.
      * apply sort_by_perm.
      * pose proof (sort_by_ordered (fun a b => tc_position a <=? tc_position b)) as Hs.
        match goal with
        | |- StronglySorted _ (Dashboard.sort_by _ ?l) => specialize (Hs ltac:(intros a b H; apply Z.leb_gt in H; apply Z.leb_le; lia) ltac:(intros a b c H1 H2; apply Z.leb_le in H1, H2; apply Z.leb_le; lia) l)
        end.
        induction Hs as [|a l Hs IH Ha]; constructor; [exact IH|].
        eapply List.Forall_impl; [|exact Ha]. cbv beta. intros c H.
        apply Z.leb_le in H. exact H.
Qed.

Lemma channels_route_witness :
  GET (Some "") (Some "guild") (Some [])
  = {| http_status := 500; http_body := ErrorBody "Missing bot token or guild ID" |}.
Proof.
  refine (proj1 (channels_route_lists_text_channels_by_position
                   (Some "") (Some "guild") (Some [])) _).
  left. reflexivity.
Defined.

End ChannelFacts.

Section StatisticsFacts.

Import Store Bot Statistics Examples Props Facts.

Lemma count_ext {A : Type} (p p' : A -> bool) (l : list A) :
  (forall x, In x l -> p x = p' x) -> Maintenance.count p l = Maintenance.count p' l.
Proof.
  intros H. unfold Maintenance.count. f_equal. f_equal.
  apply List.filter_ext_in. exact H.
Qed.



Lemma successful_count (d : Db) :
  default 0 (successfulAttempts d)
  = Maintenance.count (fun r => String.eqb (sl_status r) "success") (send_logs d).
Proof.
  unfold successfulAttempts. destruct (send_logs d); reflexivity.
Qed.

Lemma successful_after_logSend (kind : string) (data : SendData) (now : Z) (d : Db) :
  default "success" (Js.or_null (sd_status data)) <> "success" ->
  default 0 (successfulAttempts (logSend kind data now d))
  = default 0 (successfulAttempts d).
Proof.
  intros Hne. rewrite !successful_count.
  cbn [logSend send_logs with_send_logs]. rewrite count_app.
  unfold Maintenance.count at 2. cbn [List.filter sl_status].
  apply String.eqb_neq in Hne. rewrite Hne. simpl. lia.
Qed.


End StatisticsFacts.
(** * The time pattern of the slash commands *)

Section TimePattern.

Import Store Bot Clock Examples Props Facts.

Lemma code_digit_char (k : Z) :
  0 <= k <= 9 -> Z.of_N (N_of_ascii (Js.digit_char k)) = k + 48.
Proof.
  intros H.
  assert (E : k = 0 \/ k = 1 \/ k = 2 \/ k = 3 \/ k = 4 \/ k = 5 \/ k = 6
              \/ k = 7 \/ k = 8 \/ k = 9) by lia.
  repeat (destruct E as [->|E]); try subst k; reflexivity.
Qed.

Lemma in_range_digit_char (k : Z) (lo hi : ascii) :
  0 <= k <= 9 ->
  in_range (Js.digit_char k) lo hi
  = (Z.of_N (N_of_ascii lo) - 48 <=? k) && (k <=? Z.of_N (N_of_ascii hi) - 48).
Proof.
  intros H. unfold in_range. cbv zeta. rewrite (code_digit_char k H).
  destruct (Z.leb_spec (Z.of_N (N_of_ascii lo)) (k + 48));
    destruct (Z.leb_spec (k + 48) (Z.of_N (N_of_ascii hi)));
    destruct (Z.leb_spec (Z.of_N (N_of_ascii lo) - 48) k);
    destruct (Z.leb_spec k (Z.of_N (N_of_ascii hi) - 48)); try reflexivity; lia.
Qed.

Lemma two_eqb_digit_char (k : Z) :
  0 <= k <= 9 -> Ascii.eqb (Js.digit_char k) "2" = (k =? 2).
Proof.
  intros H.
  assert (E : k = 0 \/ k = 1 \/ k = 2 \/ k = 3 \/ k = 4 \/ k = 5 \/ k = 6
              \/ k = 7 \/ k = 8 \/ k = 9) by lia.
  repeat (destruct E as [->|E]); try subst k; reflexivity.
Qed.

(** The pattern on a text made of hour digits, a colon and two minute
    digits. *)
Lemma timeRegex_one_digit (x z y : Z) :
  0 <= x <= 9 -> 0 <= z <= 9 -> 0 <= y <= 9 ->
  timeRegex_test
    (String (Js.digit_char x)
       (String ":" (String (Js.digit_char z) (String (Js.digit_char y) EmptyString))))
  = (z <=? 5).
Proof.
  intros Hx Hz Hy. unfold timeRegex_test. cbn [list_ascii_of_string].
  rewrite (proj1 (digit_char_is_digit x Hx)), (proj1 (digit_char_is_digit y Hy)).
  rewrite (in_range_digit_char z "0" "5" Hz).
  change (Z.of_N (N_of_ascii "0") - 48) with 0.
  change (Z.of_N (N_of_ascii "5") - 48) with 5.
  change (Ascii.eqb ":" ":") with true. cbn [andb].
  replace (0 <=? z) with true by (symmetry; apply Z.leb_le; lia).
  rewrite andb_true_r. reflexivity.
Qed.

Lemma timeRegex_two_digits (u x z y : Z) :
  0 <= u <= 9 -> 0 <= x <= 9 -> 0 <= z <= 9 -> 0 <= y <= 9 ->
  timeRegex_test
    (String (Js.digit_char u)
       (String (Js.digit_char x)
          (String ":" (String (Js.digit_char z) (String (Js.digit_char y) EmptyString)))))
  = ((10 * u + x <=? 23) && (z <=? 5)).
Proof.
  intros Hu Hx Hz Hy. unfold timeRegex_test. cbn [list_ascii_of_string].
  rewrite (proj1 (digit_char_is_digit x Hx)), (proj1 (digit_char_is_digit y Hy)).
  rewrite (in_range_digit_char z "0" "5" Hz), (in_range_digit_char u "0" "1" Hu),
    (in_range_digit_char x "0" "3" Hx), (two_eqb_digit_char u Hu).
  change (Z.of_N (N_of_ascii "0") - 48) with 0.
  change (Z.of_N (N_of_ascii "1") - 48) with 1.
  change (Z.of_N (N_of_ascii "3") - 48) with 3.
  change (Z.of_N (N_of_ascii "5") - 48) with 5.
  change (Ascii.eqb ":" ":") with true.
  destruct (Z.leb_spec 0 u); [|lia]. destruct (Z.leb_spec 0 x); [|lia].
  destruct (Z.leb_spec 0 z); [|lia].
  destruct (Z.leb_spec u 1); destruct (Z.eqb_spec u 2); destruct (Z.leb_spec x 3);
    destruct (Z.leb_spec z 5); destruct (Z.leb_spec (10 * u + x) 23);
    cbn [andb orb]; try reflexivity; lia.
Qed.

(** X19: the time pattern of [/add-task] and [/add-reminder] accepts
    exactly the texts [H:MM] and [HH:MM] with an hour from 0 to 23 (one
    digit, or two with a leading zero allowed) and a minute from 00 to 59.
    On every other text [/add-reminder] answers that the format is invalid
    and changes nothing else; on an accepted one it stores one reminder row
    with the caller, the channel, the content and the time as given, and
    creates one task object. *)
Theorem timeRegex_accepts_exactly_the_times_of_day (time : string) :
  (timeRegex_test time = true
   <-> exists h m,
         0 <= h <= 23 /\ 0 <= m <= 59
         /\ (time = (pad2 h ++ ":" ++ pad2 m)%string
             \/ (h <= 9 /\ time = String (Js.digit_char h) (":" ++ pad2 m)%string)))
  /\ forall ia content now b,
       (timeRegex_test time = false ->
        handleAddReminder ia content time now b = emit (EvReply InvalidTimeFormat) b)
       /\ (timeRegex_test time = true ->
           exists row,
             reminders (db (handleAddReminder ia content time now b))
             = reminders (db b) ++ [row]
             /\ rem_id row = seq_reminders (db b) + 1
             /\ rem_content row = content /\ rem_time row = time
             /\ rem_user_id row = ia_user ia /\ rem_channel_id row = ia_channel ia
             /\ length (jobs (handleAddReminder ia content time now b))
                = S (length (jobs b))).
Proof.
  split.
  - split.
    + intros H. pose proof H as H'. unfold timeRegex_test in H'.
      destruct time as [|a [|b [|c [|d [|e [|f time]]]]]];
        cbn [list_ascii_of_string] in H'; try discriminate.
      * rewrite !andb_true_iff in H'. destruct H' as (((Ha & Hb) & Hc) & Hd).
        apply Ascii.eqb_eq in Hb. subst b.
        apply is_digit_cases in Ha as (x & Hx & ->).
        apply is_digit_cases in Hd as (y & Hy & ->).
        apply in_range_digit_cases in Hc as (z & Hz & -> & _);
          [|vm_compute; discriminate|vm_compute; discriminate].
        rewrite (timeRegex_one_digit x z y Hx Hz Hy) in H. apply Z.leb_le in H.
        exists x, (10 * z + y). split; [lia|]. split; [lia|]. right. split; [lia|].
        unfold pad2. cbn [String.append].
        replace ((10 * z + y) / 10 mod 10) with z by (Z.div_mod_to_equations; lia).
        replace ((10 * z + y) mod 10) with y by (Z.div_mod_to_equations; lia).
        reflexivity.
      * rewrite !andb_true_iff in H'. destruct H' as (((Hh & Hc) & Hd) & He).
        apply Ascii.eqb_eq in Hc. subst c.
        apply is_digit_cases in He as (y & Hy & ->).
        apply in_range_digit_cases in Hd as (z & Hz & -> & _);
          [|vm_compute; discriminate|vm_compute; discriminate].
        assert (Hab : exists u x, 0 <= u <= 9 /\ 0 <= x <= 9
                                  /\ a = Js.digit_char u /\ b = Js.digit_char x).
        { apply orb_true_iff in Hh as [Hh|Hh]; apply andb_true_iff in Hh as [H1 H2].
          - apply in_range_digit_cases in H1 as (u & Hu & -> & _);
              [|vm_compute; discriminate|vm_compute; discriminate].
            apply is_digit_cases in H2 as (x & Hx & ->). exists u, x. auto.
          - apply Ascii.eqb_eq in H1. subst a.
            apply in_range_digit_cases in H2 as (x & Hx & -> & _);
              [|vm_compute; discriminate|vm_compute; discriminate].
            exists 2, x. split; [lia|]. split; [exact Hx|]. split; reflexivity. }
        destruct Hab as (u & x & Hu & Hx & -> & ->).
        rewrite (timeRegex_two_digits u x z y Hu Hx Hz Hy) in H.
        apply andb_true_iff in H as [H1 H2]. apply Z.leb_le in H1, H2.
        exists (10 * u + x), (10 * z + y). split; [lia|]. split; [lia|]. left.
        unfold pad2. cbn [String.append].
        replace ((10 * u + x) / 10 mod 10) with u by (Z.div_mod_to_equations; lia).
        replace ((10 * u + x) mod 10) with x by (Z.div_mod_to_equations; lia).
        replace ((10 * z + y) / 10 mod 10) with z by (Z.div_mod_to_equations; lia).
        replace ((10 * z + y) mod 10) with y by (Z.div_mod_to_equations; lia).
        reflexivity.
    + intros (h & m & Hh & Hm & [->|[Hh9 ->]]); unfold pad2; cbn [String.append].
      * rewrite timeRegex_two_digits by (Z.div_mod_to_equations; lia).
        apply andb_true_iff. split; apply Z.leb_le; Z.div_mod_to_equations; lia.
      * rewrite timeRegex_one_digit by (Z.div_mod_to_equations; lia).
        apply Z.leb_le. Z.div_mod_to_equations. lia.
  - intros ia content now b. split.
    + apply handleAddReminder_rejects_time.
    + intros E. unfold handleAddReminder. rewrite E. cbn [negb].
      unfold stmt_run, lastID. cbn [fst snd].
      eexists. split; [reflexivity|]. repeat split.
      unfold scheduleReminder, cron_schedule, job_start.
      cbn [jobs emit with_db with_jobs with_cronJobs fst snd db].
      rewrite length_alter, length_app. simpl. lia.
Qed.

Lemma timeRegex_witness : timeRegex_test "09:05" = true.
Proof.
  refine (proj2 (proj1 (timeRegex_accepts_exactly_the_times_of_day "09:05")) _).
  exists 9, 5. split; [lia|]. split; [lia|]. left. reflexivity.
Defined.

End TimePattern.
(** * Secrets, and retries of retries *)

Section AccessFacts.

Import Store Examples Props Facts.

(** X20: the two token checks differ on a missing header.  The bot lets a
    request through exactly when its header equals the configured secret,
    a missing header and a missing secret counting as equal: with no
    secret configured, a request without the header is not answered 401
    by /send-once, /add-reminder, /add-task and /rotate-logs.  The
    dashboard routes let a request through only when a header is present
    and equals a configured secret: without a header they answer 401
    whatever is configured. *)
Theorem token_checks_on_missing_header
    (token LOGS_TOKEN : option string) (b : Bot.State) (now : Z)
    (content channel_id user_id time id : string) (days : option string)
    (maxAge : option Z) (out : Bot.SendOutcome) (reachable : bool)
    (body : option LogsCreate.LogBody) (d : Db) :
  (Bot.token_ok token b = true <-> token = Bot.LOGS_TOKEN b)
  /\ (Retry.token_ok token LOGS_TOKEN = true
      <-> exists secret, token = Some secret /\ LOGS_TOKEN = Some secret)
  /\ (Bot.LOGS_TOKEN b = None ->
      Bot.http_status (fst (Bot.send_once None content channel_id out now b)) <> 401
      /\ Bot.http_status (fst (Bot.add_reminder None content channel_id user_id time now b))
         <> 401
      /\ Bot.http_status (fst (Bot.add_task None content channel_id user_id time days now b))
         <> 401
      /\ Maintenance.http_status (fst (Maintenance.rotate_logs None maxAge now b)) <> 401)
  /\ (Retry.http_status (fst (Retry.POST None LOGS_TOKEN id reachable out now b)) = 401
      /\ snd (Retry.POST None LOGS_TOKEN id reachable out now b) = b
      /\ LogsCreate.http_status (fst (LogsCreate.POST None LOGS_TOKEN body now d)) = 401
      /\ Clear.http_status (fst (Clear.DELETE None LOGS_TOKEN d)) = 401
      /\ RotateRoute.http_status
           (fst (RotateRoute.POST None LOGS_TOKEN maxAge reachable now b)) = 401).
Proof.
  split; [|split; [|split]].
  - unfold Bot.token_ok. destruct token as [t|], (Bot.LOGS_TOKEN b) as [e|].
    + rewrite String.eqb_eq. split; [intros ->; reflexivity|intros E; injection E; auto].
    + split; discriminate.
    + split; discriminate.
    + split; reflexivity.
  - unfold Retry.token_ok. destruct token as [t|], LOGS_TOKEN as [e|].
    + rewrite String.eqb_eq. split.
      * intros ->. exists e. split; reflexivity.
      * intros (s & E1 & E2). congruence.
    + split; [discriminate|intros (s & _ & E); discriminate].
    + split; [discriminate|intros (s & E & _); discriminate].
    + split; [discriminate|intros (s & E & _); discriminate].
  - intros Hnone.
    assert (Hok : Bot.token_ok None b = true) by (unfold Bot.token_ok; rewrite Hnone; reflexivity).
    unfold Bot.send_once, Bot.add_reminder, Bot.add_task, Maintenance.rotate_logs.
    rewrite Hok. cbn [negb].
    split; [|split; [discriminate|split; [discriminate|]]].
    + destruct (negb (Bot.channel_cached channel_id b)); [discriminate|].
      destruct out; discriminate.
    + destruct (rotateLogs (default 30 maxAge) now (Bot.db b)). discriminate.
  - repeat split.
Qed.

Lemma token_checks_witness :
  Bot.http_status
    (fst (Bot.add_reminder None "stand-up" "chan-1" "user-1" "09:00" 1704100000000
            (Bot.with_db
               {| Bot.db := empty_db; Bot.cronJobs := ∅; Bot.jobs := [];
                  Bot.channels := ["chan-1"]; Bot.LOGS_TOKEN := None;
                  Bot.effects := [] |} empty_db)))
  <> 401.
Proof.
  refine (proj1 (proj2 (proj1 (proj2 (proj2 (token_checks_on_missing_header
            None None _ 1704100000000 "stand-up" "chan-1" "user-1" "09:00" ""
            None None (Bot.Delivered "m") true None empty_db))) _))).
  reflexivity.
Defined.

Lemma find_fresh_key (d : Db) (rows : list SendLog) (e : SendLog) (c : Z) :
  send_logs d = rows ++ [e] ->
  keys_fresh sl_id rows c -> sl_id e = c + 1 ->
  get_failed_send_log (c + 1) d
  = if String.eqb (sl_status e) "failed" then Some e else None.
Proof.
  intros Hd (_ & Hall & _) He. unfold get_failed_send_log. rewrite Hd. clear Hd.
  induction rows as [|r rows IH]; cbn [app find].
  - rewrite He, Z.eqb_refl. cbn [andb].
    destruct (String.eqb (sl_status e) "failed"); reflexivity.
  - apply Forall_cons in Hall as [Hr Hall].
    replace (sl_id r =? c + 1) with false by (symmetry; apply Z.eqb_neq; lia).
    cbn [andb]. apply IH. exact Hall.
Qed.

(** What a retry leaves in the send log: nothing, or one entry of kind
    [send_once] with the next id. *)
Lemma POST_writes_send_once (token LOGS_TOKEN : option string) (id : string)
    (reachable : bool) (out : Bot.SendOutcome) (now : Z) (b : Bot.State) :
  let b' := snd (Retry.POST token LOGS_TOKEN id reachable out now b) in
  send_logs (Bot.db b') = send_logs (Bot.db b)
  \/ exists e, send_logs (Bot.db b') = send_logs (Bot.db b) ++ [e]
               /\ sl_kind e = "send_once"
               /\ sl_id e = seq_send_logs (Bot.db b) + 1.
Proof.
  assert (Hsend : forall tok c ch,
             let b' := snd (Bot.send_once tok c ch out now b) in
             send_logs (Bot.db b') = send_logs (Bot.db b)
             \/ exists e, send_logs (Bot.db b') = send_logs (Bot.db b) ++ [e]
                          /\ sl_kind e = "send_once"
                          /\ sl_id e = seq_send_logs (Bot.db b) + 1).
  { intros tok c ch. unfold Bot.send_once.
    destruct (negb (Bot.token_ok tok b)); [left; reflexivity|].
    destruct (negb (Bot.channel_cached ch b)); [left; reflexivity|].
    destruct out; right; eexists; split; try reflexivity; split; reflexivity. }
  assert (Hcall : forall c ch,
             let b' := snd (Retry.call_bot LOGS_TOKEN c ch reachable out now b) in
             send_logs (Bot.db b') = send_logs (Bot.db b)
             \/ exists e, send_logs (Bot.db b') = send_logs (Bot.db b) ++ [e]
                          /\ sl_kind e = "send_once"
                          /\ sl_id e = seq_send_logs (Bot.db b) + 1).
  { intros c ch. unfold Retry.call_bot. destruct reachable; [|left; reflexivity].
    pose proof (Hsend LOGS_TOKEN c ch) as Hs. cbv zeta in Hs.
    destruct (Bot.send_once LOGS_TOKEN c ch out now b) as [resp b1]. cbn [snd] in Hs.
    destruct ((200 <=? Bot.http_status resp) && (Bot.http_status resp <=? 299));
      exact Hs. }
  unfold Retry.POST.
  destruct (negb (Retry.token_ok token LOGS_TOKEN)); [left; reflexivity|].
  destruct (Js.parseInt id) as [logId|]; [|left; reflexivity].
  destruct (get_failed_send_log logId (Bot.db b)) as [log|]; [|left; reflexivity].
  destruct (String.eqb (sl_kind log) "reminder").
  - destruct (Js.or_null_int (sl_ref_id log)) as [ref|]; [|left; reflexivity].
    destruct (get_reminder ref (Bot.db b)); [apply Hcall|left; reflexivity].
  - destruct (String.eqb (sl_kind log) "task"); [|left; reflexivity].
    destruct (Js.or_null_int (sl_ref_id log)) as [ref|]; [|left; reflexivity].
    destruct (get_task ref (Bot.db b)); [apply Hcall|left; reflexivity].
Qed.

(** X21: what a retry writes cannot be retried.  When a retry request
    leaves an entry in the send log of a store with distinct ids, that
    entry has kind [send_once]; a later retry request for its id is
    answered 404 if the entry records a sent message and 400 if it records
    a failure, and changes nothing. *)
Theorem entry_of_a_retry_cannot_be_retried
    (token LOGS_TOKEN : option string) (id : string) (reachable reachable' : bool)
    (out out' : Bot.SendOutcome) (now now' : Z) (b : Bot.State) :
  keys_fresh sl_id (send_logs (Bot.db b)) (seq_send_logs (Bot.db b)) ->
  Retry.token_ok token LOGS_TOKEN = true ->
  let b1 := snd (Retry.POST token LOGS_TOKEN id reachable out now b) in
  send_logs (Bot.db b1) <> send_logs (Bot.db b) ->
  exists e,
    send_logs (Bot.db b1) = send_logs (Bot.db b) ++ [e]
    /\ sl_kind e = "send_once"
    /\ Retry.POST token LOGS_TOKEN (Js.show_Z (sl_id e)) reachable' out' now' b1
       = (Retry.error_response
            (if String.eqb (sl_status e) "failed" then 400 else 404)
            (if String.eqb (sl_status e) "failed"
             then "Cannot retry this type of log entry"
             else "Failed log entry not found"),
          b1).
Proof.
  intros Hfresh Htok b1 Hne.
  destruct (POST_writes_send_once token LOGS_TOKEN id reachable out now b)
    as [E|(e & E & Hk & Hi)]; fold b1 in E; [contradiction|].
  exists e. split; [exact E|]. split; [exact Hk|].
  unfold Retry.POST. rewrite Htok. cbn [negb].
  rewrite parseInt_show_Z, Hi.
  rewrite (find_fresh_key (Bot.db b1) _ e _ E Hfresh Hi).
  destruct (String.eqb (sl_status e) "failed"); [|reflexivity].
  rewrite Hk. reflexivity.
Qed.

Lemma entry_of_a_retry_witness :
  exists e,
    send_logs (Bot.db (snd (Retry.POST (Some "secret") (Some "secret") "1" true
                              (Bot.Rejected "Missing Access") 1704120000000
                              failed_delivery_state)))
    = send_logs (Bot.db failed_delivery_state) ++ [e]
    /\ sl_kind e = "send_once".
Proof.
  destruct (entry_of_a_retry_cannot_be_retried (Some "secret") (Some "secret") "1"
              true true (Bot.Rejected "Missing Access") (Bot.Delivered "m")
              1704120000000 1704130000000 failed_delivery_state)
    as (e & He & Hk & _).
  - split; [|split].
    + vm_compute. apply NoDup_singleton.
    + vm_compute. repeat constructor; discriminate.
    + vm_compute. discriminate.
  - reflexivity.
  - vm_compute. discriminate.
  - exists e. split; assumption.
Defined.

End AccessFacts.

(** * Setting up the schema *)

Section SchemaFacts.

Import Migration Schema Props Facts.

Lemma settled_table_iff (name : string) (cols : list string) (s : Database) :
  settled (CreateTable name cols) s <-> is_Some (tables s !! name).
Proof.
  unfold settled, run_query, create_table.
  destruct (tables s !! name) as [tb|] eqn:Ht.
  - split; [eauto|reflexivity].
  - split; [|intros [? ?]; discriminate].
    destruct (indexes s !! name); [discriminate|].
    intros H. injection H as H. rewrite <- H in Ht. cbn [tables] in Ht.
    rewrite lookup_insert_eq in Ht. discriminate.
Qed.

Lemma settled_index_iff (name table : string) (cols : list string) (s : Database) :
  settled (CreateIndex name table cols) s
  <-> is_Some (tables s !! table) /\ tables s !! name = None
      /\ is_Some (indexes s !! name).
Proof.
  unfold settled, run_query, create_index.
  destruct (tables s !! table) as [tb|] eqn:Ht.
  2:{ split; [discriminate|intros [[? ?] _]; discriminate]. }
  destruct (tables s !! name) as [tn|] eqn:Hn.
  { split; [discriminate|intros (_ & ? & _); discriminate]. }
  destruct (indexes s !! name) as [x|] eqn:Hi.
  { split; [eauto|reflexivity]. }
  split; [|intros (_ & _ & [? ?]); discriminate].
  destruct (List.find _ cols); [discriminate|].
  intros H. injection H as H. rewrite <- H in Hi. cbn [indexes] in Hi.
  rewrite lookup_insert_eq in Hi. discriminate.
Qed.

(** What one statement that succeeds leaves of the tables and indexes. *)
Lemma run_query_effect (q : Query) (s s' : Database) :
  run_query q s = inr s' ->
  (forall t tb, tables s !! t = Some tb -> tables s' !! t = Some tb)
  /\ (forall i x, indexes s !! i = Some x -> indexes s' !! i = Some x)
  /\ (forall t, is_Some (tables s' !! t) -> indexes s !! t = None \/ is_Some (tables s !! t))
  /\ settled q s'.
Proof.
  destruct q as [name cols|name table cols]; cbn [run_query].
  - unfold create_table. destruct (tables s !! name) as [tb|] eqn:Ht.
    + intros H. injection H as <-. repeat split; auto.
      apply settled_table_iff. eauto.
    + destruct (indexes s !! name) eqn:Hi; [discriminate|].
      intros H. injection H as <-. cbn [tables indexes]. repeat split; auto.
      * intros t tb Htb. rewrite lookup_insert_ne; [exact Htb|congruence].
      * intros t Hs. destruct (decide (name = t)) as [<-|Hne]; [left; exact Hi|].
        rewrite lookup_insert_ne in Hs by exact Hne. right. exact Hs.
      * apply settled_table_iff. cbn [tables]. rewrite lookup_insert_eq. eauto.
  - unfold create_index. destruct (tables s !! table) as [tb|] eqn:Ht; [|discriminate].
    destruct (tables s !! name) as [tn|] eqn:Hn; [discriminate|].
    destruct (indexes s !! name) as [x|] eqn:Hi.
    + intros H. injection H as <-. repeat split; auto.
      apply settled_index_iff. eauto.
    + destruct (List.find _ cols); [discriminate|].
      intros H. injection H as <-. cbn [tables indexes]. repeat split; auto.
      * intros i x Hx. rewrite lookup_insert_ne; [exact Hx|congruence].
      * apply settled_index_iff. cbn [tables indexes].
        rewrite lookup_insert_eq. eauto.
Qed.

Lemma settled_after_query (q q' : Query) (s s' : Database) :
  run_query q' s = inr s' -> settled q s -> settled q s'.
Proof.
  intros Hrun Hq.
  destruct (run_query_effect _ _ _ Hrun) as (Ht & Hi & Hnew & _).
  destruct q as [name cols|name table cols].
  - apply settled_table_iff. apply settled_table_iff in Hq.
    destruct Hq as [tb Htb]. rewrite (Ht _ _ Htb). eauto.
  - apply settled_index_iff. apply settled_index_iff in Hq.
    destruct Hq as ([tb Htb] & Hn & [x Hx]).
    split; [rewrite (Ht _ _ Htb); eauto|]. split; [|rewrite (Hi _ _ Hx); eauto].
    destruct (tables s' !! name) as [tn|] eqn:Hn'; [|reflexivity].
    destruct (Hnew name) as [E|[? E]]; [eauto|congruence|congruence].
Qed.

Lemma executeQueries_settled (qs : list Query) (s : Database) :
  Forall (fun q => settled q s) qs -> executeQueriesSequentially qs s = (None, s).
Proof.
  induction 1 as [|q qs Hq _ IH]; [reflexivity|].
  cbn [executeQueriesSequentially]. unfold settled in Hq. rewrite Hq. exact IH.
Qed.

Lemma settled_after_queries (q : Query) (qs : list Query) :
  forall s e s',
    executeQueriesSequentially qs s = (e, s') -> settled q s -> settled q s'.
Proof.
  induction qs as [|q' qs IH]; intros s e s' Hex Hq; cbn in Hex.
  - injection Hex as _ <-. exact Hq.
  - destruct (run_query q' s) as [err|s1] eqn:Hrun.
    + injection Hex as _ <-. exact Hq.
    + exact (IH _ _ _ Hex (settled_after_query _ _ _ _ Hrun Hq)).
Qed.

Lemma executeQueries_resolved_settled (qs : list Query) :
  forall s s',
    executeQueriesSequentially qs s = (None, s') -> Forall (fun q => settled q s') qs.
Proof.
  induction qs as [|q qs IH]; intros s s' Hex; [constructor|].
  cbn in Hex. destruct (run_query q s) as [err|s1] eqn:Hrun; [discriminate|].
  constructor; [|exact (IH _ _ Hex)].
  apply (settled_after_queries q qs s1 None s' Hex).
  apply (run_query_effect _ _ _ Hrun).
Qed.

Lemma executeQueries_keeps (qs : list Query) :
  forall s e s',
    executeQueriesSequentially qs s = (e, s') ->
    (forall t tb, tables s !! t = Some tb -> tables s' !! t = Some tb)
    /\ (forall i x, indexes s !! i = Some x -> indexes s' !! i = Some x).
Proof.
  induction qs as [|q qs IH]; intros s e s' Hex; cbn in Hex.
  - injection Hex as _ <-. auto.
  - destruct (run_query q s) as [err|s1] eqn:Hrun.
    + injection Hex as _ <-. auto.
    + destruct (run_query_effect _ _ _ Hrun) as (Ht & Hi & _).
      destruct (IH _ _ _ Hex) as [Ht' Hi']. split; eauto.
Qed.

Lemma index_queries_keep_tables (qs : list Query) :
  forallb is_index_query qs = true ->
  forall s e s', executeQueriesSequentially qs s = (e, s') -> tables s' = tables s.
Proof.
  induction qs as [|q qs IH]; intros Hall s e s' Hex; cbn in Hex.
  - injection Hex as _ <-. reflexivity.
  - cbn in Hall. apply andb_prop in Hall as [Hq Hall].
    destruct (run_query q s) as [err|s1] eqn:Hrun.
    + injection Hex as _ <-. reflexivity.
    + rewrite (IH Hall _ _ _ Hex).
      destruct q as [|name table cols]; [discriminate|].
      cbn in Hrun. unfold create_index in Hrun.
      destruct (tables s !! table); [|discriminate].
      destruct (tables s !! name); [discriminate|].
      destruct (indexes s !! name).
      * injection Hrun as <-. reflexivity.
      * destruct (List.find _ cols); [discriminate|]. injection Hrun as <-. reflexivity.
Qed.

(** An index that a run of statements added is the one its statement
    names. *)
Lemma executeQueries_new_index (qs : list Query) :
  forall s e s' i x,
    executeQueriesSequentially qs s = (e, s') ->
    indexes s !! i = None -> indexes s' !! i = Some x ->
    In (CreateIndex i (idx_table x) (idx_columns x)) qs.
Proof.
  induction qs as [|q qs IH]; intros s e s' i x Hex Hnone Hx; cbn in Hex.
  - injection Hex as _ <-. congruence.
  - destruct (run_query q s) as [err|s1] eqn:Hrun.
    + injection Hex as _ <-. congruence.
    + destruct (indexes s1 !! i) as [y|] eqn:Hy.
      * left. destruct (executeQueries_keeps _ _ _ _ Hex) as [_ Hi].
        rewrite (Hi _ _ Hy) in Hx. injection Hx as <-.
        destruct q as [name cols|name table cols]; cbn in Hrun.
        -- unfold create_table in Hrun. destruct (tables s !! name).
           ++ injection Hrun as <-. congruence.
           ++ destruct (indexes s !! name); [discriminate|].
              injection Hrun as <-. cbn in Hy. congruence.
        -- unfold create_index in Hrun.
           destruct (tables s !! table); [|discriminate].
           destruct (tables s !! name); [discriminate|].
           destruct (indexes s !! name).
           ++ injection Hrun as <-. congruence.
           ++ destruct (List.find _ cols); [discriminate|]. injection Hrun as <-.
              cbn [indexes] in Hy. destruct (decide (name = i)) as [->|Hne].
              ** rewrite lookup_insert_eq in Hy. injection Hy as <-. reflexivity.
              ** rewrite lookup_insert_ne in Hy by exact Hne. congruence.
      * right. exact (IH _ _ _ _ _ Hex Hy Hx).
Qed.

(** *** [initTables] *)

Lemma initTables_phases (now : string) (s s' : Database) :
  initTables now s = (None, s') ->
  exists s1,
    executeQueriesSequentially tableQueries s = (None, s1)
    /\ runMigrations now (tables s1) = (None, tables s')
    /\ executeQueriesSequentially getIndexQueries
         {| tables := tables s'; indexes := indexes s1 |} = (None, s').
Proof.
  unfold initTables.
  destruct (executeQueriesSequentially tableQueries s) as [[err|] s1] eqn:H1;
    [discriminate|].
  destruct (runMigrations now (tables s1)) as [[err|] t2] eqn:H2; [discriminate|].
  intros H3. exists s1. split; [reflexivity|].
  assert (Ht : tables s' = t2).
  { exact (index_queries_keep_tables getIndexQueries eq_refl _ _ _ H3). }
  rewrite Ht. split; [exact H2|exact H3].
Qed.

Lemma NoDup_map_unique {A B : Type} (f : A -> B) (l : list A) (x y : A) :
  List.NoDup (List.map f l) -> In x l -> In y l -> f x = f y -> x = y.
Proof.
  induction l as [|a l IH]; intros Hnd Hx Hy E; [contradiction|].
  cbn in Hnd. inversion Hnd as [|? ? Hni Hnd']; subst.
  destruct Hx as [->|Hx], Hy as [->|Hy].
  - reflexivity.
  - exfalso. apply Hni. rewrite E. apply in_map. exact Hy.
  - exfalso. apply Hni. rewrite <- E. apply in_map. exact Hx.
  - exact (IH Hnd' Hx Hy E).
Qed.

Lemma index_names_distinct : List.NoDup (List.map query_name getIndexQueries).
Proof.
  apply NoDup_ListNoDup. apply (@bool_decide_unpack _ (NoDup_dec _)).
  vm_compute. exact I.
Qed.

(** X22: when [initTables] resolves, every table it names exists, every
    column of the migrations is on its table, and every index it names
    exists; an index that was not there before is on the table and columns
    of its statement. *)
Theorem initTables_resolved_sets_up_the_schema (now : string) (s s' : Database) :
  initTables now s = (None, s') ->
  (forall name cols,
     In (CreateTable name cols) tableQueries -> is_Some (tables s' !! name))
  /\ (forall m,
        In m migrations ->
        exists tb, tables s' !! table m = Some tb /\ has_column (column m) tb = true)
  /\ (forall name table cols,
        In (CreateIndex name table cols) getIndexQueries ->
        is_Some (indexes s' !! name)
        /\ (indexes s !! name = None ->
            indexes s' !! name = Some {| idx_table := table; idx_columns := cols |})).
Proof.
  intros Hinit. destruct (initTables_phases _ _ _ Hinit) as (s1 & H1 & H2 & H3).
  pose proof (executeQueries_resolved_settled _ _ _ H1) as Hs1.
  pose proof (executeQueries_resolved_settled _ _ _ H3) as Hs3.
  pose proof (runMigrations_keeps _ _ _ _ H2) as Hk2.
  rewrite Forall_forall in Hs1, Hs3.
  assert (Htab : forall name cols,
             In (CreateTable name cols) tableQueries -> is_Some (tables s' !! name)).
  { intros name cols Hin. apply list_elem_of_In in Hin.
    apply Hs1, settled_table_iff in Hin. destruct Hin as [tb Htb].
    destruct (Hk2 _ _ Htb) as (tb' & E & _). eauto. }
  split; [exact Htab|]. split.
  - intros m Hm. pose proof (runMigrations_resolved_skipped _ _ _ H2) as Hall.
    rewrite Forall_forall in Hall. apply list_elem_of_In in Hm.
    pose proof (Hall _ Hm) as Hskip. apply skipped_iff in Hskip.
    destruct Hskip as [[_ Hinc]|Hcol]; [|exact Hcol].
    exfalso. apply list_elem_of_In in Hm. cbn in Hm.
    repeat (destruct Hm as [<-|Hm]; [vm_compute in Hinc; discriminate|]).
    contradiction.
  - intros name table cols Hin. pose proof Hin as Hin'. apply list_elem_of_In in Hin'.
    apply Hs3, settled_index_iff in Hin'. cbn [tables indexes] in Hin'.
    destruct Hin' as (_ & _ & [x Hx]). split; [eauto|].
    intros Hnone.
    assert (Hnone1 : indexes s1 !! name = None).
    { destruct (indexes s1 !! name) as [y|] eqn:Hy; [|reflexivity].
      pose proof (executeQueries_new_index _ _ _ _ _ _ H1 Hnone Hy) as Hbad.
      exfalso. cbn in Hbad. repeat (destruct Hbad as [Hbad|Hbad]; [discriminate|]).
      contradiction. }
    pose proof (executeQueries_new_index _ _ _ _ _ _ H3 Hnone1 Hx) as Hmade.
    pose proof (NoDup_map_unique query_name _ _ _ index_names_distinct Hin Hmade eq_refl)
      as E.
    rewrite Hx. injection E as -> ->. destruct x; reflexivity.
Qed.

Lemma initTables_witness :
  let s' := snd (initTables "2024-03-01T00:00:00.000Z" Examples.legacy_database) in
  initTables "2024-03-01T00:00:00.000Z" Examples.legacy_database = (None, s')
  /\ is_Some (tables s' !! "log_rotation")
  /\ indexes s' !! "idx_send_logs_time"
     = Some {| idx_table := "send_logs"; idx_columns := ["sent_at"; "id"] |}.
Proof.
  intros s'.
  assert (H : initTables "2024-03-01T00:00:00.000Z" Examples.legacy_database = (None, s'))
    by (vm_compute; reflexivity).
  split; [exact H|].
  destruct (initTables_resolved_sets_up_the_schema _ _ _ H) as (Ht & _ & Hi).
  split.
  - apply (Ht "log_rotation" ["id"; "table_name"; "rotated_at"; "records_archived"]).
    cbn. tauto.
  - apply (Hi "idx_send_logs_time" "send_logs" ["sent_at"; "id"]);
      [cbn; tauto|reflexivity].
Defined.

(** X23: when [initTables] has resolved, running it again, at any later
    instant, resolves too and leaves the database exactly as it was. *)
Theorem initTables_again_changes_nothing (now now' : string) (s s' : Database) :
  initTables now s = (None, s') -> initTables now' s' = (None, s').
Proof.
  intros Hinit. destruct (initTables_phases _ _ _ Hinit) as (s1 & H1 & H2 & H3).
  pose proof (executeQueries_resolved_settled _ _ _ H1) as Hs1.
  pose proof (executeQueries_resolved_settled _ _ _ H3) as Hs3.
  pose proof (runMigrations_keeps _ _ _ _ H2) as Hk2.
  assert (Hs1' : Forall (fun q => settled q s') tableQueries).
  { rewrite Forall_forall in Hs1. apply Forall_forall. intros q Hq.
    pose proof (Hs1 _ Hq) as Hset. apply list_elem_of_In in Hq. cbn in Hq.
    repeat (destruct Hq as [<-|Hq];
            [apply settled_table_iff; apply settled_table_iff in Hset;
             destruct Hset as [tb Htb]; destruct (Hk2 _ _ Htb) as (tb' & E & _); eauto|]).
    contradiction. }
  unfold initTables.
  rewrite (executeQueries_settled _ _ Hs1'),
    (runMigrations_resolved_again _ now' _ _ H2).
  replace {| tables := tables s'; indexes := indexes s' |} with s'
    by (destruct s'; reflexivity).
  exact (executeQueries_settled _ _ Hs3).
Qed.

Lemma initTables_again_witness :
  let s' := snd (initTables "2024-03-01T00:00:00.000Z" Examples.legacy_database) in
  initTables "2024-03-01T00:00:00.000Z" Examples.legacy_database = (None, s')
  /\ initTables "2024-04-01T12:00:00.000Z" s' = (None, s').
Proof.
  intros s'.
  assert (H : initTables "2024-03-01T00:00:00.000Z" Examples.legacy_database = (None, s'))
    by (vm_compute; reflexivity).
  split; [exact H|].
  exact (initTables_again_changes_nothing _ "2024-04-01T12:00:00.000Z" _ _ H).
Defined.

(** X24: whether it resolves or rejects, [initTables] drops nothing: every
    table that was there is still there with its columns and its rows, in
    their order and with their non-null values, and every index is as it
    was. *)
Theorem initTables_keeps_what_was_there (now : string) (s : Database) :
  database_kept s (snd (initTables now s)).
Proof.
  unfold initTables.
  destruct (executeQueriesSequentially tableQueries s) as [e1 s1] eqn:H1.
  destruct (executeQueries_keeps _ _ _ _ H1) as [Ht1 Hi1].
  assert (K1 : database_kept s s1).
  { split; [|exact Hi1]. intros t tb Htb. exists tb.
    split; [exact (Ht1 _ _ Htb)|apply table_kept_refl]. }
  destruct e1 as [err|]; [exact K1|].
  destruct (runMigrations now (tables s1)) as [e2 t2] eqn:H2.
  pose proof (runMigrations_keeps _ _ _ _ H2) as K2.
  assert (K12 : database_kept s {| tables := t2; indexes := indexes s1 |}).
  { split; [|exact Hi1]. cbn [tables].
    exact (tables_kept_trans _ _ _ (proj1 K1) K2). }
  destruct e2 as [err|]; [exact K12|].
  destruct (executeQueriesSequentially getIndexQueries
              {| tables := t2; indexes := indexes s1 |}) as [e3 s3] eqn:H3.
  destruct (executeQueries_keeps _ _ _ _ H3) as [Ht3 Hi3]. cbn [snd].
  split.
  - intros t tb Htb. destruct (proj1 K12 _ _ Htb) as (tb' & E & K).
    exists tb'. split; [exact (Ht3 _ _ E)|exact K].
  - intros i x Hx. apply Hi3. cbn [indexes]. exact (Hi1 _ _ Hx).
Qed.

End SchemaFacts.

(** * Log channels and the enhanced log listing *)

Section EnhancedFacts.

Import Dashboard Enhanced Examples Facts.

Lemma no_conflict_left (g c : string) (rows : list LogChannel) :
  List.filter (fun r => String.eqb (category r) c)
    (List.map
       (fun r => {| category := lc_category r; channel_id := lc_channel_id r;
                    enabled := lc_enabled r |})
       (List.filter (fun r => String.eqb (lc_guild_id r) g)
          (List.filter (fun r => negb (conflicts g c r)) rows)))
  = [].
Proof.
  induction rows as [|r rows IH]; [reflexivity|]. cbn [List.filter].
  unfold conflicts at 1.
  destruct (String.eqb (lc_guild_id r) g) eqn:Eg;
    destruct (String.eqb (lc_category r) c) eqn:Ec; cbn [andb negb]; try exact IH.
  - cbn [List.filter]. rewrite Eg. cbn [List.map List.filter category]. rewrite Ec.
    exact IH.
  - cbn [List.filter]. rewrite Eg. exact IH.
  - cbn [List.filter]. rewrite Eg. exact IH.
Qed.

Lemma others_untouched (g c g' c' : string) (rows : list LogChannel) :
  (g', c') <> (g, c) ->
  List.filter (fun r => String.eqb (category r) c')
    (List.map
       (fun r => {| category := lc_category r; channel_id := lc_channel_id r;
                    enabled := lc_enabled r |})
       (List.filter (fun r => String.eqb (lc_guild_id r) g')
          (List.filter (fun r => negb (conflicts g c r)) rows)))
  = List.filter (fun r => String.eqb (category r) c')
      (List.map
         (fun r => {| category := lc_category r; channel_id := lc_channel_id r;
                      enabled := lc_enabled r |})
         (List.filter (fun r => String.eqb (lc_guild_id r) g') rows)).
Proof.
  intros Hne. induction rows as [|r rows IH]; [reflexivity|]. cbn [List.filter].
  unfold conflicts at 1.
  destruct (String.eqb_spec (lc_guild_id r) g) as [Eg|Ng];
    destruct (String.eqb_spec (lc_category r) c) as [Ec|Nc]; cbn [andb negb].
  - destruct (String.eqb_spec (lc_guild_id r) g') as [Eg'|Ng']; [|exact IH].
    cbn [List.map List.filter category].
    destruct (String.eqb_spec (lc_category r) c') as [Ec'|Nc']; [|exact IH].
    exfalso. apply Hne. congruence.
  - cbn [List.filter]. destruct (String.eqb (lc_guild_id r) g'); [|exact IH].
    cbn [List.map List.filter category].
    destruct (String.eqb (lc_category r) c'); [f_equal|]; exact IH.
  - cbn [List.filter]. destruct (String.eqb (lc_guild_id r) g'); [|exact IH].
    cbn [List.map List.filter category].
    destruct (String.eqb (lc_category r) c'); [f_equal|]; exact IH.
  - cbn [List.filter]. destruct (String.eqb (lc_guild_id r) g'); [|exact IH].
    cbn [List.map List.filter category].
    destruct (String.eqb (lc_category r) c'); [f_equal|]; exact IH.
Qed.

Lemma channel_keys_without_conflicts (g c : string) (rows : list LogChannel) :
  NoDup (List.map channel_key rows) ->
  NoDup (List.map channel_key
           (List.filter (fun r => negb (conflicts g c r)) rows ++ [
              {| lc_id := 0; lc_guild_id := g; lc_category := c; lc_channel_id := "";
                 lc_enabled := 0; lc_created_at := ""; lc_updated_at := "" |}])).
Proof.
  intros Hnd. rewrite List.map_app. apply NoDup_app. split; [|split].
  - induction rows as [|r rows IH]; [constructor|]. cbn [List.filter List.map] in *.
    apply NoDup_cons in Hnd as [Hr Hnd].
    destruct (negb (conflicts g c r)); [|exact (IH Hnd)].
    cbn [List.map]. apply NoDup_cons. split; [|exact (IH Hnd)].
    intros Hin. apply Hr. apply list_elem_of_In, in_map_iff in Hin as (x & Ex & Hx).
    apply filter_In in Hx as [Hx _]. apply list_elem_of_In, in_map_iff.
    exists x. split; assumption.
  - intros k Hk Hk'. apply list_elem_of_In in Hk'. destruct Hk' as [<-|[]].
    apply list_elem_of_In, in_map_iff in Hk as (x & Ex & Hx).
    apply filter_In in Hx as [_ Hx]. unfold channel_key in Ex. cbn in Ex.
    injection Ex as Eg Ec. unfold conflicts in Hx.
    rewrite Eg, Ec, !String.eqb_refl in Hx. discriminate.
  - apply NoDup_singleton.
Qed.

(** X25: after [setLogChannel] for a guild and category, [getLogChannels]
    of the guild holds exactly one row for the category, with the channel
    and flag of the call (1 when [enabled] is left out); the rows of every
    other guild or category read as before; and a table with one row for
    a guild and category and distinct ids stays so. *)
Theorem setLogChannel_is_read_back (g c ch : string) (en : option bool) (now : Z)
    (t : Tables) :
  let t' := setLogChannel g c ch en now t in
  List.filter (fun r => String.eqb (category r) c) (getLogChannels g t')
  = [{| category := c; channel_id := ch;
        enabled := if default true en then 1 else 0 |}]
  /\ (forall g' c',
        (g', c') <> (g, c) ->
        List.filter (fun r => String.eqb (category r) c') (getLogChannels g' t')
        = List.filter (fun r => String.eqb (category r) c') (getLogChannels g' t))
  /\ (log_channels_valid t -> log_channels_valid t').
Proof.
  intros t'. subst t'. unfold getLogChannels, setLogChannel. cbn [log_channels].
  split; [|split].
  - rewrite List.filter_app, List.map_app, List.filter_app, no_conflict_left.
    cbn [List.filter lc_guild_id]. rewrite String.eqb_refl.
    cbn [List.map List.filter category lc_category]. rewrite String.eqb_refl.
    reflexivity.
  - intros g' c' Hne.
    rewrite List.filter_app, List.map_app, List.filter_app,
      (others_untouched g c g' c' _ Hne).
    cbn [List.filter lc_guild_id].
    destruct (String.eqb_spec g g') as [Eg|Ng]; [|apply app_nil_r].
    cbn [List.map List.filter category lc_category].
    destruct (String.eqb_spec c c') as [Ec|Nc]; [|apply app_nil_r].
    exfalso. apply Hne. congruence.
  - intros [Hkeys Hids]. split; cbn [log_channels seq_log_channels].
    + pose proof (channel_keys_without_conflicts g c _ Hkeys) as H.
      rewrite List.map_app in H |- *. exact H.
    + apply keys_fresh_snoc; [|reflexivity]. apply keys_fresh_filter. exact Hids.
Qed.

Lemma setLogChannel_witness :
  log_channels_valid two_guilds
  /\ List.filter (fun r => String.eqb (category r) "tasks")
       (getLogChannels "guild-1"
          (setLogChannel "guild-2" "tasks" "chan-9" None 0 two_guilds))
     = List.filter (fun r => String.eqb (category r) "tasks")
         (getLogChannels "guild-1" two_guilds)
  /\ log_channels_valid (setLogChannel "guild-2" "tasks" "chan-9" None 0 two_guilds).
Proof.
  assert (Hv : log_channels_valid two_guilds).
  { split; [|split; [|split]].
    - apply (@bool_decide_unpack _ (NoDup_dec _)). vm_compute. exact I.
    - apply (@bool_decide_unpack _ (NoDup_dec _)). vm_compute. exact I.
    - repeat constructor; vm_compute; discriminate.
    - vm_compute. discriminate. }
  split; [exact Hv|].
  destruct (setLogChannel_is_read_back "guild-2" "tasks" "chan-9" None 0 two_guilds)
    as (_ & Hother & Hkeep).
  split; [|exact (Hkeep Hv)].
  apply (Hother "guild-1" "tasks"). intros E. inversion E.
Defined.

Lemma newest_first_total (a b : EnhancedLog) :
  newest_first a b = false -> newest_first b a = true.
Proof. unfold newest_first. apply string_le_total. Qed.

Lemma newest_first_trans (a b c : EnhancedLog) :
  newest_first a b = true -> newest_first b c = true -> newest_first a c = true.
Proof.
  unfold newest_first. intros Hab Hbc.
  exact (string_le_trans _ _ _ Hbc Hab).
Qed.

(** X26: [getEnhancedLogs] never runs with limit 0: a missing limit or 0
    stands for 100.  Every row it gives is a row of the table that passes
    the filters, a filter that is the empty text counting as not given.
    For a limit that is not negative it gives as many rows as the limit,
    or all matching rows when there are fewer; the rows come newest first
    and the matching rows it leaves out are not newer than any it gives; a
    negative limit leaves none out. *)
Theorem getEnhancedLogs_gives_the_newest_matching_rows (filters : Filters) (t : Tables) :
  let n := default 100 (Js.or_null_int (f_limit filters)) in
  let matching := List.filter (conditions filters) (enhanced_logs t) in
  let page := getEnhancedLogs filters t in
  n <> 0
  /\ (f_limit filters = None \/ f_limit filters = Some 0 -> n = 100)
  /\ (forall r, In r page -> In r (enhanced_logs t) /\ conditions filters r = true)
  /\ (forall c r,
        f_category filters = Some c -> c <> "" -> In r page -> el_category r = c)
  /\ (forall v r,
        f_since filters = Some v -> v <> "" -> In r page ->
        String.ltb (el_created_at r) v = false)
  /\ (0 <= n -> Z.of_nat (length page) = Z.min n (Z.of_nat (length matching)))
  /\ exists rest,
       (page ++ rest) ≡ₚ matching
       /\ StronglySorted not_older (page ++ rest)
       /\ (n < 0 -> rest = []).
Proof.
  intros n matching page.
  set (sorted := sort_by newest_first matching).
  assert (Hperm : sorted ≡ₚ matching) by apply sort_by_perm.
  assert (Hsorted : StronglySorted not_older sorted).
  { exact (sort_by_ordered newest_first newest_first_total newest_first_trans matching). }
  assert (Hpage : page = sql_limit n sorted) by reflexivity.
  assert (Hin : forall r, In r page -> In r matching).
  { intros r Hr. rewrite Hpage in Hr. unfold sql_limit in Hr.
    assert (Hs : In r sorted).
    { destruct (n <? 0); [exact Hr|].
      rewrite <- (take_drop (Z.to_nat n) sorted). apply in_or_app. left. exact Hr. }
    apply list_elem_of_In in Hs. rewrite Hperm in Hs. apply list_elem_of_In. exact Hs. }
  assert (Hcond : forall r, In r page -> In r (enhanced_logs t) /\ conditions filters r = true).
  { intros r Hr. apply Hin in Hr. subst matching. apply filter_In in Hr. exact Hr. }
  split.
  { subst n. destruct (f_limit filters) as [[|p|p]|]; cbn; lia. }
  split.
  { subst n. intros [-> | ->]; reflexivity. }
  split; [exact Hcond|].
  split.
  { intros c r Hc Hne Hr. destruct (Hcond r Hr) as [_ H]. unfold conditions in H.
    rewrite Hc in H. unfold when_given at 1 in H.
    destruct c as [|a c]; [contradiction|]. cbn [Js.or_null] in H.
    rewrite !andb_true_iff in H. destruct H as [[[H _] _] _].
    apply String.eqb_eq in H. exact H. }
  split.
  { intros v r Hv Hne Hr. destruct (Hcond r Hr) as [_ H]. unfold conditions in H.
    rewrite Hv in H. unfold when_given at 4 in H.
    destruct v as [|a v]; [contradiction|]. cbn [Js.or_null] in H.
    rewrite !andb_true_iff in H. destruct H as [_ H].
    apply negb_true_iff in H. exact H. }
  split.
  { intros Hn. rewrite Hpage. unfold sql_limit.
    destruct (n <? 0) eqn:E; [apply Z.ltb_lt in E; lia|].
    rewrite length_take, <- (Permutation_length Hperm). lia. }
  exists (if n <? 0 then [] else drop (Z.to_nat n) sorted).
  assert (E : page ++ (if n <? 0 then [] else drop (Z.to_nat n) sorted) = sorted).
  { rewrite Hpage. unfold sql_limit. destruct (n <? 0); [apply app_nil_r|].
    apply take_drop. }
  rewrite E. split; [exact Hperm|]. split; [exact Hsorted|].
  intros Hn. apply Z.ltb_lt in Hn. rewrite Hn. reflexivity.
Qed.

End EnhancedFacts.
